(** * Prospector: lead scraping, lead store, CSV import and SMTP campaign

    A shallow embedding of [prospector_smtp_app.py] and the proofs of the
    properties stated for it.

    Conventions of the embedding.
    - A Python [str] is a list of Unicode code points ([N]).  White
      space ([str.isspace], [\s]), word characters ([\w], [\b]), decimal
      digits ([\d]) and the case mappings of [str.lower] and [str.upper]
      are those of Unicode 14.0.0, given by their tables.
    - [None] is [Datatypes.None]; a value that may be [None] is an [option].
    - Code that may raise runs in the error monad [exn]; [try ... except
      Exception] is [catch].
    - The network, the SMTP server and the clock are a state [W] threaded
      through the calls, together with a trace of the events the program
      performed (requests, sleeps, sends).
    - What the libraries do is a parameter of the program: the replies of
      the network, the SMTP dialogue, [urlparse], [BeautifulSoup] and
      [r.json()], each of which may raise.  A page is given by the
      answers of BeautifulSoup to the three questions the program asks, a
      row of [pd.read_csv] by its labels and fields. *)

From Stdlib Require Import Ascii String.
From Stdlib Require Import List NArith ZArith QArith Bool Lia Arith.
Import ListNotations.
Close Scope Q_scope.

Set Implicit Arguments.

(** ** Unicode

    The tables of Unicode 14.0.0 as CPython 3.11 holds them, and the
    lookups in them.  Code points are numbers; the ranges and runs are
    in increasing order. *)

Module Unicode.

(** The characters of [\w]: those for which [str.isalnum] holds, and the
    underscore. *)
Definition word_ranges : list (N * N) :=
  [
    (48, 57); (65, 90); (95, 95); (97, 122); (170, 170); (178, 179);
    (181, 181); (185, 186); (188, 190); (192, 214); (216, 246); (248, 705);
    (710, 721); (736, 740); (748, 748); (750, 750); (880, 884); (886, 887);
    (890, 893); (895, 895); (902, 902); (904, 906); (908, 908); (910, 929);
    (931, 1013); (1015, 1153); (1162, 1327); (1329, 1366); (1369, 1369);
    (1376, 1416); (1488, 1514); (1519, 1522); (1568, 1610); (1632, 1641);
    (1646, 1647); (1649, 1747); (1749, 1749); (1765, 1766); (1774, 1788);
    (1791, 1791); (1808, 1808); (1810, 1839); (1869, 1957); (1969, 1969);
    (1984, 2026); (2036, 2037); (2042, 2042); (2048, 2069); (2074, 2074);
    (2084, 2084); (2088, 2088); (2112, 2136); (2144, 2154); (2160, 2183);
    (2185, 2190); (2208, 2249); (2308, 2361); (2365, 2365); (2384, 2384);
    (2392, 2401); (2406, 2415); (2417, 2432); (2437, 2444); (2447, 2448);
    (2451, 2472); (2474, 2480); (2482, 2482); (2486, 2489); (2493, 2493);
    (2510, 2510); (2524, 2525); (2527, 2529); (2534, 2545); (2548, 2553);
    (2556, 2556); (2565, 2570); (2575, 2576); (2579, 2600); (2602, 2608);
    (2610, 2611); (2613, 2614); (2616, 2617); (2649, 2652); (2654, 2654);
    (2662, 2671); (2674, 2676); (2693, 2701); (2703, 2705); (2707, 2728);
    (2730, 2736); (2738, 2739); (2741, 2745); (2749, 2749); (2768, 2768);
    (2784, 2785); (2790, 2799); (2809, 2809); (2821, 2828); (2831, 2832);
    (2835, 2856); (2858, 2864); (2866, 2867); (2869, 2873); (2877, 2877);
    (2908, 2909); (2911, 2913); (2918, 2927); (2929, 2935); (2947, 2947);
    (2949, 2954); (2958, 2960); (2962, 2965); (2969, 2970); (2972, 2972);
    (2974, 2975); (2979, 2980); (2984, 2986); (2990, 3001); (3024, 3024);
    (3046, 3058); (3077, 3084); (3086, 3088); (3090, 3112); (3114, 3129);
    (3133, 3133); (3160, 3162); (3165, 3165); (3168, 3169); (3174, 3183);
    (3192, 3198); (3200, 3200); (3205, 3212); (3214, 3216); (3218, 3240);
    (3242, 3251); (3253, 3257); (3261, 3261); (3293, 3294); (3296, 3297);
    (3302, 3311); (3313, 3314); (3332, 3340); (3342, 3344); (3346, 3386);
    (3389, 3389); (3406, 3406); (3412, 3414); (3416, 3425); (3430, 3448);
    (3450, 3455); (3461, 3478); (3482, 3505); (3507, 3515); (3517, 3517);
    (3520, 3526); (3558, 3567); (3585, 3632); (3634, 3635); (3648, 3654);
    (3664, 3673); (3713, 3714); (3716, 3716); (3718, 3722); (3724, 3747);
    (3749, 3749); (3751, 3760); (3762, 3763); (3773, 3773); (3776, 3780);
    (3782, 3782); (3792, 3801); (3804, 3807); (3840, 3840); (3872, 3891);
    (3904, 3911); (3913, 3948); (3976, 3980); (4096, 4138); (4159, 4169);
    (4176, 4181); (4186, 4189); (4193, 4193); (4197, 4198); (4206, 4208);
    (4213, 4225); (4238, 4238); (4240, 4249); (4256, 4293); (4295, 4295);
    (4301, 4301); (4304, 4346); (4348, 4680); (4682, 4685); (4688, 4694);
    (4696, 4696); (4698, 4701); (4704, 4744); (4746, 4749); (4752, 4784);
    (4786, 4789); (4792, 4798); (4800, 4800); (4802, 4805); (4808, 4822);
    (4824, 4880); (4882, 4885); (4888, 4954); (4969, 4988); (4992, 5007);
    (5024, 5109); (5112, 5117); (5121, 5740); (5743, 5759); (5761, 5786);
    (5792, 5866); (5870, 5880); (5888, 5905); (5919, 5937); (5952, 5969);
    (5984, 5996); (5998, 6000); (6016, 6067); (6103, 6103); (6108, 6108);
    (6112, 6121); (6128, 6137); (6160, 6169); (6176, 6264); (6272, 6276);
    (6279, 6312); (6314, 6314); (6320, 6389); (6400, 6430); (6470, 6509);
    (6512, 6516); (6528, 6571); (6576, 6601); (6608, 6618); (6656, 6678);
    (6688, 6740); (6784, 6793); (6800, 6809); (6823, 6823); (6917, 6963);
    (6981, 6988); (6992, 7001); (7043, 7072); (7086, 7141); (7168, 7203);
    (7232, 7241); (7245, 7293); (7296, 7304); (7312, 7354); (7357, 7359);
    (7401, 7404); (7406, 7411); (7413, 7414); (7418, 7418); (7424, 7615);
    (7680, 7957); (7960, 7965); (7968, 8005); (8008, 8013); (8016, 8023);
    (8025, 8025); (8027, 8027); (8029, 8029); (8031, 8061); (8064, 8116);
    (8118, 8124); (8126, 8126); (8130, 8132); (8134, 8140); (8144, 8147);
    (8150, 8155); (8160, 8172); (8178, 8180); (8182, 8188); (8304, 8305);
    (8308, 8313); (8319, 8329); (8336, 8348); (8450, 8450); (8455, 8455);
    (8458, 8467); (8469, 8469); (8473, 8477); (8484, 8484); (8486, 8486);
    (8488, 8488); (8490, 8493); (8495, 8505); (8508, 8511); (8517, 8521);
    (8526, 8526); (8528, 8585); (9312, 9371); (9450, 9471); (10102, 10131);
    (11264, 11492); (11499, 11502); (11506, 11507); (11517, 11517);
    (11520, 11557); (11559, 11559); (11565, 11565); (11568, 11623);
    (11631, 11631); (11648, 11670); (11680, 11686); (11688, 11694);
    (11696, 11702); (11704, 11710); (11712, 11718); (11720, 11726);
    (11728, 11734); (11736, 11742); (11823, 11823); (12293, 12295);
    (12321, 12329); (12337, 12341); (12344, 12348); (12353, 12438);
    (12445, 12447); (12449, 12538); (12540, 12543); (12549, 12591);
    (12593, 12686); (12690, 12693); (12704, 12735); (12784, 12799);
    (12832, 12841); (12872, 12879); (12881, 12895); (12928, 12937);
    (12977, 12991); (13312, 19903); (19968, 42124); (42192, 42237);
    (42240, 42508); (42512, 42539); (42560, 42606); (42623, 42653);
    (42656, 42735); (42775, 42783); (42786, 42888); (42891, 42954);
    (42960, 42961); (42963, 42963); (42965, 42969); (42994, 43009);
    (43011, 43013); (43015, 43018); (43020, 43042); (43056, 43061);
    (43072, 43123); (43138, 43187); (43216, 43225); (43250, 43255);
    (43259, 43259); (43261, 43262); (43264, 43301); (43312, 43334);
    (43360, 43388); (43396, 43442); (43471, 43481); (43488, 43492);
    (43494, 43518); (43520, 43560); (43584, 43586); (43588, 43595);
    (43600, 43609); (43616, 43638); (43642, 43642); (43646, 43695);
    (43697, 43697); (43701, 43702); (43705, 43709); (43712, 43712);
    (43714, 43714); (43739, 43741); (43744, 43754); (43762, 43764);
    (43777, 43782); (43785, 43790); (43793, 43798); (43808, 43814);
    (43816, 43822); (43824, 43866); (43868, 43881); (43888, 44002);
    (44016, 44025); (44032, 55203); (55216, 55238); (55243, 55291);
    (63744, 64109); (64112, 64217); (64256, 64262); (64275, 64279);
    (64285, 64285); (64287, 64296); (64298, 64310); (64312, 64316);
    (64318, 64318); (64320, 64321); (64323, 64324); (64326, 64433);
    (64467, 64829); (64848, 64911); (64914, 64967); (65008, 65019);
    (65136, 65140); (65142, 65276); (65296, 65305); (65313, 65338);
    (65345, 65370); (65382, 65470); (65474, 65479); (65482, 65487);
    (65490, 65495); (65498, 65500); (65536, 65547); (65549, 65574);
    (65576, 65594); (65596, 65597); (65599, 65613); (65616, 65629);
    (65664, 65786); (65799, 65843); (65856, 65912); (65930, 65931);
    (66176, 66204); (66208, 66256); (66273, 66299); (66304, 66339);
    (66349, 66378); (66384, 66421); (66432, 66461); (66464, 66499);
    (66504, 66511); (66513, 66517); (66560, 66717); (66720, 66729);
    (66736, 66771); (66776, 66811); (66816, 66855); (66864, 66915);
    (66928, 66938); (66940, 66954); (66956, 66962); (66964, 66965);
    (66967, 66977); (66979, 66993); (66995, 67001); (67003, 67004);
    (67072, 67382); (67392, 67413); (67424, 67431); (67456, 67461);
    (67463, 67504); (67506, 67514); (67584, 67589); (67592, 67592);
    (67594, 67637); (67639, 67640); (67644, 67644); (67647, 67669);
    (67672, 67702); (67705, 67742); (67751, 67759); (67808, 67826);
    (67828, 67829); (67835, 67867); (67872, 67897); (67968, 68023);
    (68028, 68047); (68050, 68096); (68112, 68115); (68117, 68119);
    (68121, 68149); (68160, 68168); (68192, 68222); (68224, 68255);
    (68288, 68295); (68297, 68324); (68331, 68335); (68352, 68405);
    (68416, 68437); (68440, 68466); (68472, 68497); (68521, 68527);
    (68608, 68680); (68736, 68786); (68800, 68850); (68858, 68899);
    (68912, 68921); (69216, 69246); (69248, 69289); (69296, 69297);
    (69376, 69415); (69424, 69445); (69457, 69460); (69488, 69505);
    (69552, 69579); (69600, 69622); (69635, 69687); (69714, 69743);
    (69745, 69746); (69749, 69749); (69763, 69807); (69840, 69864);
    (69872, 69881); (69891, 69926); (69942, 69951); (69956, 69956);
    (69959, 69959); (69968, 70002); (70006, 70006); (70019, 70066);
    (70081, 70084); (70096, 70106); (70108, 70108); (70113, 70132);
    (70144, 70161); (70163, 70187); (70272, 70278); (70280, 70280);
    (70282, 70285); (70287, 70301); (70303, 70312); (70320, 70366);
    (70384, 70393); (70405, 70412); (70415, 70416); (70419, 70440);
    (70442, 70448); (70450, 70451); (70453, 70457); (70461, 70461);
    (70480, 70480); (70493, 70497); (70656, 70708); (70727, 70730);
    (70736, 70745); (70751, 70753); (70784, 70831); (70852, 70853);
    (70855, 70855); (70864, 70873); (71040, 71086); (71128, 71131);
    (71168, 71215); (71236, 71236); (71248, 71257); (71296, 71338);
    (71352, 71352); (71360, 71369); (71424, 71450); (71472, 71483);
    (71488, 71494); (71680, 71723); (71840, 71922); (71935, 71942);
    (71945, 71945); (71948, 71955); (71957, 71958); (71960, 71983);
    (71999, 71999); (72001, 72001); (72016, 72025); (72096, 72103);
    (72106, 72144); (72161, 72161); (72163, 72163); (72192, 72192);
    (72203, 72242); (72250, 72250); (72272, 72272); (72284, 72329);
    (72349, 72349); (72368, 72440); (72704, 72712); (72714, 72750);
    (72768, 72768); (72784, 72812); (72818, 72847); (72960, 72966);
    (72968, 72969); (72971, 73008); (73030, 73030); (73040, 73049);
    (73056, 73061); (73063, 73064); (73066, 73097); (73112, 73112);
    (73120, 73129); (73440, 73458); (73648, 73648); (73664, 73684);
    (73728, 74649); (74752, 74862); (74880, 75075); (77712, 77808);
    (77824, 78894); (82944, 83526); (92160, 92728); (92736, 92766);
    (92768, 92777); (92784, 92862); (92864, 92873); (92880, 92909);
    (92928, 92975); (92992, 92995); (93008, 93017); (93019, 93025);
    (93027, 93047); (93053, 93071); (93760, 93846); (93952, 94026);
    (94032, 94032); (94099, 94111); (94176, 94177); (94179, 94179);
    (94208, 100343); (100352, 101589); (101632, 101640); (110576, 110579);
    (110581, 110587); (110589, 110590); (110592, 110882); (110928, 110930);
    (110948, 110951); (110960, 111355); (113664, 113770); (113776, 113788);
    (113792, 113800); (113808, 113817); (119520, 119539); (119648, 119672);
    (119808, 119892); (119894, 119964); (119966, 119967); (119970, 119970);
    (119973, 119974); (119977, 119980); (119982, 119993); (119995, 119995);
    (119997, 120003); (120005, 120069); (120071, 120074); (120077, 120084);
    (120086, 120092); (120094, 120121); (120123, 120126); (120128, 120132);
    (120134, 120134); (120138, 120144); (120146, 120485); (120488, 120512);
    (120514, 120538); (120540, 120570); (120572, 120596); (120598, 120628);
    (120630, 120654); (120656, 120686); (120688, 120712); (120714, 120744);
    (120746, 120770); (120772, 120779); (120782, 120831); (122624, 122654);
    (123136, 123180); (123191, 123197); (123200, 123209); (123214, 123214);
    (123536, 123565); (123584, 123627); (123632, 123641); (124896, 124902);
    (124904, 124907); (124909, 124910); (124912, 124926); (124928, 125124);
    (125127, 125135); (125184, 125251); (125259, 125259); (125264, 125273);
    (126065, 126123); (126125, 126127); (126129, 126132); (126209, 126253);
    (126255, 126269); (126464, 126467); (126469, 126495); (126497, 126498);
    (126500, 126500); (126503, 126503); (126505, 126514); (126516, 126519);
    (126521, 126521); (126523, 126523); (126530, 126530); (126535, 126535);
    (126537, 126537); (126539, 126539); (126541, 126543); (126545, 126546);
    (126548, 126548); (126551, 126551); (126553, 126553); (126555, 126555);
    (126557, 126557); (126559, 126559); (126561, 126562); (126564, 126564);
    (126567, 126570); (126572, 126578); (126580, 126583); (126585, 126588);
    (126590, 126590); (126592, 126601); (126603, 126619); (126625, 126627);
    (126629, 126633); (126635, 126651); (127232, 127244); (130032, 130041);
    (131072, 173791); (173824, 177976); (177984, 178205); (178208, 183969);
    (183984, 191456); (194560, 195101); (196608, 201546)
  ]%N.

(** The characters of [\d]: those for which [str.isdecimal] holds. *)
Definition decimal_ranges : list (N * N) :=
  [
    (48, 57); (1632, 1641); (1776, 1785); (1984, 1993); (2406, 2415);
    (2534, 2543); (2662, 2671); (2790, 2799); (2918, 2927); (3046, 3055);
    (3174, 3183); (3302, 3311); (3430, 3439); (3558, 3567); (3664, 3673);
    (3792, 3801); (3872, 3881); (4160, 4169); (4240, 4249); (6112, 6121);
    (6160, 6169); (6470, 6479); (6608, 6617); (6784, 6793); (6800, 6809);
    (6992, 7001); (7088, 7097); (7232, 7241); (7248, 7257); (42528, 42537);
    (43216, 43225); (43264, 43273); (43472, 43481); (43504, 43513);
    (43600, 43609); (44016, 44025); (65296, 65305); (66720, 66729);
    (68912, 68921); (69734, 69743); (69872, 69881); (69942, 69951);
    (70096, 70105); (70384, 70393); (70736, 70745); (70864, 70873);
    (71248, 71257); (71360, 71369); (71472, 71481); (71904, 71913);
    (72016, 72025); (72784, 72793); (73040, 73049); (73120, 73129);
    (92768, 92777); (92864, 92873); (93008, 93017); (120782, 120831);
    (123200, 123209); (123632, 123641); (125264, 125273); (130032, 130041)
  ]%N.

(** The cased characters: lowercase, uppercase and titlecase. *)
Definition cased_ranges : list (N * N) :=
  [
    (65, 90); (97, 122); (170, 170); (181, 181); (186, 186); (192, 214);
    (216, 246); (248, 442); (444, 447); (452, 659); (661, 696); (704, 705);
    (736, 740); (837, 837); (880, 883); (886, 887); (890, 893); (895, 895);
    (902, 902); (904, 906); (908, 908); (910, 929); (931, 1013); (1015, 1153);
    (1162, 1327); (1329, 1366); (1376, 1416); (4256, 4293); (4295, 4295);
    (4301, 4301); (4304, 4346); (4349, 4351); (5024, 5109); (5112, 5117);
    (7296, 7304); (7312, 7354); (7357, 7359); (7424, 7615); (7680, 7957);
    (7960, 7965); (7968, 8005); (8008, 8013); (8016, 8023); (8025, 8025);
    (8027, 8027); (8029, 8029); (8031, 8061); (8064, 8116); (8118, 8124);
    (8126, 8126); (8130, 8132); (8134, 8140); (8144, 8147); (8150, 8155);
    (8160, 8172); (8178, 8180); (8182, 8188); (8305, 8305); (8319, 8319);
    (8336, 8348); (8450, 8450); (8455, 8455); (8458, 8467); (8469, 8469);
    (8473, 8477); (8484, 8484); (8486, 8486); (8488, 8488); (8490, 8493);
    (8495, 8500); (8505, 8505); (8508, 8511); (8517, 8521); (8526, 8526);
    (8544, 8575); (8579, 8580); (9398, 9449); (11264, 11492); (11499, 11502);
    (11506, 11507); (11520, 11557); (11559, 11559); (11565, 11565);
    (42560, 42605); (42624, 42653); (42786, 42887); (42891, 42894);
    (42896, 42954); (42960, 42961); (42963, 42963); (42965, 42969);
    (42997, 42998); (43000, 43002); (43824, 43866); (43868, 43880);
    (43888, 43967); (64256, 64262); (64275, 64279); (65313, 65338);
    (65345, 65370); (66560, 66639); (66736, 66771); (66776, 66811);
    (66928, 66938); (66940, 66954); (66956, 66962); (66964, 66965);
    (66967, 66977); (66979, 66993); (66995, 67001); (67003, 67004);
    (67456, 67456); (67459, 67461); (67463, 67504); (67506, 67514);
    (68736, 68786); (68800, 68850); (71840, 71903); (93760, 93823);
    (119808, 119892); (119894, 119964); (119966, 119967); (119970, 119970);
    (119973, 119974); (119977, 119980); (119982, 119993); (119995, 119995);
    (119997, 120003); (120005, 120069); (120071, 120074); (120077, 120084);
    (120086, 120092); (120094, 120121); (120123, 120126); (120128, 120132);
    (120134, 120134); (120138, 120144); (120146, 120485); (120488, 120512);
    (120514, 120538); (120540, 120570); (120572, 120596); (120598, 120628);
    (120630, 120654); (120656, 120686); (120688, 120712); (120714, 120744);
    (120746, 120770); (120772, 120779); (122624, 122633); (122635, 122654);
    (125184, 125251); (127280, 127305); (127312, 127337); (127344, 127369)
  ]%N.

(** The case-ignorable characters. *)
Definition case_ignorable_ranges : list (N * N) :=
  [
    (39, 39); (46, 46); (58, 58); (94, 94); (96, 96); (168, 168); (173, 173);
    (175, 175); (180, 180); (183, 184); (688, 879); (884, 885); (890, 890);
    (900, 901); (903, 903); (1155, 1161); (1369, 1369); (1375, 1375);
    (1425, 1469); (1471, 1471); (1473, 1474); (1476, 1477); (1479, 1479);
    (1524, 1524); (1536, 1541); (1552, 1562); (1564, 1564); (1600, 1600);
    (1611, 1631); (1648, 1648); (1750, 1757); (1759, 1768); (1770, 1773);
    (1807, 1807); (1809, 1809); (1840, 1866); (1958, 1968); (2027, 2037);
    (2042, 2042); (2045, 2045); (2070, 2093); (2137, 2139); (2184, 2184);
    (2192, 2193); (2200, 2207); (2249, 2306); (2362, 2362); (2364, 2364);
    (2369, 2376); (2381, 2381); (2385, 2391); (2402, 2403); (2417, 2417);
    (2433, 2433); (2492, 2492); (2497, 2500); (2509, 2509); (2530, 2531);
    (2558, 2558); (2561, 2562); (2620, 2620); (2625, 2626); (2631, 2632);
    (2635, 2637); (2641, 2641); (2672, 2673); (2677, 2677); (2689, 2690);
    (2748, 2748); (2753, 2757); (2759, 2760); (2765, 2765); (2786, 2787);
    (2810, 2815); (2817, 2817); (2876, 2876); (2879, 2879); (2881, 2884);
    (2893, 2893); (2901, 2902); (2914, 2915); (2946, 2946); (3008, 3008);
    (3021, 3021); (3072, 3072); (3076, 3076); (3132, 3132); (3134, 3136);
    (3142, 3144); (3146, 3149); (3157, 3158); (3170, 3171); (3201, 3201);
    (3260, 3260); (3263, 3263); (3270, 3270); (3276, 3277); (3298, 3299);
    (3328, 3329); (3387, 3388); (3393, 3396); (3405, 3405); (3426, 3427);
    (3457, 3457); (3530, 3530); (3538, 3540); (3542, 3542); (3633, 3633);
    (3636, 3642); (3654, 3662); (3761, 3761); (3764, 3772); (3782, 3782);
    (3784, 3789); (3864, 3865); (3893, 3893); (3895, 3895); (3897, 3897);
    (3953, 3966); (3968, 3972); (3974, 3975); (3981, 3991); (3993, 4028);
    (4038, 4038); (4141, 4144); (4146, 4151); (4153, 4154); (4157, 4158);
    (4184, 4185); (4190, 4192); (4209, 4212); (4226, 4226); (4229, 4230);
    (4237, 4237); (4253, 4253); (4348, 4348); (4957, 4959); (5906, 5908);
    (5938, 5939); (5970, 5971); (6002, 6003); (6068, 6069); (6071, 6077);
    (6086, 6086); (6089, 6099); (6103, 6103); (6109, 6109); (6155, 6159);
    (6211, 6211); (6277, 6278); (6313, 6313); (6432, 6434); (6439, 6440);
    (6450, 6450); (6457, 6459); (6679, 6680); (6683, 6683); (6742, 6742);
    (6744, 6750); (6752, 6752); (6754, 6754); (6757, 6764); (6771, 6780);
    (6783, 6783); (6823, 6823); (6832, 6862); (6912, 6915); (6964, 6964);
    (6966, 6970); (6972, 6972); (6978, 6978); (7019, 7027); (7040, 7041);
    (7074, 7077); (7080, 7081); (7083, 7085); (7142, 7142); (7144, 7145);
    (7149, 7149); (7151, 7153); (7212, 7219); (7222, 7223); (7288, 7293);
    (7376, 7378); (7380, 7392); (7394, 7400); (7405, 7405); (7412, 7412);
    (7416, 7417); (7468, 7530); (7544, 7544); (7579, 7679); (8125, 8125);
    (8127, 8129); (8141, 8143); (8157, 8159); (8173, 8175); (8189, 8190);
    (8203, 8207); (8216, 8217); (8228, 8228); (8231, 8231); (8234, 8238);
    (8288, 8292); (8294, 8303); (8305, 8305); (8319, 8319); (8336, 8348);
    (8400, 8432); (11388, 11389); (11503, 11505); (11631, 11631);
    (11647, 11647); (11744, 11775); (11823, 11823); (12293, 12293);
    (12330, 12333); (12337, 12341); (12347, 12347); (12441, 12446);
    (12540, 12542); (40981, 40981); (42232, 42237); (42508, 42508);
    (42607, 42610); (42612, 42621); (42623, 42623); (42652, 42655);
    (42736, 42737); (42752, 42785); (42864, 42864); (42888, 42890);
    (42994, 42996); (43000, 43001); (43010, 43010); (43014, 43014);
    (43019, 43019); (43045, 43046); (43052, 43052); (43204, 43205);
    (43232, 43249); (43263, 43263); (43302, 43309); (43335, 43345);
    (43392, 43394); (43443, 43443); (43446, 43449); (43452, 43453);
    (43471, 43471); (43493, 43494); (43561, 43566); (43569, 43570);
    (43573, 43574); (43587, 43587); (43596, 43596); (43632, 43632);
    (43644, 43644); (43696, 43696); (43698, 43700); (43703, 43704);
    (43710, 43711); (43713, 43713); (43741, 43741); (43756, 43757);
    (43763, 43764); (43766, 43766); (43867, 43871); (43881, 43883);
    (44005, 44005); (44008, 44008); (44013, 44013); (64286, 64286);
    (64434, 64450); (65024, 65039); (65043, 65043); (65056, 65071);
    (65106, 65106); (65109, 65109); (65279, 65279); (65287, 65287);
    (65294, 65294); (65306, 65306); (65342, 65342); (65344, 65344);
    (65392, 65392); (65438, 65439); (65507, 65507); (65529, 65531);
    (66045, 66045); (66272, 66272); (66422, 66426); (67456, 67461);
    (67463, 67504); (67506, 67514); (68097, 68099); (68101, 68102);
    (68108, 68111); (68152, 68154); (68159, 68159); (68325, 68326);
    (68900, 68903); (69291, 69292); (69446, 69456); (69506, 69509);
    (69633, 69633); (69688, 69702); (69744, 69744); (69747, 69748);
    (69759, 69761); (69811, 69814); (69817, 69818); (69821, 69821);
    (69826, 69826); (69837, 69837); (69888, 69890); (69927, 69931);
    (69933, 69940); (70003, 70003); (70016, 70017); (70070, 70078);
    (70089, 70092); (70095, 70095); (70191, 70193); (70196, 70196);
    (70198, 70199); (70206, 70206); (70367, 70367); (70371, 70378);
    (70400, 70401); (70459, 70460); (70464, 70464); (70502, 70508);
    (70512, 70516); (70712, 70719); (70722, 70724); (70726, 70726);
    (70750, 70750); (70835, 70840); (70842, 70842); (70847, 70848);
    (70850, 70851); (71090, 71093); (71100, 71101); (71103, 71104);
    (71132, 71133); (71219, 71226); (71229, 71229); (71231, 71232);
    (71339, 71339); (71341, 71341); (71344, 71349); (71351, 71351);
    (71453, 71455); (71458, 71461); (71463, 71467); (71727, 71735);
    (71737, 71738); (71995, 71996); (71998, 71998); (72003, 72003);
    (72148, 72151); (72154, 72155); (72160, 72160); (72193, 72202);
    (72243, 72248); (72251, 72254); (72263, 72263); (72273, 72278);
    (72281, 72283); (72330, 72342); (72344, 72345); (72752, 72758);
    (72760, 72765); (72767, 72767); (72850, 72871); (72874, 72880);
    (72882, 72883); (72885, 72886); (73009, 73014); (73018, 73018);
    (73020, 73021); (73023, 73029); (73031, 73031); (73104, 73105);
    (73109, 73109); (73111, 73111); (73459, 73460); (78896, 78904);
    (92912, 92916); (92976, 92982); (92992, 92995); (94031, 94031);
    (94095, 94111); (94176, 94177); (94179, 94180); (110576, 110579);
    (110581, 110587); (110589, 110590); (113821, 113822); (113824, 113827);
    (118528, 118573); (118576, 118598); (119143, 119145); (119155, 119170);
    (119173, 119179); (119210, 119213); (119362, 119364); (121344, 121398);
    (121403, 121452); (121461, 121461); (121476, 121476); (121499, 121503);
    (121505, 121519); (122880, 122886); (122888, 122904); (122907, 122913);
    (122915, 122916); (122918, 122922); (123184, 123197); (123566, 123566);
    (123628, 123631); (125136, 125142); (125252, 125259); (127995, 127999);
    (917505, 917505); (917536, 917631); (917760, 917999)
  ]%N.

(** The characters with a lowercase mapping of one character, in runs:
    [(lo, hi, step, to)] maps [lo + step * i], up to [hi], to [to + step * i]. *)
Definition lower_runs : list (N * N * N * N) :=
  [
    (65, 90, 1, 97); (192, 214, 1, 224); (216, 222, 1, 248);
    (256, 302, 2, 257); (306, 310, 2, 307); (313, 327, 2, 314);
    (330, 374, 2, 331); (376, 376, 1, 255); (377, 381, 2, 378);
    (385, 385, 1, 595); (386, 388, 2, 387); (390, 390, 1, 596);
    (391, 391, 1, 392); (393, 394, 1, 598); (395, 395, 1, 396);
    (398, 398, 1, 477); (399, 399, 1, 601); (400, 400, 1, 603);
    (401, 401, 1, 402); (403, 403, 1, 608); (404, 404, 1, 611);
    (406, 406, 1, 617); (407, 407, 1, 616); (408, 408, 1, 409);
    (412, 412, 1, 623); (413, 413, 1, 626); (415, 415, 1, 629);
    (416, 420, 2, 417); (422, 422, 1, 640); (423, 423, 1, 424);
    (425, 425, 1, 643); (428, 428, 1, 429); (430, 430, 1, 648);
    (431, 431, 1, 432); (433, 434, 1, 650); (435, 437, 2, 436);
    (439, 439, 1, 658); (440, 440, 1, 441); (444, 444, 1, 445);
    (452, 452, 1, 454); (453, 453, 1, 454); (455, 455, 1, 457);
    (456, 456, 1, 457); (458, 458, 1, 460); (459, 475, 2, 460);
    (478, 494, 2, 479); (497, 497, 1, 499); (498, 500, 2, 499);
    (502, 502, 1, 405); (503, 503, 1, 447); (504, 542, 2, 505);
    (544, 544, 1, 414); (546, 562, 2, 547); (570, 570, 1, 11365);
    (571, 571, 1, 572); (573, 573, 1, 410); (574, 574, 1, 11366);
    (577, 577, 1, 578); (579, 579, 1, 384); (580, 580, 1, 649);
    (581, 581, 1, 652); (582, 590, 2, 583); (880, 882, 2, 881);
    (886, 886, 1, 887); (895, 895, 1, 1011); (902, 902, 1, 940);
    (904, 906, 1, 941); (908, 908, 1, 972); (910, 911, 1, 973);
    (913, 929, 1, 945); (932, 939, 1, 964); (975, 975, 1, 983);
    (984, 1006, 2, 985); (1012, 1012, 1, 952); (1015, 1015, 1, 1016);
    (1017, 1017, 1, 1010); (1018, 1018, 1, 1019); (1021, 1023, 1, 891);
    (1024, 1039, 1, 1104); (1040, 1071, 1, 1072); (1120, 1152, 2, 1121);
    (1162, 1214, 2, 1163); (1216, 1216, 1, 1231); (1217, 1229, 2, 1218);
    (1232, 1326, 2, 1233); (1329, 1366, 1, 1377); (4256, 4293, 1, 11520);
    (4295, 4295, 1, 11559); (4301, 4301, 1, 11565); (5024, 5103, 1, 43888);
    (5104, 5109, 1, 5112); (7312, 7354, 1, 4304); (7357, 7359, 1, 4349);
    (7680, 7828, 2, 7681); (7838, 7838, 1, 223); (7840, 7934, 2, 7841);
    (7944, 7951, 1, 7936); (7960, 7965, 1, 7952); (7976, 7983, 1, 7968);
    (7992, 7999, 1, 7984); (8008, 8013, 1, 8000); (8025, 8031, 2, 8017);
    (8040, 8047, 1, 8032); (8072, 8079, 1, 8064); (8088, 8095, 1, 8080);
    (8104, 8111, 1, 8096); (8120, 8121, 1, 8112); (8122, 8123, 1, 8048);
    (8124, 8124, 1, 8115); (8136, 8139, 1, 8050); (8140, 8140, 1, 8131);
    (8152, 8153, 1, 8144); (8154, 8155, 1, 8054); (8168, 8169, 1, 8160);
    (8170, 8171, 1, 8058); (8172, 8172, 1, 8165); (8184, 8185, 1, 8056);
    (8186, 8187, 1, 8060); (8188, 8188, 1, 8179); (8486, 8486, 1, 969);
    (8490, 8490, 1, 107); (8491, 8491, 1, 229); (8498, 8498, 1, 8526);
    (8544, 8559, 1, 8560); (8579, 8579, 1, 8580); (9398, 9423, 1, 9424);
    (11264, 11311, 1, 11312); (11360, 11360, 1, 11361);
    (11362, 11362, 1, 619); (11363, 11363, 1, 7549); (11364, 11364, 1, 637);
    (11367, 11371, 2, 11368); (11373, 11373, 1, 593); (11374, 11374, 1, 625);
    (11375, 11375, 1, 592); (11376, 11376, 1, 594); (11378, 11378, 1, 11379);
    (11381, 11381, 1, 11382); (11390, 11391, 1, 575);
    (11392, 11490, 2, 11393); (11499, 11501, 2, 11500);
    (11506, 11506, 1, 11507); (42560, 42604, 2, 42561);
    (42624, 42650, 2, 42625); (42786, 42798, 2, 42787);
    (42802, 42862, 2, 42803); (42873, 42875, 2, 42874);
    (42877, 42877, 1, 7545); (42878, 42886, 2, 42879);
    (42891, 42891, 1, 42892); (42893, 42893, 1, 613);
    (42896, 42898, 2, 42897); (42902, 42920, 2, 42903);
    (42922, 42922, 1, 614); (42923, 42923, 1, 604); (42924, 42924, 1, 609);
    (42925, 42925, 1, 620); (42926, 42926, 1, 618); (42928, 42928, 1, 670);
    (42929, 42929, 1, 647); (42930, 42930, 1, 669); (42931, 42931, 1, 43859);
    (42932, 42946, 2, 42933); (42948, 42948, 1, 42900);
    (42949, 42949, 1, 642); (42950, 42950, 1, 7566); (42951, 42953, 2, 42952);
    (42960, 42960, 1, 42961); (42966, 42968, 2, 42967);
    (42997, 42997, 1, 42998); (65313, 65338, 1, 65345);
    (66560, 66599, 1, 66600); (66736, 66771, 1, 66776);
    (66928, 66938, 1, 66967); (66940, 66954, 1, 66979);
    (66956, 66962, 1, 66995); (66964, 66965, 1, 67003);
    (68736, 68786, 1, 68800); (71840, 71871, 1, 71872);
    (93760, 93791, 1, 93792); (125184, 125217, 1, 125218)
  ]%N.

(** The lowercase mappings of more than one character. *)
Definition lower_special : list (N * list N) :=
  [
    (304, [105; 775])
  ]%N.

(** The characters with an uppercase mapping of one character, in runs. *)
Definition upper_runs : list (N * N * N * N) :=
  [
    (97, 122, 1, 65); (181, 181, 1, 924); (224, 246, 1, 192);
    (248, 254, 1, 216); (255, 255, 1, 376); (257, 303, 2, 256);
    (305, 305, 1, 73); (307, 311, 2, 306); (314, 328, 2, 313);
    (331, 375, 2, 330); (378, 382, 2, 377); (383, 383, 1, 83);
    (384, 384, 1, 579); (387, 389, 2, 386); (392, 392, 1, 391);
    (396, 396, 1, 395); (402, 402, 1, 401); (405, 405, 1, 502);
    (409, 409, 1, 408); (410, 410, 1, 573); (414, 414, 1, 544);
    (417, 421, 2, 416); (424, 424, 1, 423); (429, 429, 1, 428);
    (432, 432, 1, 431); (436, 438, 2, 435); (441, 441, 1, 440);
    (445, 445, 1, 444); (447, 447, 1, 503); (453, 453, 1, 452);
    (454, 454, 1, 452); (456, 456, 1, 455); (457, 457, 1, 455);
    (459, 459, 1, 458); (460, 460, 1, 458); (462, 476, 2, 461);
    (477, 477, 1, 398); (479, 495, 2, 478); (498, 498, 1, 497);
    (499, 499, 1, 497); (501, 501, 1, 500); (505, 543, 2, 504);
    (547, 563, 2, 546); (572, 572, 1, 571); (575, 576, 1, 11390);
    (578, 578, 1, 577); (583, 591, 2, 582); (592, 592, 1, 11375);
    (593, 593, 1, 11373); (594, 594, 1, 11376); (595, 595, 1, 385);
    (596, 596, 1, 390); (598, 599, 1, 393); (601, 601, 1, 399);
    (603, 603, 1, 400); (604, 604, 1, 42923); (608, 608, 1, 403);
    (609, 609, 1, 42924); (611, 611, 1, 404); (613, 613, 1, 42893);
    (614, 614, 1, 42922); (616, 616, 1, 407); (617, 617, 1, 406);
    (618, 618, 1, 42926); (619, 619, 1, 11362); (620, 620, 1, 42925);
    (623, 623, 1, 412); (625, 625, 1, 11374); (626, 626, 1, 413);
    (629, 629, 1, 415); (637, 637, 1, 11364); (640, 640, 1, 422);
    (642, 642, 1, 42949); (643, 643, 1, 425); (647, 647, 1, 42929);
    (648, 648, 1, 430); (649, 649, 1, 580); (650, 651, 1, 433);
    (652, 652, 1, 581); (658, 658, 1, 439); (669, 669, 1, 42930);
    (670, 670, 1, 42928); (837, 837, 1, 921); (881, 883, 2, 880);
    (887, 887, 1, 886); (891, 893, 1, 1021); (940, 940, 1, 902);
    (941, 943, 1, 904); (945, 961, 1, 913); (962, 962, 1, 931);
    (963, 971, 1, 931); (972, 972, 1, 908); (973, 974, 1, 910);
    (976, 976, 1, 914); (977, 977, 1, 920); (981, 981, 1, 934);
    (982, 982, 1, 928); (983, 983, 1, 975); (985, 1007, 2, 984);
    (1008, 1008, 1, 922); (1009, 1009, 1, 929); (1010, 1010, 1, 1017);
    (1011, 1011, 1, 895); (1013, 1013, 1, 917); (1016, 1016, 1, 1015);
    (1019, 1019, 1, 1018); (1072, 1103, 1, 1040); (1104, 1119, 1, 1024);
    (1121, 1153, 2, 1120); (1163, 1215, 2, 1162); (1218, 1230, 2, 1217);
    (1231, 1231, 1, 1216); (1233, 1327, 2, 1232); (1377, 1414, 1, 1329);
    (4304, 4346, 1, 7312); (4349, 4351, 1, 7357); (5112, 5117, 1, 5104);
    (7296, 7296, 1, 1042); (7297, 7297, 1, 1044); (7298, 7298, 1, 1054);
    (7299, 7300, 1, 1057); (7301, 7301, 1, 1058); (7302, 7302, 1, 1066);
    (7303, 7303, 1, 1122); (7304, 7304, 1, 42570); (7545, 7545, 1, 42877);
    (7549, 7549, 1, 11363); (7566, 7566, 1, 42950); (7681, 7829, 2, 7680);
    (7835, 7835, 1, 7776); (7841, 7935, 2, 7840); (7936, 7943, 1, 7944);
    (7952, 7957, 1, 7960); (7968, 7975, 1, 7976); (7984, 7991, 1, 7992);
    (8000, 8005, 1, 8008); (8017, 8023, 2, 8025); (8032, 8039, 1, 8040);
    (8048, 8049, 1, 8122); (8050, 8053, 1, 8136); (8054, 8055, 1, 8154);
    (8056, 8057, 1, 8184); (8058, 8059, 1, 8170); (8060, 8061, 1, 8186);
    (8112, 8113, 1, 8120); (8126, 8126, 1, 921); (8144, 8145, 1, 8152);
    (8160, 8161, 1, 8168); (8165, 8165, 1, 8172); (8526, 8526, 1, 8498);
    (8560, 8575, 1, 8544); (8580, 8580, 1, 8579); (9424, 9449, 1, 9398);
    (11312, 11359, 1, 11264); (11361, 11361, 1, 11360);
    (11365, 11365, 1, 570); (11366, 11366, 1, 574); (11368, 11372, 2, 11367);
    (11379, 11379, 1, 11378); (11382, 11382, 1, 11381);
    (11393, 11491, 2, 11392); (11500, 11502, 2, 11499);
    (11507, 11507, 1, 11506); (11520, 11557, 1, 4256);
    (11559, 11559, 1, 4295); (11565, 11565, 1, 4301);
    (42561, 42605, 2, 42560); (42625, 42651, 2, 42624);
    (42787, 42799, 2, 42786); (42803, 42863, 2, 42802);
    (42874, 42876, 2, 42873); (42879, 42887, 2, 42878);
    (42892, 42892, 1, 42891); (42897, 42899, 2, 42896);
    (42900, 42900, 1, 42948); (42903, 42921, 2, 42902);
    (42933, 42947, 2, 42932); (42952, 42954, 2, 42951);
    (42961, 42961, 1, 42960); (42967, 42969, 2, 42966);
    (42998, 42998, 1, 42997); (43859, 43859, 1, 42931);
    (43888, 43967, 1, 5024); (65345, 65370, 1, 65313);
    (66600, 66639, 1, 66560); (66776, 66811, 1, 66736);
    (66967, 66977, 1, 66928); (66979, 66993, 1, 66940);
    (66995, 67001, 1, 66956); (67003, 67004, 1, 66964);
    (68800, 68850, 1, 68736); (71872, 71903, 1, 71840);
    (93792, 93823, 1, 93760); (125218, 125251, 1, 125184)
  ]%N.

(** The uppercase mappings of more than one character. *)
Definition upper_special : list (N * list N) :=
  [
    (223, [83; 83]); (329, [700; 78]); (496, [74; 780]);
    (912, [921; 776; 769]); (944, [933; 776; 769]); (1415, [1333; 1362]);
    (7830, [72; 817]); (7831, [84; 776]); (7832, [87; 778]);
    (7833, [89; 778]); (7834, [65; 702]); (8016, [933; 787]);
    (8018, [933; 787; 768]); (8020, [933; 787; 769]); (8022, [933; 787; 834]);
    (8064, [7944; 921]); (8065, [7945; 921]); (8066, [7946; 921]);
    (8067, [7947; 921]); (8068, [7948; 921]); (8069, [7949; 921]);
    (8070, [7950; 921]); (8071, [7951; 921]); (8072, [7944; 921]);
    (8073, [7945; 921]); (8074, [7946; 921]); (8075, [7947; 921]);
    (8076, [7948; 921]); (8077, [7949; 921]); (8078, [7950; 921]);
    (8079, [7951; 921]); (8080, [7976; 921]); (8081, [7977; 921]);
    (8082, [7978; 921]); (8083, [7979; 921]); (8084, [7980; 921]);
    (8085, [7981; 921]); (8086, [7982; 921]); (8087, [7983; 921]);
    (8088, [7976; 921]); (8089, [7977; 921]); (8090, [7978; 921]);
    (8091, [7979; 921]); (8092, [7980; 921]); (8093, [7981; 921]);
    (8094, [7982; 921]); (8095, [7983; 921]); (8096, [8040; 921]);
    (8097, [8041; 921]); (8098, [8042; 921]); (8099, [8043; 921]);
    (8100, [8044; 921]); (8101, [8045; 921]); (8102, [8046; 921]);
    (8103, [8047; 921]); (8104, [8040; 921]); (8105, [8041; 921]);
    (8106, [8042; 921]); (8107, [8043; 921]); (8108, [8044; 921]);
    (8109, [8045; 921]); (8110, [8046; 921]); (8111, [8047; 921]);
    (8114, [8122; 921]); (8115, [913; 921]); (8116, [902; 921]);
    (8118, [913; 834]); (8119, [913; 834; 921]); (8124, [913; 921]);
    (8130, [8138; 921]); (8131, [919; 921]); (8132, [905; 921]);
    (8134, [919; 834]); (8135, [919; 834; 921]); (8140, [919; 921]);
    (8146, [921; 776; 768]); (8147, [921; 776; 769]); (8150, [921; 834]);
    (8151, [921; 776; 834]); (8162, [933; 776; 768]); (8163, [933; 776; 769]);
    (8164, [929; 787]); (8166, [933; 834]); (8167, [933; 776; 834]);
    (8178, [8186; 921]); (8179, [937; 921]); (8180, [911; 921]);
    (8182, [937; 834]); (8183, [937; 834; 921]); (8188, [937; 921]);
    (64256, [70; 70]); (64257, [70; 73]); (64258, [70; 76]);
    (64259, [70; 70; 73]); (64260, [70; 70; 76]); (64261, [83; 84]);
    (64262, [83; 84]); (64275, [1348; 1350]); (64276, [1348; 1333]);
    (64277, [1348; 1339]); (64278, [1358; 1350]); (64279, [1348; 1341])
  ]%N.

(** Membership in ranges in increasing order. *)
Fixpoint in_ranges (c : N) (l : list (N * N)) : bool :=
  match l with
  | [] => false
  | (lo, hi) :: l' =>
      if N.ltb c lo then false
      else if N.leb c hi then true
      else in_ranges c l'
  end.

(** The image of [c] in runs in increasing order. *)
Fixpoint mapped (c : N) (l : list (N * N * N * N)) : option N :=
  match l with
  | [] => None
  | (lo, hi, step, to) :: l' =>
      if N.ltb c lo then None
      else if (N.leb c hi && N.eqb ((c - lo) mod step) 0)%bool
      then Some (to + (c - lo))%N
      else mapped c l'
  end.

Fixpoint special (c : N) (l : list (N * list N)) : option (list N) :=
  match l with
  | [] => None
  | (k, v) :: l' => if N.eqb k c then Some v else special c l'
  end.

(** The full case mappings of one character. *)
Definition to_lower_full (c : N) : list N :=
  match special c lower_special with
  | Some v => v
  | None => match mapped c lower_runs with Some x => [x] | None => [c] end
  end.

Definition to_upper_full (c : N) : list N :=
  match special c upper_special with
  | Some v => v
  | None => match mapped c upper_runs with Some x => [x] | None => [c] end
  end.

Definition is_word (c : N) : bool := in_ranges c word_ranges.
Definition is_decimal (c : N) : bool := in_ranges c decimal_ranges.
Definition is_cased (c : N) : bool := in_ranges c cased_ranges.
Definition is_case_ignorable (c : N) : bool :=
  in_ranges c case_ignorable_ranges.

End Unicode.

(** ** Python strings *)

Module Py.

Definition char := N.
Definition str := list char.

(** An ASCII literal as a Python string. *)
Definition lit (s : string) : str := map N_of_ascii (list_ascii_of_string s).

Definition between (lo hi c : N) : bool := (N.leb lo c && N.leb c hi)%bool.

Fixpoint eqb (a b : str) : bool :=
  match a, b with
  | [], [] => true
  | x :: a', y :: b' => (N.eqb x y && eqb a' b')%bool
  | _, _ => false
  end.

(** [bool(s)] *)
Definition truthy (s : str) : bool :=
  match s with [] => false | _ => true end.

(** [str.isspace] on one character; also [\s]. *)
Definition is_space (c : char) : bool :=
  (between 9 13 c || between 28 32 c || N.eqb c 133 || N.eqb c 160
   || N.eqb c 5760 || between 8192 8202 c || between 8232 8233 c
   || N.eqb c 8239 || N.eqb c 8287 || N.eqb c 12288)%bool.

(** Past the case-ignorable characters at the head of [s]. *)
Fixpoint skip_ignorable (s : str) : str :=
  match s with
  | c :: s' => if Unicode.is_case_ignorable c then skip_ignorable s' else s
  | [] => []
  end.

(** The first character of [s] that is not case-ignorable is cased. *)
Definition cased_next (s : str) : bool :=
  match skip_ignorable s with
  | c :: _ => Unicode.is_cased c
  | [] => false
  end.

(** A capital sigma is in final position when a cased letter comes
    before it and none after it, case-ignorable characters apart;
    [before] is the text before it, from right to left. *)
Definition final_sigma (before after : str) : bool :=
  (cased_next before && negb (cased_next after))%bool.

Definition SIGMA : char := 931%N.

Fixpoint lower_from (before s : str) : str :=
  match s with
  | [] => []
  | c :: s' =>
      (if N.eqb c SIGMA
       then [if final_sigma before s' then 962%N else 963%N]
       else Unicode.to_lower_full c)
      ++ lower_from (c :: before) s'
  end.

(** [s.lower()] *)
Definition lower (s : str) : str := lower_from [] s.

(** [s.upper()] *)
Definition upper (s : str) : str := flat_map Unicode.to_upper_full s.

Fixpoint lstrip (s : str) : str :=
  match s with
  | c :: s' => if is_space c then lstrip s' else s
  | [] => []
  end.

Definition rstrip (s : str) : str := rev (lstrip (rev s)).

(** [s.strip()] *)
Definition strip (s : str) : str := rstrip (lstrip s).

Fixpoint lstrip_char (x : char) (s : str) : str :=
  match s with
  | c :: s' => if N.eqb c x then lstrip_char x s' else s
  | [] => []
  end.

(** [s.rstrip(x)] for a one-character [x] *)
Definition rstrip_char (x : char) (s : str) : str :=
  rev (lstrip_char x (rev s)).

(** [s.startswith(p)] *)
Fixpoint startswith (s p : str) {struct p} : bool :=
  match p, s with
  | [], _ => true
  | x :: p', c :: s' => (N.eqb x c && startswith s' p')%bool
  | _ :: _, [] => false
  end.

(** [s.endswith(p)] *)
Definition endswith (s p : str) : bool := startswith (rev s) (rev p).

(** [p in s] *)
Fixpoint contains (s p : str) : bool :=
  (startswith s p ||
   match s with
   | [] => false
   | _ :: s' => contains s' p
   end)%bool.

(** [s.split(sep)[0]] for a non-empty [sep]: the part of [s] before the
    leftmost occurrence of [sep], all of [s] when there is none. *)
Fixpoint split_head (sep s : str) : str :=
  match s with
  | [] => []
  | c :: s' => if startswith s sep then [] else c :: split_head sep s'
  end.

(** [s[:n]] for [n >= 0] *)
Definition slice_to (n : nat) (s : str) : str := firstn n s.

End Py.

Arguments Py.lit : simpl never.
Arguments Py.slice_to : simpl never.

Abbreviation str := Py.str.
Notation "'py' s" := (Py.lit s) (at level 9, s at level 0, only parsing).

(** ** Regular expressions

    The two patterns of the program are sequences of quantified character
    classes and word boundaries.  [Chars cls lo hi] is the class [cls]
    repeated greedily between [lo] and [hi] times ([None]: unbounded). *)

Module Re.

Import Py.

Inductive item :=
| Chars (cls : char -> bool) (lo : nat) (hi : option nat)
| WordBoundary.

Definition pattern := list item.

(** [\w], for a pattern that is a [str] *)
Definition is_word (c : char) : bool := Unicode.is_word c.

Definition word_before (prev : option char) : bool :=
  match prev with Some c => is_word c | None => false end.

Definition word_after (s : str) : bool :=
  match s with c :: _ => is_word c | [] => false end.

(** [\b] holds between [prev] and the head of [s]. *)
Definition at_boundary (prev : option char) (s : str) : bool :=
  xorb (word_before prev) (word_after s).

Definition may_take (hi : option nat) (n : nat) : bool :=
  match hi with Some h => Nat.ltb n h | None => true end.

(** One quantified class, [n] characters taken so far: take one more
    when allowed, and give characters back one at a time until the rest
    of the pattern ([k]) matches. *)
Fixpoint rep (cls : char -> bool) (lo : nat) (hi : option nat)
    (k : option char -> str -> option (str * str))
    (n : nat) (prev : option char) (s : str) : option (str * str) :=
  let stop := if Nat.leb lo n then k prev s else None in
  match s with
  | c :: s' =>
      if (cls c && may_take hi n)%bool then
        match rep cls lo hi k (S n) (Some c) s' with
        | Some (m, r) => Some (c :: m, r)
        | None => stop
        end
      else stop
  | [] => stop
  end.

(** The match of [p] that starts at the head of [s], with [prev] the
    character before it: [Some (matched, rest)]. *)
Fixpoint match_here (p : pattern) (prev : option char) (s : str)
    : option (str * str) :=
  match p with
  | [] => Some ([], s)
  | WordBoundary :: p' =>
      if at_boundary prev s then match_here p' prev s else None
  | Chars cls lo hi :: p' => rep cls lo hi (match_here p') 0 prev s
  end.

(** [pattern.match(s)]: a match at the start of [s]. *)
Definition match_ (p : pattern) (s : str) : option str :=
  match match_here p None s with
  | Some (m, _) => Some m
  | None => None
  end.

(** The leftmost match: [Some (skipped, matched, rest)]. *)
Fixpoint search_from (p : pattern) (prev : option char) (s : str)
    : option (str * str * str) :=
  match match_here p prev s with
  | Some (m, r) => Some ([], m, r)
  | None =>
      match s with
      | [] => None
      | c :: s' =>
          match search_from p (Some c) s' with
          | Some (skip, m, r) => Some (c :: skip, m, r)
          | None => None
          end
      end
  end.

Definition last_char (prev : option char) (w : str) : option char :=
  match rev w with c :: _ => Some c | [] => prev end.

(** [pattern.findall(s)] for a pattern without groups, from left to
    right, the matches not overlapping. *)
Fixpoint findall_from (fuel : nat) (p : pattern) (prev : option char)
    (s : str) : list str :=
  match fuel with
  | O => []
  | S fuel' =>
      match search_from p prev s with
      | None => []
      | Some (skip, m, r) =>
          m ::
          match m, r with
          | [], [] => []
          | [], c :: r' => findall_from fuel' p (Some c) r'
          | _ :: _, _ =>
              findall_from fuel' p (last_char prev (skip ++ m)) r
          end
      end
  end.

Definition findall (p : pattern) (s : str) : list str :=
  findall_from (S (length s)) p None s.

(** What it means for [p] to match: [matches p prev s m r] when [s] is
    [m ++ r] and [m] is cut into consecutive pieces, one for each item. *)
Inductive matches : pattern -> option char -> str -> str -> str -> Prop :=
| matches_nil prev s : matches [] prev s [] s
| matches_boundary p prev s m r :
    at_boundary prev s = true ->
    matches p prev s m r ->
    matches (WordBoundary :: p) prev s m r
| matches_chars cls lo hi p prev w s m r :
    forallb cls w = true ->
    lo <= length w ->
    (forall h, hi = Some h -> length w <= h) ->
    matches p (last_char prev w) s m r ->
    matches (Chars cls lo hi :: p) prev (w ++ s) (w ++ m) r.

(** The match that the engine gives among those that start at the same
    place: each quantified class is greedy and gives back what it must,
    so that the piece of each item is the longest with which the rest of
    the pattern still matches. *)
Inductive best : pattern -> option char -> str -> str -> str -> Prop :=
| best_nil prev s : best [] prev s [] s
| best_boundary p prev s m r :
    at_boundary prev s = true ->
    best p prev s m r ->
    best (WordBoundary :: p) prev s m r
| best_chars cls lo hi p prev w s m r :
    forallb cls w = true ->
    lo <= length w ->
    (forall h, hi = Some h -> length w <= h) ->
    best p (last_char prev w) s m r ->
    (forall w' s' m' r',
       w' ++ s' = w ++ s -> length w < length w' ->
       forallb cls w' = true ->
       (forall h, hi = Some h -> length w' <= h) ->
       ~ matches p (last_char prev w') s' m' r') ->
    best (Chars cls lo hi :: p) prev (w ++ s) (w ++ m) r.

(** [o] is the leftmost match of [p] in [text], the one the engine gives
    there, or [None] when [p] matches nowhere in [text]. *)
Definition leftmost (p : pattern) (text : str) (o : option str) : Prop :=
  match o with
  | Some m =>
      exists skip r,
        text = skip ++ m ++ r /\
        best p (last_char None skip) (m ++ r) m r /\
        forall a b m' r',
          skip = a ++ b -> b <> [] ->
          ~ matches p (last_char None a) (b ++ m ++ r) m' r'
  | None =>
      forall a b m' r',
        text = a ++ b -> ~ matches p (last_char None a) b m' r'
  end.

Definition is_char (x : string) (c : char) : bool :=
  existsb (N.eqb c) (lit x).

(** [\d], for a pattern that is a [str] *)
Definition digit (c : char) : bool := Unicode.is_decimal c.

(** [0-9], [A-Za-z] and [A-Za-z0-9] in a class *)
Definition digit09 (c : char) : bool := between 48 57 c.
Definition alpha (c : char) : bool := (between 65 90 c || between 97 122 c)%bool.
Definition alnum (c : char) : bool := (alpha c || digit09 c)%bool.

Definition one (cls : char -> bool) := Chars cls 1 (Some 1).
Definition opt (cls : char -> bool) := Chars cls 0 (Some 1).
Definition plus (cls : char -> bool) := Chars cls 1 None.
Definition exactly (n : nat) (cls : char -> bool) := Chars cls n (Some n).
Definition at_least (n : nat) (cls : char -> bool) := Chars cls n None.

End Re.

(** [\b[A-Za-z0-9._%+-]+@[A-Za-z0-9.-]+\.[A-Za-z]{2,}\b] *)
Definition EMAIL_RE : Re.pattern :=
  [ Re.WordBoundary;
    Re.plus (fun c => Re.alnum c || Re.is_char "._%+-" c)%bool;
    Re.one (Re.is_char "@");
    Re.plus (fun c => Re.alnum c || Re.is_char ".-" c)%bool;
    Re.one (Re.is_char ".");
    Re.at_least 2 Re.alpha;
    Re.WordBoundary ].

(** [\+?1?[\s\-\.\(]?\d{3}[\)\s\-\.\)]?\s?\d{3}\s?[\-\.\s]?\d{4}] *)
Definition PHONE_RE : Re.pattern :=
  [ Re.opt (Re.is_char "+");
    Re.opt (Re.is_char "1");
    Re.opt (fun c => Py.is_space c || Re.is_char "-.(" c)%bool;
    Re.exactly 3 Re.digit;
    Re.opt (fun c => Re.is_char ")" c || Py.is_space c || Re.is_char "-.)" c)%bool;
    Re.opt Py.is_space;
    Re.exactly 3 Re.digit;
    Re.opt Py.is_space;
    Re.opt (fun c => Re.is_char "-." c || Py.is_space c)%bool;
    Re.exactly 4 Re.digit ].

Definition SOCIAL_DOMAINS : list str :=
  [ py "facebook.com"; py "instagram.com"; py "linkedin.com";
    py "twitter.com"; py "x.com"; py "youtube.com"; py "yelp.com";
    py "angieslist.com"; py "houzz.com"; py "pinterest.com";
    py "tiktok.com" ].

(** ** Measures of a pattern *)

(** The least and the greatest length of a match. *)
Fixpoint min_length (p : Re.pattern) : nat :=
  match p with
  | [] => 0
  | Re.Chars _ lo _ :: p' => lo + min_length p'
  | Re.WordBoundary :: p' => min_length p'
  end.

Fixpoint max_length (p : Re.pattern) : option nat :=
  match p with
  | [] => Some 0
  | Re.Chars _ _ hi :: p' =>
      match hi, max_length p' with
      | Some h, Some n => Some (h + n)
      | _, _ => None
      end
  | Re.WordBoundary :: p' => max_length p'
  end.

(** A character that some class of the pattern takes. *)
Definition taken_by (p : Re.pattern) (c : Py.char) : bool :=
  existsb
    (fun i => match i with Re.Chars cls _ _ => cls c | Re.WordBoundary => false end)
    p.

(** ** Exceptions *)

Inductive exn (A : Type) : Type :=
| Ok (a : A)
| Raise.

Arguments Ok {A} a.
Arguments Raise {A}.

Definition bind {A B : Type} (c : exn A) (k : A -> exn B) : exn B :=
  match c with
  | Ok a => k a
  | Raise => Raise
  end.

(** [try: c  except Exception: h] *)
Definition catch {A : Type} (c : exn A) (h : A) : A :=
  match c with
  | Ok a => a
  | Raise => h
  end.

Notation "x <- c ;; k" := (bind c (fun x => k))
  (at level 61, c at next level, right associativity).

Definition is_some {A : Type} (o : option A) : bool :=
  match o with Some _ => true | None => false end.

(** [o or ''] *)
Definition or_empty (o : option str) : str :=
  match o with Some s => s | None => [] end.

(** [bool(o)] for [o] a string or [None] *)
Definition truthy_opt (o : option str) : bool :=
  match o with Some s => Py.truthy s | None => false end.

(** [x in l] for a set or list of strings *)
Definition str_in (x : str) (l : list str) : bool := existsb (Py.eqb x) l.

(** ** The lead store

    [st.session_state.leads]: a data frame with the columns Company,
    Email, Website, Phone and Source, whose index is [0 .. len-1]. *)

Record Lead := {
  Company : str;
  Email : str;
  Website : str;
  Phone : str;
  Source : str
}.

Definition store := list Lead.

(** [set(df["Email"].str.lower())] *)
Definition lowers (df : store) : list str :=
  map (fun l => Py.lower (Email l)) df.

Definition upsert_lead (name email : option str) (website : str)
    (phone : option str) (source : str) (leads : store) : store :=
  if negb (truthy_opt email) then leads
  else
    let e := or_empty email in
    if str_in (Py.lower e) (lowers leads) then leads
    else leads ++ [ {| Company := or_empty name; Email := Py.strip e;
                       Website := website; Phone := or_empty phone;
                       Source := source |} ].

(** ** CSV import

    A field of a row of [pd.read_csv]: a string, NaN for an empty field,
    or a number or boolean of a column that was read as such, given by
    its truth value and its [str()]. *)

Inductive cell :=
| CStr (s : str)
| CNaN
| CNum (nonzero : bool) (repr : str).

Definition cell_truthy (c : cell) : bool :=
  match c with
  | CStr s => Py.truthy s
  | CNaN => true
  | CNum nz _ => nz
  end.

Definition cell_str (c : cell) : str :=
  match c with
  | CStr s => s
  | CNaN => py "nan"
  | CNum _ r => r
  end.

(** A row of the frame after the headers were renamed: labels and
    fields.  Two headers may have been renamed to the same label. *)
Definition row := list (str * cell).

Inductive lookup :=
| Missing
| One (c : cell)
| Many.

(** [row.get(k, '')]: the field, the default when no label is [k], a
    Series when several are. *)
Fixpoint row_get (r : row) (k : str) : lookup :=
  match r with
  | [] => Missing
  | (l, c) :: r' =>
      if Py.eqb l k then
        match row_get r' k with
        | Missing => One c
        | _ => Many
        end
      else row_get r' k
  end.

(** [str(row.get(k, '') or '')]; the truth value of a Series of several
    fields raises ValueError. *)
Definition field (r : row) (k : str) : exn str :=
  match row_get r k with
  | Missing => Ok []
  | One c => Ok (if cell_truthy c then cell_str c else [])
  | Many => Raise
  end.

Definition valid_email (email : str) : bool :=
  (Py.truthy email && is_some (Re.match_ EMAIL_RE email))%bool.

(** The loop over [new.iterrows()]; rows inserted before an exception
    stay in the store. *)
Fixpoint import_rows (rows : list row) (existing : list str)
    (leads : store) (imported : Z) : store * exn Z :=
  match rows with
  | [] => (leads, Ok imported)
  | r :: rest =>
      match field r (py "Email") with
      | Raise => (leads, Raise)
      | Ok e =>
          let email := Py.strip e in
          if negb (valid_email email) then
            import_rows rest existing leads imported
          else if str_in (Py.lower email) existing then
            import_rows rest existing leads imported
          else
            match
              (c <- field r (py "Company") ;;
               w <- field r (py "Website") ;;
               p <- field r (py "Phone") ;;
               Ok {| Company := Py.slice_to 120 c; Email := email;
                     Website := w; Phone := p; Source := py "import" |})
            with
            | Raise => (leads, Raise)
            | Ok l =>
                import_rows rest (Py.lower email :: existing)
                  (leads ++ [l]) (imported + 1)
            end
      end
  end.

Inductive import_report :=
| Imported (n : Z)
| ImportFailed.

(** The upload handler; [new] is [pd.read_csv(up)] with its headers
    renamed, [Raise] when the file cannot be read. *)
Definition import_leads (new : exn (list row)) (leads : store)
    : store * import_report :=
  match new with
  | Raise => (leads, ImportFailed)
  | Ok rows =>
      match import_rows rows (lowers leads) leads 0 with
      | (leads', Ok n) => (leads', Imported n)
      | (leads', Raise) => (leads', ImportFailed)
      end
  end.

(** ** Histories of the lead store

    The store starts empty and changes only by [upsert_lead] and by
    imports. *)

Inductive op :=
| Upsert (name email : option str) (website : str) (phone : option str)
    (source : str)
| Import (new : exn (list row)).

Definition run_op (leads : store) (o : op) : store :=
  match o with
  | Upsert name email website phone source =>
      upsert_lead name email website phone source leads
  | Import new => fst (import_leads new leads)
  end.

Definition run (ops : list op) (leads : store) : store :=
  fold_left run_op ops leads.

(** An email without white space around it, as every match of
    [EMAIL_RE] is. *)
Definition trimmed (email : str) : Prop := Py.strip email = email.

Definition trimmed_op (o : op) : Prop :=
  match o with
  | Upsert _ email _ _ _ => trimmed (or_empty email)
  | Import _ => True
  end.

(** No two rows have the same email up to letter case. *)
Definition unique_emails (leads : store) : Prop := NoDup (lowers leads).

(** The rows of an email, in any letter case. *)
Definition rows_for (email : str) (leads : store) : list Lead :=
  filter (fun l => Py.eqb (Py.lower (Email l)) (Py.lower email)) leads.

(** [l] is what the import makes of the row [r]. *)
Definition imported_from (r : row) (l : Lead) : Prop :=
  exists e c w p,
    field r (py "Email") = Ok e /\ field r (py "Company") = Ok c /\
    field r (py "Website") = Ok w /\ field r (py "Phone") = Ok p /\
    valid_email (Py.strip e) = true /\
    l = {| Company := Py.slice_to 120 c; Email := Py.strip e;
           Website := w; Phone := p; Source := py "import" |}.

(** ** Export

    [df.to_csv(index=False)] and [pd.read_csv] are not modelled.
    [exported_frame leads rows] says of the rows read back what the
    round trip needs of the two: one row for each lead, in order, under
    the five headers, and in it the email of the lead as the string it
    was.  They do so for emails without quotes, commas and line breaks;
    it is a hypothesis wherever it is used.  (The other fields come back
    as strings, as NaN when empty, or as numbers.) *)




(** ** Parsed pages

    What the program asks of [BeautifulSoup(html, "html.parser")]:
    [soup.title] and its [.string], [soup.get_text(" ", strip=True)],
    and [get_text(strip=True)] of [soup.find("h1")]. *)

Record Soup := {
  title : option (option str);
  get_text : str;
  h1 : option str
}.

Definition EN_DASH : Py.char := 8211%N.

(** The separators [" | "] and [" – "] *)
Definition BAR : str := py " | ".
Definition DASH : str := py " " ++ [EN_DASH] ++ py " ".

Definition company_of (soup : Soup) : option str :=
  let company :=
    match title soup with
    | Some (Some t) =>
        if Py.truthy t then
          Some (Py.slice_to 120
                  (Py.strip (Py.split_head DASH (Py.split_head BAR t))))
        else None
    | _ => None
    end in
  if truthy_opt company then company
  else
    match h1 soup with
    | Some h => if Py.truthy h then Some (Py.slice_to 120 h) else company
    | None => company
    end.

Definition first_match (l : list str) : option str :=
  match l with
  | m :: _ => Some m
  | [] => None
  end.

(** The part of [extract_company_info] after the page was fetched. *)
Definition extract_from (soup : Soup) : option str * option str * option str :=
  let text := get_text soup in
  let emails := Re.findall EMAIL_RE text in
  let phones := Re.findall PHONE_RE text in
  (company_of soup, first_match emails, first_match phones).

Definition try_candidate_pages (base_url : str) : list str :=
  let root := Py.rstrip_char 47%N base_url in
  [ base_url; root ++ py "/contact"; root ++ py "/contact-us";
    root ++ py "/about"; root ++ py "/team" ].

(** ** The site filter in the words of its contract *)

Definition occurs_in (s location : str) : Prop :=
  exists l r, location = l ++ s ++ r.

Definition ends_in (suffix location : str) : Prop :=
  exists l, location = l ++ suffix.

Definition eligible (location : str) : Prop :=
  location <> [] /\
  (forall s, In s SOCIAL_DOMAINS -> ~ occurs_in s location) /\
  (ends_in (py ".com") location \/ ends_in (py ".net") location
   \/ ends_in (py ".org") location).

(** ** The company name in the words of its contract *)






(** The page of the example: its title, and its text with an email and
    a phone number. *)
Definition acme_page : Soup :=
  {| title := Some (Some (py "Acme Co | Flooring"));
     get_text :=
       py "Acme Co | Flooring Write to contact@acme.com or call (305) 123-4567 today";
     h1 := None |}.

(** ** JSON values, as [r.json()] returns them *)

#[local] Unset Elimination Schemes.

Inductive json :=
| JNull
| JBool (b : bool)
| JNum (q : Q)
| JStr (s : str)
| JList (l : list json)
| JDict (kv : list (str * json)).

#[local] Set Elimination Schemes.

Definition json_truthy (v : json) : bool :=
  match v with
  | JNull => false
  | JBool b => b
  | JNum q => negb (Z.eqb (Qnum q) 0)
  | JStr s => Py.truthy s
  | JList l => match l with [] => false | _ => true end
  | JDict kv => match kv with [] => false | _ => true end
  end.

Fixpoint assoc {A : Type} (k : str) (kv : list (str * A)) : option A :=
  match kv with
  | [] => None
  | (k', v) :: kv' => if Py.eqb k' k then Some v else assoc k kv'
  end.

(** [v.get(k)]: AttributeError unless [v] is a dict. *)
Definition json_get (v : json) (k : str) : exn json :=
  match v with
  | JDict kv => Ok (match assoc k kv with Some x => x | None => JNull end)
  | _ => Raise
  end.

(** [v.get(k, [])] *)
Definition json_get_list (v : json) (k : str) : exn json :=
  match v with
  | JDict kv => Ok (match assoc k kv with Some x => x | None => JList [] end)
  | _ => Raise
  end.

(** [k in v]: a key of a dict, an element of a list, a substring of a
    string; TypeError otherwise. *)
Definition json_contains (v : json) (k : str) : exn bool :=
  match v with
  | JDict kv => Ok (is_some (assoc k kv))
  | JList l =>
      Ok (existsb (fun x => match x with JStr s => Py.eqb s k | _ => false end) l)
  | JStr s => Ok (Py.contains s k)
  | _ => Raise
  end.

(** [v[k]] for a string [k]: KeyError, or TypeError unless [v] is a dict. *)
Definition json_index (v : json) (k : str) : exn json :=
  match v with
  | JDict kv => match assoc k kv with Some x => Ok x | None => Raise end
  | _ => Raise
  end.

(** [for x in v]: the elements of a list, the keys of a dict, the
    characters of a string; TypeError otherwise. *)
Definition json_iter (v : json) : exn (list json) :=
  match v with
  | JList l => Ok l
  | JDict kv => Ok (map (fun p => JStr (fst p)) kv)
  | JStr s => Ok (map (fun c => JStr [c]) s)
  | _ => Raise
  end.

(** [l[:count]] *)
Definition slice_count {A : Type} (count : Z) (l : list A) : list A :=
  if (0 <=? count)%Z then firstn (Z.to_nat count) l
  else firstn (length l - Z.to_nat (- count)) l.

(** ** Requests, messages and events *)

Inductive http_method := GET | POST.

Inductive pval :=
| PStr (s : str)
| PInt (z : Z).

Record request := {
  req_method : http_method;
  req_url : str;
  req_headers : list (str * str);
  req_params : list (str * pval);
  req_timeout : Z
}.

(** What [HTTP.get] or [HTTP.post] comes back with: an exception (time
    out, connection error, too many redirects), or a response. *)
Inductive reply :=
| Failed
| Response (status_code : Z) (text : str).

(** [r.raise_for_status()]: HTTPError for a 4xx or a 5xx status. *)
Definition raise_for_status (status_code : Z) : exn unit :=
  if ((400 <=? status_code) && (status_code <? 600))%Z%bool
  then Raise else Ok tt.

Record smtp_config := {
  SMTP_HOST : str;
  SMTP_PORT : Z;
  SMTP_USER : str;
  SMTP_PASS : str;
  SMTP_STARTTLS : bool
}.

Record message := {
  msg_from : str;
  msg_to : str;
  msg_subject : str;
  msg_plain : str;
  msg_html : str
}.

Inductive event :=
| Requested (r : request)
| Slept (seconds : Q)
| Sent (m : message) (delivered : bool).

(** The world and the trace of what the program did to it. *)
Record state (W : Type) := {
  world : W;
  trace : list event
}.

(** [d[k] = v] on a dict kept in insertion order *)
Fixpoint dict_set {A : Type} (k : str) (v : A) (d : list (str * A))
    : list (str * A) :=
  match d with
  | [] => [(k, v)]
  | (k', v') :: d' =>
      if Py.eqb k' k then (k', v) :: d' else (k', v') :: dict_set k v d'
  end.

(** ** The key argument of the generic SERP call

    [SERRP_KEY if (SERRP_KEY:=SERP_KEY) else ''] is evaluated as Python
    evaluates a conditional expression: the test first, then one of the
    two branches.  Reading an unbound name raises NameError. *)

Inductive expr :=
| Const (v : str)
| Name (x : string)
| Walrus (x : string) (e : expr)
| IfExp (test body orelse : expr).

Definition globals := list (string * str).

Fixpoint load (x : string) (g : globals) : exn str :=
  match g with
  | [] => Raise
  | (y, v) :: g' => if String.eqb y x then Ok v else load x g'
  end.

Fixpoint eval (e : expr) (g : globals) : exn str * globals :=
  match e with
  | Const v => (Ok v, g)
  | Name x => (load x g, g)
  | Walrus x e1 =>
      match eval e1 g with
      | (Ok v, g1) => (Ok v, (x, v) :: g1)
      | (Raise, g1) => (Raise, g1)
      end
  | IfExp test body orelse =>
      match eval test g with
      | (Ok v, g1) => if Py.truthy v then eval body g1 else eval orelse g1
      | (Raise, g1) => (Raise, g1)
      end
  end.

Definition serp_key_expr : expr :=
  IfExp (Walrus "SERRP_KEY" (Name "SERP_KEY")) (Name "SERRP_KEY") (Const []).

(** The value of the [key=] argument when the sidebar has set
    [SERP_KEY]; [SERRP_KEY] is bound nowhere else in the script. *)
Definition serp_key_arg (SERP_KEY : str) : exn str :=
  fst (eval serp_key_expr [("SERP_KEY"%string, SERP_KEY)]).

Definition none_if_empty (s : str) : option str :=
  if Py.truthy s then Some s else None.

(** [rate_delay or 1.0] *)
Definition delay_of (rate_delay : Q) : Q :=
  if Qeq_bool rate_delay 0 then 1%Q else rate_delay.

Definition FROM_EMAIL : str := py "info@miamimasterflooring.com".

Definition render_html (greeting body signature : str) : str :=
  greeting ++ py "<br/>" ++ body ++ signature.

Definition strs_of (l : list json) : list str :=
  flat_map (fun v => match v with JStr u => [u] | _ => [] end) l.

(** [item.get("url") or item.get("link")] *)
Definition item_url (item : json) : exn json :=
  u <- json_get item (py "url") ;;
  if json_truthy u then Ok u else json_get item (py "link").

(** [[v["url"] for v in items if v.get("url")]] *)
Fixpoint value_urls (items : list json) : exn (list json) :=
  match items with
  | [] => Ok []
  | v :: rest =>
      u <- json_get v (py "url") ;;
      if json_truthy u then
        x <- json_index v (py "url") ;;
        xs <- value_urls rest ;;
        Ok (x :: xs)
      else value_urls rest
  end.

Fixpoint results_urls (items : list json) : exn (list json) :=
  match items with
  | [] => Ok []
  | item :: rest =>
      u <- item_url item ;;
      us <- results_urls rest ;;
      Ok (if json_truthy u then u :: us else us)
  end.

Fixpoint list_urls (items : list json) : exn (list json) :=
  match items with
  | [] => Ok []
  | item :: rest =>
      match item with
      | JStr _ => us <- list_urls rest ;; Ok (item :: us)
      | JDict _ =>
          u <- item_url item ;;
          us <- list_urls rest ;;
          Ok (if json_truthy u then u :: us else us)
      | _ => list_urls rest
      end
  end.

(** The three shapes of response the generic adapter reads. *)
Definition serp_urls (data : json) : exn (list json) :=
  match data with
  | JDict kv =>
      nested <-
        (if is_some (assoc (py "webPages") kv) then
           wp <- json_index data (py "webPages") ;;
           json_contains wp (py "value")
         else Ok false) ;;
      if nested : bool then
        wp <- json_index data (py "webPages") ;;
        vs <- json_index wp (py "value") ;;
        items <- json_iter vs ;;
        value_urls items
      else
        match assoc (py "results") kv with
        | Some (JList l) => results_urls l
        | _ => Ok []
        end
  | JList l => list_urls l
  | _ => Ok []
  end.

Definition bing_urls (data : json) : exn (list json) :=
  wp <- json_get data (py "webPages") ;;
  vs <- json_get_list (if json_truthy wp then wp else JDict []) (py "value") ;;
  items <- json_iter vs ;;
  value_urls items.

Record sidebar := {
  provider : str;
  BING_API_KEY : str;
  SERP_BASE_URL : str;
  SERP_KEY : str;
  SERP_METHOD : str;
  SERP_AUTH_HEADER : str;
  SERP_KEY_PARAM : str
}.

Definition QUOTE : Py.char := 34%N.



(** ** The SMTP dialogue of [send_email_smtp]

    What the function asks of [smtplib]: the constructor of [SMTP] or of
    [SMTP_SSL], which connects; the methods of the server object; and
    [__exit__] when the [with] block is left.  Each of them may raise. *)

Inductive smtp_call :=
| SMTP_new (host : str) (port timeout : Z)
| SMTP_SSL_new (host : str) (port timeout : Z)
| Ehlo
| Starttls
| Login (user password : str)
| Send_message (m : message)
| Exit.

(** [if smtp_user or smtp_pass: server.login(smtp_user, smtp_pass)] *)
Definition login_calls (cfg : smtp_config) : list smtp_call :=
  if (Py.truthy (SMTP_USER cfg) || Py.truthy (SMTP_PASS cfg))%bool
  then [Login (SMTP_USER cfg) (SMTP_PASS cfg)] else [].

(** The constructor and the body of the [with] block of each branch. *)
Definition dialogue_new (cfg : smtp_config) : smtp_call :=
  if SMTP_STARTTLS cfg then SMTP_new (SMTP_HOST cfg) (SMTP_PORT cfg) 20
  else SMTP_SSL_new (SMTP_HOST cfg) (SMTP_PORT cfg) 20.

Definition dialogue_body (cfg : smtp_config) (m : message) : list smtp_call :=
  if SMTP_STARTTLS cfg
  then [Ehlo; Starttls; Ehlo] ++ login_calls cfg ++ [Send_message m]
  else login_calls cfg ++ [Send_message m].

Definition is_login (c : smtp_call) : bool :=
  match c with Login _ _ => true | _ => false end.

Definition is_send (c : smtp_call) : bool :=
  match c with Send_message _ => true | _ => false end.

Section Dialogue.

(** The mail server and the library: what a call does and whether it
    raises. *)
Variable S : Type.
Variable server : S -> smtp_call -> S * exn unit.

(** The server and the calls made so far, each with whether it
    returned. *)
Definition session := (S * list (smtp_call * bool))%type.

Definition call (c : smtp_call) (st : session) : session * exn unit :=
  let (s, r) := server (fst st) c in
  ((s, snd st ++ [(c, match r with Ok _ => true | Raise => false end)]), r).

(** Statements one after the other, up to the first that raises. *)
Fixpoint block (cs : list smtp_call) (st : session) : session * exn unit :=
  match cs with
  | [] => (st, Ok tt)
  | c :: rest =>
      match call c st with
      | (st1, Ok _) => block rest st1
      | (st1, Raise) => (st1, Raise)
      end
  end.

(** [with new as server: body]: when the constructor raises nothing
    else happens; otherwise [__exit__] is called after the body, whether
    the body raised or not, and what [__exit__] raises is raised. *)
Definition with_server (new : smtp_call) (body : list smtp_call)
    (st : session) : session * exn unit :=
  match call new st with
  | (st1, Raise) => (st1, Raise)
  | (st1, Ok _) =>
      let (st2, r) := block body st1 in
      match call Exit st2 with
      | (st3, Ok _) => (st3, r)
      | (st3, Raise) => (st3, Raise)
      end
  end.

(** The part of [send_email_smtp] after the message was built. *)
Definition smtp_dialogue (cfg : smtp_config) (m : message) (s : S)
    : session * exn unit :=
  if SMTP_STARTTLS cfg then
    with_server (SMTP_new (SMTP_HOST cfg) (SMTP_PORT cfg) 20)
      ([Ehlo; Starttls; Ehlo] ++ login_calls cfg ++ [Send_message m]) (s, [])
  else
    with_server (SMTP_SSL_new (SMTP_HOST cfg) (SMTP_PORT cfg) 20)
      (login_calls cfg ++ [Send_message m]) (s, []).

(** The dialogue as the mail server of the program below. *)
Definition dialogue_smtp (s : S) (cfg : smtp_config) (m : message)
    : S * exn unit :=
  let (st, r) := smtp_dialogue cfg m s in (fst st, r).

End Dialogue.

(** ** Reading a trace *)

(** The recipients of the sends, in order. *)
Definition recipients (evs : list event) : list str :=
  flat_map (fun e => match e with Sent m _ => [msg_to m] | _ => [] end) evs.

(** The number of sends that went through. *)
Definition delivered (evs : list event) : Z :=
  Z.of_nat
    (length
       (filter (fun e => match e with Sent _ true => true | _ => false end)
          evs)).

(** The request of [HTTP.get(url, timeout=15)]. *)
Definition page_request (url : str) : request :=
  {| req_method := GET; req_url := url; req_headers := [];
     req_params := []; req_timeout := 15 |}.


(** ** A small world for the examples

    A table of pages, pages that are plain text, a mail server that
    refuses some addresses, and enough of [urlparse] for a URL
    [scheme://host/path]. *)

Definition demo_network (pages : list (str * reply)) (w : unit)
    (r : request) : unit * reply :=
  (w, match assoc (req_url r) pages with Some a => a | None => Failed end).

Definition demo_soup (html : str) : exn Soup :=
  Ok {| title := None; get_text := html; h1 := None |}.

Definition demo_smtp (refused : list str) (w : unit) (cfg : smtp_config)
    (m : message) : unit * exn unit :=
  (w, if str_in (msg_to m) refused then Raise else Ok tt).

Definition demo_clock (w : unit) (seconds : Q) : unit := w.

Fixpoint after_scheme (u : str) : str :=
  match u with
  | [] => []
  | c :: u' =>
      if Py.startswith u (py "://") then skipn 3 u else after_scheme u'
  end.

Definition demo_netloc (u : str) : exn str :=
  Ok (Py.split_head (py "/") (after_scheme u)).

Definition demo_json (table : list (str * json)) (text : str) : exn json :=
  match assoc text table with Some v => Ok v | None => Raise end.

Definition demo_config : smtp_config :=
  {| SMTP_HOST := py "smtp.example.com"; SMTP_PORT := 587;
     SMTP_USER := py "user"; SMTP_PASS := py "secret";
     SMTP_STARTTLS := true |}.

Definition demo_side : sidebar :=
  {| provider := py "Bing API (recommended)"; BING_API_KEY := py "k";
     SERP_BASE_URL := []; SERP_KEY := []; SERP_METHOD := py "GET";
     SERP_AUTH_HEADER := py "X-API-KEY"; SERP_KEY_PARAM := [] |}.

Definition demo_start : state unit := {| world := tt; trace := [] |}.

(** Two sites that show the same address, in different letter case. *)
Definition two_sites : list (str * reply) :=
  [ (py "https://acme.com", Response 200 (py "Write to info@acme.com"));
    (py "https://acme.net", Response 200 (py "Contact INFO@ACME.COM")) ].


(** A response with a status of the 3xx class whose text is a JSON list
    of one URL. *)
Definition choices_body : str :=
  py "[" ++ [QUOTE] ++ py "https://acme.com" ++ [QUOTE] ++ py "]".

Definition choices_json : list (str * json) :=
  [ (choices_body, JList [JStr (py "https://acme.com")]) ].

Definition choices_endpoint : list (str * reply) :=
  [ (py "https://serp.example.com/search", Response 300 choices_body) ].

(** Five leads. *)
Definition lead_of (email : str) : Lead :=
  {| Company := []; Email := email; Website := []; Phone := [];
     Source := py "bing" |}.


(** A file with a valid row, a row without a valid email, and a row
    that repeats the first email in capitals. *)
Definition three_rows : list row :=
  [ [ (py "Email", CStr (py " bob@site.org ")); (py "Company", CStr (py "Site")) ];
    [ (py "Email", CStr (py "not an email")); (py "Company", CStr (py "None")) ];
    [ (py "Email", CStr (py "BOB@SITE.ORG")); (py "Company", CStr (py "Again")) ] ].

(** What [read_csv] gives for the export of a store of one lead found
    by the scan: the empty company and phone come back as NaN. *)
Definition exported_row (l : Lead) : row :=
  [ (py "Company", CNaN); (py "Email", CStr (Email l));
    (py "Website", CStr (Website l)); (py "Phone", CNaN);
    (py "Source", CStr (Source l)) ].

(** ** The program over the network, the mail server and the clock *)

Section Program.

#[local] Set Default Proof Using "Type".

Variable W : Type.

(** [HTTP.get] and [HTTP.post] *)
Variable network : W -> request -> W * reply.

(** The SMTP dialogue of [send_email_smtp]; [Raise] when it raises. *)
Variable smtp : W -> smtp_config -> message -> W * exn unit.

(** [time.sleep] *)
Variable clock : W -> Q -> W.

(** [urlparse(u).netloc]; [Raise] when [urlparse] raises ValueError. *)
Variable urlparse_netloc : str -> exn str.

(** [BeautifulSoup(html, "html.parser")]; [Raise] when the parser
    raises on the markup. *)
Variable BeautifulSoup : str -> exn Soup.

(** [r.json()] on the text of a response *)
Variable json_loads : str -> exn json.

(** The user agent the session drew *)
Variable user_agent : str.

Variable FROM_NAME : str.

Definition http_send (r : request) (st : state W) : state W * reply :=
  let (w, a) := network (world st) r in
  ({| world := w; trace := trace st ++ [Requested r] |}, a).

Definition sleep (seconds : Q) (st : state W) : state W :=
  {| world := clock (world st) seconds;
     trace := trace st ++ [Slept seconds] |}.

Definition domain_of (u : str) : str :=
  catch (n <- urlparse_netloc u ;; Ok (Py.lower n)) [].

Definition looks_like_business_site (u : str) : bool :=
  let d := domain_of u in
  if negb (Py.truthy d) then false
  else if existsb (fun s => Py.contains d s) SOCIAL_DOMAINS then false
  else (Py.endswith d (py ".com") || Py.endswith d (py ".net")
        || Py.endswith d (py ".org"))%bool.

(** [[u for u in urls if u and looks_like_business_site(u)]]; on a value
    that is not a string [urlparse] raises and [domain_of] is empty. *)
Definition business_sites (urls : list json) : list str :=
  strs_of
    (filter
       (fun v => (json_truthy v &&
                  match v with
                  | JStr u => looks_like_business_site u
                  | _ => false
                  end)%bool)
       urls).

(** What [search_bing_api] does with the reply, inside its [try]. *)
Definition bing_result (count : Z) (r : reply) : list str :=
  catch
    (match r with
     | Failed => Raise
     | Response status_code text =>
         _ <- raise_for_status status_code ;;
         data <- json_loads text ;;
         urls <- bing_urls data ;;
         Ok (slice_count count (business_sites urls))
     end) [].

(** What [search_serp_api] does with the reply, inside its [try]. *)
Definition serp_result (count : Z) (r : reply) : list str :=
  catch
    (match r with
     | Failed => Raise
     | Response status_code text =>
         _ <- raise_for_status status_code ;;
         data <- json_loads text ;;
         urls <- serp_urls data ;;
         Ok (slice_count count (business_sites urls))
     end) [].

(** The failures of a search: no reply, a 4xx or 5xx status, or a text
    that is not JSON. *)
Definition soft_failure (r : reply) : Prop :=
  match r with
  | Failed => True
  | Response status_code text =>
      (400 <= status_code < 600)%Z \/ json_loads text = Raise
  end.

(** The request of [search_bing_api]. *)
Definition bing_request (query key : str) (count : Z) : request :=
  {| req_method := GET;
     req_url := py "https://api.bing.microsoft.com/v7.0/search";
     req_headers := [(py "Ocp-Apim-Subscription-Key", key)];
     req_params := [(py "q", PStr query); (py "mkt", PStr (py "en-US"));
                    (py "count", PInt count)];
     req_timeout := 20 |}.

(** The request of [search_serp_api]: the key in a header, in a
    parameter, or in both. *)
Definition serp_request (query base_url key method : str)
    (auth_header key_param : option str) (count : Z) : request :=
  let headers := [(py "User-Agent", user_agent)] in
  let headers :=
    if truthy_opt auth_header
    then dict_set (or_empty auth_header) key headers else headers in
  let params := [(py "q", PStr query); (py "count", PInt count)] in
  let params :=
    if truthy_opt key_param
    then dict_set (or_empty key_param) (PStr key) params else params in
  {| req_method := if Py.eqb (Py.upper method) (py "POST") then POST else GET;
     req_url := base_url; req_headers := headers;
     req_params := params; req_timeout := 25 |}.

Definition search_bing_api (query key : str) (count : Z) (st : state W)
    : state W * exn (list str) :=
  if negb (Py.truthy key) then (st, Ok [])
  else
    let (st1, r) := http_send (bing_request query key count) st in
    (st1, Ok (bing_result count r)).

Definition search_serp_api (query base_url key method : str)
    (auth_header key_param : option str) (count : Z) (st : state W)
    : state W * exn (list str) :=
  if (negb (Py.truthy base_url) || negb (Py.truthy key))%bool then (st, Ok [])
  else
    let (st1, r) :=
      http_send
        (serp_request query base_url key method auth_header key_param count)
        st in
    (st1, Ok (serp_result count r)).

(** The [try] holds the request only: what the parser raises goes to
    the caller. *)
Definition extract_company_info (url : str) (st : state W)
    : state W * exn (option str * option str * option str) :=
  let (st1, r) :=
    http_send (page_request url) st in
  (st1,
   match
     (match r with
      | Failed => Raise
      | Response status_code html =>
          _ <- raise_for_status status_code ;; Ok html
      end)
   with
   | Raise => Ok (None, None, None)
   | Ok html => soup <- BeautifulSoup html ;; Ok (extract_from soup)
   end).

Definition send_email_smtp (cfg : smtp_config) (to_email subject html : str)
    (st : state W) : state W * exn unit :=
  let m := {| msg_from := FROM_NAME ++ py " <" ++ FROM_EMAIL ++ py ">";
              msg_to := to_email; msg_subject := subject;
              msg_plain := py "This is an HTML email. If you see this, your client is showing the plain-text part.";
              msg_html := html |} in
  let (w, r) := smtp (world st) cfg m in
  ({| world := w;
      trace := trace st ++ [Sent m (match r with Ok _ => true | Raise => false end)] |},
   r).

(** *** Search & Extract *)

Variable side : sidebar.
Variable rate_delay : Q.

Definition source_tag : str :=
  if Py.startswith (provider side) (py "Bing") then py "bing" else py "serp".

(** One turn of [for q in queries]. *)
Definition search_query (q : str) (per_q : Z) (st : state W)
    : state W * exn (list str) :=
  if Py.startswith (provider side) (py "Bing API") then
    search_bing_api q (BING_API_KEY side) per_q st
  else
    match serp_key_arg (SERP_KEY side) with
    | Raise => (st, Raise)
    | Ok key =>
        search_serp_api q (SERP_BASE_URL side) key (SERP_METHOD side)
          (none_if_empty (SERP_AUTH_HEADER side))
          (none_if_empty (SERP_KEY_PARAM side)) per_q st
    end.

Fixpoint search_all (queries : list str) (per_q : Z) (all_urls : list str)
    (st : state W) : state W * exn (list str) :=
  match queries with
  | [] => (st, Ok all_urls)
  | q :: rest =>
      match search_query q per_q st with
      | (st1, Raise) => (st1, Raise)
      | (st1, Ok urls) =>
          search_all rest per_q (all_urls ++ urls)
            (sleep (delay_of rate_delay) st1)
      end
  end.

(** What a turn of [for q in queries] leaves in the trace: the request
    of the adapter, when it makes one, and the sleep. *)
Definition query_events (per_q : Z) (q : str) : list event :=
  (if Py.startswith (provider side) (py "Bing API") then
     if Py.truthy (BING_API_KEY side)
     then [Requested (bing_request q (BING_API_KEY side) per_q)] else []
   else
     if (Py.truthy (SERP_BASE_URL side) && Py.truthy (SERP_KEY side))%bool
     then [Requested
             (serp_request q (SERP_BASE_URL side) (SERP_KEY side)
                (SERP_METHOD side) (none_if_empty (SERP_AUTH_HEADER side))
                (none_if_empty (SERP_KEY_PARAM side)) per_q)]
     else [])
  ++ [Slept (delay_of rate_delay)].

Fixpoint dedupe (all_urls : list str) (by_domain : list (str * str))
    : list (str * str) :=
  match all_urls with
  | [] => by_domain
  | u :: rest =>
      let d := if Py.truthy (domain_of u) then domain_of u else u in
      if is_some (assoc d by_domain) then dedupe rest by_domain
      else dedupe rest (by_domain ++ [(d, u)])
  end.

(** [domain_of(u) or u], the key of a URL in [by_domain] *)
Definition site_key (u : str) : str :=
  if Py.truthy (domain_of u) then domain_of u else u.

(** [for target in try_candidate_pages(base)]: [Ok true] when the loop
    was left by [break], [Raise] when a page raised. *)
Fixpoint probe_pages (targets : list str) (base : str) (st : state W)
    (leads : store) : exn bool * state W * store :=
  match targets with
  | [] => (Ok false, st, leads)
  | target :: rest =>
      match extract_company_info target st with
      | (st1, Raise) => (Raise, st1, leads)
      | (st1, Ok (name, email, phone)) =>
          if truthy_opt email then
            (Ok true, st1, upsert_lead name email base phone source_tag leads)
          else probe_pages rest base (sleep (delay_of rate_delay) st1) leads
      end
  end.

(** [for base in urls]; the rows put in the store before a page raised
    stay in it. *)
Fixpoint scan_sites (urls : list str) (st : state W) (leads : store)
    (added : Z) : state W * store * exn Z :=
  match urls with
  | [] => (st, leads, Ok added)
  | base :: rest =>
      match probe_pages (try_candidate_pages base) base st leads with
      | (Raise, st1, leads1) => (st1, leads1, Raise)
      | (Ok found, st1, leads1) =>
          scan_sites rest st1 leads1 (if found then added + 1 else added)%Z
      end
  end.

(** The state after pages that were probed one after the other, each
    followed by the sleep. *)
Fixpoint probe_all (targets : list str) (st : state W) : state W :=
  match targets with
  | [] => st
  | target :: rest =>
      probe_all rest
        (sleep (delay_of rate_delay) (fst (extract_company_info target st)))
  end.

(** Each of the pages, probed one after the other, is read and yields
    no email. *)
Fixpoint no_email (targets : list str) (st : state W) : Prop :=
  match targets with
  | [] => True
  | target :: rest =>
      (exists name email phone,
         snd (extract_company_info target st) = Ok (name, email, phone) /\
         truthy_opt email = false) /\
      no_email rest
        (sleep (delay_of rate_delay) (fst (extract_company_info target st)))
  end.


(** *** The campaign *)

(** [for e in emails] of the handler of [Send campaign now]. *)
Fixpoint campaign_loop (cfg : smtp_config) (subject html : str)
    (daily_cap : Z) (emails : list str) (sent : Z) (st : state W)
    : state W * Z :=
  match emails with
  | [] => (st, sent)
  | e :: rest =>
      if (sent >=? daily_cap)%Z then (st, sent)
      else
        match send_email_smtp cfg e subject html st with
        | (st1, Ok _) =>
            campaign_loop cfg subject html daily_cap rest (sent + 1)
              (sleep (3 # 10) st1)
        | (st1, Raise) =>
            campaign_loop cfg subject html daily_cap rest sent st1
        end
  end.

(** The number of the message [Sent N emails]. *)
Definition send_campaign (cfg : smtp_config) (subject greeting body signature : str)
    (daily_cap : Z) (leads : store) (st : state W) : state W * Z :=
  campaign_loop cfg subject (render_html greeting body signature) daily_cap
    (map Email leads) 0 st.

(** A row that the scan of [base] puts in the store. *)
Definition scanned_row (base : str) (l : Lead) : Prop :=
  Website l = base /\ Source l = source_tag /\ trimmed (Email l) /\
  6 <= length (Email l).



(** * Proofs *)

(** ** Strings *)

Lemma eqb_eq (a b : str) : Py.eqb a b = true <-> a = b.
Proof.
  revert b; induction a as [|x a IH]; intros [|y b]; simpl; split;
    try discriminate; try reflexivity.
  - intros H. apply andb_true_iff in H as [H1 H2].
    apply N.eqb_eq in H1. apply IH in H2. congruence.
  - intros H. injection H as -> ->.
    rewrite N.eqb_refl. simpl. now apply IH.
Qed.

Lemma eqb_refl (a : str) : Py.eqb a a = true.
Proof. now apply eqb_eq. Qed.

Lemma eqb_neq (a b : str) : Py.eqb a b = false <-> a <> b.
Proof.
  split.
  - intros H E. apply eqb_eq in E. congruence.
  - intros H. destruct (Py.eqb a b) eqn:E; [|reflexivity].
    apply eqb_eq in E. contradiction.
Qed.

Lemma str_in_In (x : str) (l : list str) : str_in x l = true <-> In x l.
Proof.
  unfold str_in. rewrite existsb_exists. split.
  - intros [y [Hy E]]. apply eqb_eq in E. now subst.
  - intros H. exists x. split; [assumption | apply eqb_refl].
Qed.

Lemma str_in_not_In (x : str) (l : list str) :
  str_in x l = false <-> ~ In x l.
Proof.
  rewrite <- str_in_In. destruct (str_in x l); split; congruence.
Qed.

Lemma startswith_prefix (s p : str) :
  Py.startswith s p = true <-> exists r, s = p ++ r.
Proof.
  revert s; induction p as [|x p IH]; intros s; simpl.
  - split; [intros _; now exists s | reflexivity].
  - destruct s as [|c s].
    + split; [discriminate | intros [r H]; discriminate].
    + rewrite andb_true_iff, N.eqb_eq, IH. split.
      * intros [-> [r ->]]. now exists r.
      * intros [r H]. injection H as -> ->. split; [reflexivity | now exists r].
Qed.

Lemma endswith_suffix (s p : str) :
  Py.endswith s p = true <-> exists l, s = l ++ p.
Proof.
  unfold Py.endswith. rewrite startswith_prefix. split.
  - intros [r H]. exists (rev r).
    rewrite <- (rev_involutive s), H, rev_app_distr, rev_involutive.
    reflexivity.
  - intros [l ->]. exists (rev l). apply rev_app_distr.
Qed.

Lemma contains_substring (s p : str) :
  Py.contains s p = true <-> exists l r, s = l ++ p ++ r.
Proof.
  induction s as [|c s IH]; simpl.
  - rewrite orb_false_r, startswith_prefix. split.
    + intros [r H]. now exists [], r.
    + intros [l [r H]]. destruct l; simpl in H.
      * now exists r.
      * discriminate.
  - rewrite orb_true_iff, startswith_prefix, IH. split.
    + intros [[r H] | [l [r H]]].
      * now exists [], r.
      * exists (c :: l), r. simpl. now rewrite H.
    + intros [[|x l] [r H]]; simpl in H.
      * left. now exists r.
      * right. injection H as -> ->. now exists l, r.
Qed.

Lemma lstrip_fixed (s : str) :
  Py.lstrip s = s <->
  match s with c :: _ => Py.is_space c = false | [] => True end.
Proof.
  destruct s as [|c s]; simpl; [split; auto|].
  destruct (Py.is_space c) eqn:E; split; try reflexivity; try discriminate.
  intros H. exfalso.
  assert (L : forall t, length (Py.lstrip t) <= length t).
  { induction t as [|d t IH]; simpl; [lia|].
    destruct (Py.is_space d); simpl; lia. }
  specialize (L s). rewrite H in L. simpl in L. lia.
Qed.

Lemma lstrip_head (s : str) :
  match Py.lstrip s with c :: _ => Py.is_space c = false | [] => True end.
Proof.
  induction s as [|c s IH]; simpl; [exact I|].
  destruct (Py.is_space c) eqn:E; [assumption | exact E].
Qed.

Lemma lstrip_idem (s : str) : Py.lstrip (Py.lstrip s) = Py.lstrip s.
Proof. apply lstrip_fixed, lstrip_head. Qed.

Lemma lstrip_suffix (s : str) :
  exists sp, s = sp ++ Py.lstrip s /\ forallb Py.is_space sp = true.
Proof.
  induction s as [|c s [sp [E F]]]; simpl.
  - now exists [].
  - destruct (Py.is_space c) eqn:C.
    + exists (c :: sp). simpl. rewrite C, F. split; [now rewrite <- E | reflexivity].
    + now exists [].
Qed.

Lemma rstrip_idem (s : str) : Py.rstrip (Py.rstrip s) = Py.rstrip s.
Proof.
  unfold Py.rstrip. now rewrite rev_involutive, lstrip_idem.
Qed.

Lemma rstrip_prefix (s : str) :
  exists sp, s = Py.rstrip s ++ sp /\ forallb Py.is_space sp = true.
Proof.
  unfold Py.rstrip. destruct (lstrip_suffix (rev s)) as [sp [E F]].
  exists (rev sp). split.
  - rewrite <- rev_app_distr, <- E. symmetry. apply rev_involutive.
  - rewrite forallb_forall in *. intros x Hx. apply F. now apply in_rev.
Qed.

(** [strip] leaves nothing to strip. *)
Lemma strip_idem (s : str) : Py.strip (Py.strip s) = Py.strip s.
Proof.
  unfold Py.strip.
  assert (H : Py.lstrip (Py.rstrip (Py.lstrip s)) = Py.rstrip (Py.lstrip s)).
  { apply lstrip_fixed.
    pose proof (lstrip_head s) as Hh.
    destruct (rstrip_prefix (Py.lstrip s)) as [sp [E F]].
    destruct (Py.rstrip (Py.lstrip s)) as [|c t]; [exact I|].
    rewrite E in Hh. exact Hh. }
  rewrite H. apply rstrip_idem.
Qed.

(** ** The matcher against the meaning of patterns *)

Lemma last_char_cons (prev : option Py.char) (c : Py.char) (w : str) :
  Re.last_char prev (c :: w) = Re.last_char (Some c) w.
Proof.
  unfold Re.last_char. simpl. destruct (rev w); reflexivity.
Qed.

Lemma matches_split p prev s m r : Re.matches p prev s m r -> s = m ++ r.
Proof.
  induction 1; simpl; try reflexivity; try assumption.
  rewrite <- app_assoc. now f_equal.
Qed.

Lemma rep_sound cls lo hi k p :
  (forall prev s m r, k prev s = Some (m, r) -> Re.matches p prev s m r) ->
  forall s n prev m r,
    (forall h, hi = Some h -> n <= h) ->
    Re.rep cls lo hi k n prev s = Some (m, r) ->
    exists w s' m',
      s = w ++ s' /\ m = w ++ m' /\ forallb cls w = true /\
      lo <= n + length w /\ (forall h, hi = Some h -> n + length w <= h) /\
      Re.matches p (Re.last_char prev w) s' m' r.
Proof.
  intros Hk.
  assert (Stop : forall s n prev m r,
            (forall h, hi = Some h -> n <= h) ->
            (if Nat.leb lo n then k prev s else None) = Some (m, r) ->
            exists w s' m',
              s = w ++ s' /\ m = w ++ m' /\ forallb cls w = true /\
              lo <= n + length w /\
              (forall h, hi = Some h -> n + length w <= h) /\
              Re.matches p (Re.last_char prev w) s' m' r).
  { intros s n prev m r Hn H. destruct (Nat.leb lo n) eqn:L; [|discriminate].
    apply Nat.leb_le in L. exists [], s, m. simpl.
    repeat split; try lia.
    - intros h Hh. specialize (Hn h Hh). lia.
    - now apply Hk. }
  induction s as [|c s IH]; intros n prev m r Hn H; simpl in H.
  - now apply Stop.
  - destruct (cls c && Re.may_take hi n)%bool eqn:C; [|now apply Stop].
    destruct (Re.rep cls lo hi k (S n) (Some c) s) as [[m1 r1]|] eqn:R;
      [|now apply Stop].
    injection H as <- <-. apply andb_true_iff in C as [Cc Ct].
    apply IH in R.
    + destruct R as [w [s' [m' [E1 [E2 [F [L [U M]]]]]]]].
      exists (c :: w), s', m'. simpl. rewrite Cc, F, last_char_cons.
      repeat split; try congruence; try lia.
      intros h Hh. specialize (U h Hh). lia.
    + intros h Hh. subst hi. simpl in Ct. apply Nat.ltb_lt in Ct. lia.
Qed.

Lemma match_here_sound p :
  forall prev s m r,
    Re.match_here p prev s = Some (m, r) -> Re.matches p prev s m r.
Proof.
  induction p as [|[cls lo hi|] p IH]; intros prev s m r H; simpl in H.
  - injection H as <- <-. constructor.
  - apply (@rep_sound cls lo hi _ p IH) in H; [|intros; lia].
    destruct H as [w [s' [m' [-> [-> [F [L [U M]]]]]]]].
    apply Re.matches_chars; try assumption; try lia.
  - destruct (Re.at_boundary prev s) eqn:B; [|discriminate].
    constructor; auto.
Qed.

Lemma rep_stop cls lo hi k s n prev :
  lo <= n -> k prev s <> None -> Re.rep cls lo hi k n prev s <> None.
Proof.
  intros L K. apply Nat.leb_le in L.
  destruct s as [|c s]; simpl; rewrite L; [assumption|].
  destruct (cls c && Re.may_take hi n)%bool; [|assumption].
  destruct (Re.rep cls lo hi k (S n) (Some c) s) as [[m r]|];
    [discriminate | assumption].
Qed.

Lemma rep_complete cls lo hi k s :
  forall w n prev,
    forallb cls w = true -> lo <= n + length w ->
    (forall h, hi = Some h -> n + length w <= h) ->
    k (Re.last_char prev w) s <> None ->
    Re.rep cls lo hi k n prev (w ++ s) <> None.
Proof.
  induction w as [|c w IH]; intros n prev F L U K; simpl in *.
  - apply rep_stop; [lia | assumption].
  - apply andb_true_iff in F as [Fc Fw]. rewrite Fc. simpl.
    assert (T : Re.may_take hi n = true).
    { destruct hi as [h|]; simpl; [|reflexivity].
      apply Nat.ltb_lt. specialize (U h eq_refl). lia. }
    rewrite T. rewrite last_char_cons in K.
    assert (R : Re.rep cls lo hi k (S n) (Some c) (w ++ s) <> None).
    { apply IH; try assumption; try lia.
      intros h Hh. specialize (U h Hh). lia. }
    destruct (Re.rep cls lo hi k (S n) (Some c) (w ++ s)) as [[m r]|];
      [discriminate | congruence].
Qed.

Lemma match_here_complete p :
  forall prev s m r,
    Re.matches p prev s m r -> Re.match_here p prev s <> None.
Proof.
  intros prev s m r M. induction M; simpl.
  - discriminate.
  - now rewrite H.
  - apply rep_complete; try assumption; try lia.
Qed.

Lemma best_matches p prev s m r : Re.best p prev s m r -> Re.matches p prev s m r.
Proof. induction 1; now constructor. Qed.



Lemma rep_best cls lo hi k p :
  (forall prev s m r, k prev s = Some (m, r) -> Re.best p prev s m r) ->
  (forall prev s m r, Re.matches p prev s m r -> k prev s <> None) ->
  forall s n prev m r,
    (forall h, hi = Some h -> n <= h) ->
    Re.rep cls lo hi k n prev s = Some (m, r) ->
    exists w s' m',
      s = w ++ s' /\ m = w ++ m' /\ forallb cls w = true /\
      lo <= n + length w /\ (forall h, hi = Some h -> n + length w <= h) /\
      Re.best p (Re.last_char prev w) s' m' r /\
      (forall w' s'' m'' r'',
         w' ++ s'' = s -> length w < length w' ->
         forallb cls w' = true ->
         (forall h, hi = Some h -> n + length w' <= h) ->
         ~ Re.matches p (Re.last_char prev w') s'' m'' r'').
Proof.
  intros Hk Kc.
  induction s as [|c s IH]; intros n prev m r Hn H; cbn [Re.rep] in H;
    cbv zeta in H.
  - destruct (Nat.leb lo n) eqn:L; [|discriminate H].
    apply Nat.leb_le in L. exists [], [], m. cbn [app length].
    split; [reflexivity|]. split; [reflexivity|]. split; [reflexivity|].
    split; [lia|]. split; [intros h Hh; specialize (Hn h Hh); lia|].
    split; [now apply Hk|].
    intros w' s'' m'' r'' E Lt. destruct w'; [cbn in Lt; lia | discriminate E].
  - assert (Stop :
      (if Nat.leb lo n then k prev (c :: s) else None) = Some (m, r) ->
      (forall w' s'' m'' r'',
         w' ++ s'' = c :: s -> 0 < length w' ->
         forallb cls w' = true ->
         (forall h, hi = Some h -> n + length w' <= h) ->
         ~ Re.matches p (Re.last_char prev w') s'' m'' r'') ->
      exists w s' m',
        c :: s = w ++ s' /\ m = w ++ m' /\ forallb cls w = true /\
        lo <= n + length w /\
        (forall h, hi = Some h -> n + length w <= h) /\
        Re.best p (Re.last_char prev w) s' m' r /\
        (forall w' s'' m'' r'',
           w' ++ s'' = c :: s -> length w < length w' ->
           forallb cls w' = true ->
           (forall h, hi = Some h -> n + length w' <= h) ->
           ~ Re.matches p (Re.last_char prev w') s'' m'' r'')).
    { intros H' No. destruct (Nat.leb lo n) eqn:L; [|discriminate H'].
      apply Nat.leb_le in L. exists [], (c :: s), m. cbn [app length].
      split; [reflexivity|]. split; [reflexivity|]. split; [reflexivity|].
      split; [lia|]. split; [intros h Hh; specialize (Hn h Hh); lia|].
      split; [now apply Hk | exact No]. }
    destruct (cls c && Re.may_take hi n)%bool eqn:C.
    + apply andb_true_iff in C as [Cc Ct].
      assert (Hn' : forall h, hi = Some h -> S n <= h).
      { intros h Hh. subst hi. cbn in Ct. apply Nat.ltb_lt in Ct. lia. }
      destruct (Re.rep cls lo hi k (S n) (Some c) s) as [[m1 r1]|] eqn:R.
      * injection H as <- <-.
        destruct (IH (S n) (Some c) m1 r1 Hn' R)
          as [w [s' [m' [E1 [E2 [F [L [U [B Max]]]]]]]]].
        exists (c :: w), s', m'. cbn [app length forallb].
        rewrite Cc, F, last_char_cons.
        split; [now rewrite E1|]. split; [now rewrite E2|].
        split; [reflexivity|]. split; [lia|].
        split; [intros h Hh; specialize (U h Hh); lia|].
        split; [exact B|].
        intros [|c' w'] s'' m'' r'' E Lt Fw Uw; [cbn in Lt; lia|].
        cbn [app] in E. injection E as -> E. cbn [length] in Lt.
        cbn [forallb] in Fw. apply andb_true_iff in Fw as [_ Fw].
        rewrite last_char_cons. apply Max; try assumption; [lia|].
        intros h Hh. specialize (Uw h Hh). cbn [length] in Uw. lia.
      * apply Stop; [exact H|].
        intros [|c' w'] s'' m'' r'' E Lt Fw Uw M; [cbn in Lt; lia|].
        cbn [app] in E. injection E as -> E. subst s.
        cbn [forallb] in Fw. apply andb_true_iff in Fw as [_ Fw].
        rewrite last_char_cons in M.
        assert (Nn : Re.rep cls lo hi k (S n) (Some c) (w' ++ s'') <> None).
        { apply rep_complete; try assumption.
          - destruct (Nat.leb lo n) eqn:L; [|discriminate H].
            apply Nat.leb_le in L. lia.
          - intros h Hh. specialize (Uw h Hh). cbn [length] in Uw. lia.
          - eapply Kc; exact M. }
        congruence.
    + apply Stop; [exact H|].
      intros [|c' w'] s'' m'' r'' E Lt Fw Uw; [cbn in Lt; lia|].
      cbn [app] in E. injection E as -> E.
      cbn [forallb] in Fw. apply andb_true_iff in Fw as [Fc _].
      rewrite Fc in C. cbn [andb] in C.
      destruct hi as [h|]; [|discriminate C]. cbn in C.
      apply Nat.ltb_ge in C. specialize (Uw h eq_refl). cbn [length] in Uw.
      lia.
Qed.

(** The matcher gives the match that the engine prefers. *)
Lemma match_here_best p :
  forall prev s m r,
    Re.match_here p prev s = Some (m, r) -> Re.best p prev s m r.
Proof.
  induction p as [|[cls lo hi|] p IH]; intros prev s m r H; simpl in H.
  - injection H as <- <-. constructor.
  - apply (@rep_best cls lo hi _ p IH (@match_here_complete p)) in H;
      [|intros; lia].
    destruct H as [w [s' [m' [-> [-> [F [L [U [B Max]]]]]]]]].
    apply Re.best_chars; try assumption; try lia.
  - destruct (Re.at_boundary prev s) eqn:B; [|discriminate].
    constructor; auto.
Qed.

Lemma search_from_some p :
  forall s prev skip m r,
    Re.search_from p prev s = Some (skip, m, r) ->
    s = skip ++ m ++ r /\
    Re.best p (Re.last_char prev skip) (m ++ r) m r /\
    forall a b m' r',
      skip = a ++ b -> b <> [] ->
      ~ Re.matches p (Re.last_char prev a) (b ++ m ++ r) m' r'.
Proof.
  induction s as [|c s IH]; intros prev skip m r H; simpl in H.
  - destruct (Re.match_here p prev []) as [[m0 r0]|] eqn:E; [|discriminate].
    injection H as <- <- <-. apply match_here_best in E.
    pose proof (matches_split (best_matches E)) as S. simpl. rewrite <- S.
    repeat split; try assumption.
    intros a b m' r' Hab Hb. destruct a; destruct b; try discriminate.
    congruence.
  - destruct (Re.match_here p prev (c :: s)) as [[m0 r0]|] eqn:E.
    + injection H as <- <- <-. apply match_here_best in E.
      pose proof (matches_split (best_matches E)) as S. simpl. rewrite <- S.
      repeat split; try assumption.
      intros a b m' r' Hab Hb. destruct a; destruct b; try discriminate.
      congruence.
    + destruct (Re.search_from p (Some c) s) as [[[skip0 m0] r0]|] eqn:R;
        [|discriminate].
      injection H as <- <- <-. apply IH in R as [S [M L]].
      rewrite last_char_cons. repeat split.
      * simpl. now rewrite <- S.
      * assumption.
      * intros [|x a] b m' r' Hab Hb; simpl in Hab.
        -- subst b. intros M'. simpl in M'. rewrite <- S in M'.
           apply match_here_complete in M'. unfold Re.last_char in M'.
           simpl in M'. congruence.
        -- injection Hab as <- Hab. rewrite last_char_cons.
           now apply L.
Qed.

Lemma search_from_none p :
  forall s prev,
    Re.search_from p prev s = None ->
    forall a b m' r',
      s = a ++ b -> ~ Re.matches p (Re.last_char prev a) b m' r'.
Proof.
  induction s as [|c s IH]; intros prev H a b m' r' Hab M; simpl in H.
  - destruct a; destruct b; try discriminate.
    apply match_here_complete in M. unfold Re.last_char in M. simpl in M.
    destruct (Re.match_here p prev []) as [[m0 r0]|]; congruence.
  - destruct (Re.match_here p prev (c :: s)) as [[m0 r0]|] eqn:E;
      [discriminate|].
    destruct (Re.search_from p (Some c) s) as [[[skip0 m0] r0]|] eqn:R;
      [discriminate|].
    destruct a as [|x a]; simpl in Hab.
    + subst b. apply match_here_complete in M. unfold Re.last_char in M.
      simpl in M. congruence.
    + injection Hab as <- Hab. rewrite last_char_cons in M.
      exact (IH _ R a b m' r' Hab M).
Qed.

(** The first element of [findall] is the leftmost match. *)
Lemma findall_first p (text : str) :
  Re.leftmost p text (first_match (Re.findall p text)).
Proof.
  unfold Re.findall. simpl.
  destruct (Re.search_from p None text) as [[[skip m] r]|] eqn:S; simpl.
  - apply search_from_some in S as [E [M L]]. now exists skip, r.
  - intros a b m' r' Hab. eapply search_from_none; eassumption.
Qed.

(** [match_] succeeds exactly when the pattern matches at the start. *)
Lemma match_iff p (s : str) :
  is_some (Re.match_ p s) = true <-> exists m r, Re.matches p None s m r.
Proof.
  unfold Re.match_. split.
  - destruct (Re.match_here p None s) as [[m r]|] eqn:E; [|discriminate].
    intros _. exists m, r. now apply match_here_sound.
  - intros [m [r M]]. apply match_here_complete in M.
    destruct (Re.match_here p None s) as [[m0 r0]|]; [reflexivity | congruence].
Qed.


(** ** The lead store *)

Lemma lowers_app (a b : store) : lowers (a ++ b) = lowers a ++ lowers b.
Proof. apply map_app. Qed.

Lemma In_lowers (l : Lead) (leads : store) :
  In l leads -> In (Py.lower (Email l)) (lowers leads).
Proof. intros I. unfold lowers. now apply in_map_iff; exists l. Qed.

Lemma NoDup_snoc {A : Type} (l : list A) (x : A) :
  NoDup l -> ~ In x l -> NoDup (l ++ [x]).
Proof.
  induction l as [|a l IH]; intros N H; simpl.
  - constructor; [intros [] | constructor].
  - inversion N as [|? ? Ha Nl]; subst. constructor.
    + rewrite in_app_iff. simpl. intros [I | [E | []]].
      * contradiction.
      * subst. apply H. now left.
    + apply IH; [assumption|]. intros I. apply H. now right.
Qed.

Lemma NoDup_append {A : Type} (l l' : list A) :
  NoDup l -> NoDup l' -> (forall x, In x l' -> ~ In x l) -> NoDup (l ++ l').
Proof.
  intros N N' D. induction l as [|a l IH]; simpl; [assumption|].
  inversion N as [|? ? Ha Nl]; subst. constructor.
  - rewrite in_app_iff. intros [I | I]; [contradiction|].
    apply (D a I). now left.
  - apply IH; [assumption|]. intros x I J. apply (D x I). now right.
Qed.

Lemma NoDup_prefix {A : Type} (l l' : list A) : NoDup (l ++ l') -> NoDup l.
Proof.
  induction l as [|a l IH]; simpl; intros N; [constructor|].
  inversion N as [|? ? Ha Nl]; subst. constructor.
  - intros I. apply Ha. apply in_app_iff. now left.
  - now apply IH.
Qed.

(** [upsert_lead] leaves the store as it is or appends one row. *)
Lemma upsert_lead_cases name email website phone source leads :
  upsert_lead name email website phone source leads = leads \/
  (truthy_opt email = true /\
   ~ In (Py.lower (or_empty email)) (lowers leads) /\
   upsert_lead name email website phone source leads =
   leads ++ [ {| Company := or_empty name; Email := Py.strip (or_empty email);
                 Website := website; Phone := or_empty phone;
                 Source := source |} ]).
Proof.
  unfold upsert_lead. destruct (truthy_opt email) eqn:T; simpl; [|now left].
  destruct (str_in (Py.lower (or_empty email)) (lowers leads)) eqn:I;
    [now left|].
  right. apply str_in_not_In in I. auto.
Qed.

Lemma upsert_lead_noop name email website phone source leads :
  In (Py.lower (or_empty email)) (lowers leads) ->
  upsert_lead name email website phone source leads = leads.
Proof.
  intros I. unfold upsert_lead. destruct (truthy_opt email); simpl; [|reflexivity].
  apply str_in_In in I. now rewrite I.
Qed.

Lemma upsert_lead_unique name email website phone source leads :
  trimmed (or_empty email) -> unique_emails leads ->
  unique_emails (upsert_lead name email website phone source leads).
Proof.
  intros T U.
  destruct (upsert_lead_cases name email website phone source leads)
    as [-> | [_ [N ->]]]; [assumption|].
  unfold unique_emails. rewrite lowers_app. simpl. rewrite T.
  now apply NoDup_snoc.
Qed.

Lemma upsert_lead_present name email website phone source leads :
  truthy_opt email = true -> trimmed (or_empty email) ->
  In (Py.lower (or_empty email))
     (lowers (upsert_lead name email website phone source leads)).
Proof.
  intros T S. unfold upsert_lead. rewrite T. simpl.
  destruct (str_in (Py.lower (or_empty email)) (lowers leads)) eqn:I.
  - now apply str_in_In.
  - rewrite lowers_app, in_app_iff. right. simpl. rewrite S. now left.
Qed.

Lemma import_rows_spec :
  forall rows existing leads n leads' res,
    (forall x, In x existing <-> In x (lowers leads)) ->
    import_rows rows existing leads n = (leads', res) ->
    exists added,
      leads' = leads ++ added /\
      (forall k, res = Ok k -> k = (n + Z.of_nat (length added))%Z) /\
      Forall (fun l => exists r, In r rows /\ imported_from r l) added /\
      NoDup (lowers added) /\
      (forall l, In l added -> ~ In (Py.lower (Email l)) (lowers leads)) /\
      (forall k, res = Ok k ->
         forall r e, In r rows -> field r (py "Email") = Ok e ->
           valid_email (Py.strip e) = true ->
           In (Py.lower (Py.strip e)) (lowers leads')).
Proof.
  assert (Stop : forall (rows : list row) (leads : store),
            exists added : list Lead,
              leads = leads ++ added /\
              (forall k, @Raise Z = Ok k -> k = (0 + Z.of_nat (length added))%Z) /\
              Forall (fun l => exists r, In r rows /\ imported_from r l) added /\
              NoDup (lowers added) /\
              (forall l, In l added -> ~ In (Py.lower (Email l)) (lowers leads)) /\
              (forall k, @Raise Z = Ok k ->
                 forall r e, In r rows -> field r (py "Email") = Ok e ->
                   valid_email (Py.strip e) = true ->
                   In (Py.lower (Py.strip e)) (lowers leads))).
  { intros rows leads. exists []. rewrite app_nil_r.
    repeat split; try discriminate; try constructor. intros l []. }
  induction rows as [|r rest IH]; intros existing leads n leads' res Inv H;
    simpl in H.
  - injection H as <- <-. exists []. rewrite app_nil_r. simpl.
    repeat split; try constructor.
    + intros k E. injection E as <-. lia.
    + intros l [].
    + intros k _ r e [].
  - destruct (field r (py "Email")) as [e|] eqn:FE.
    2:{ injection H as <- <-.
        destruct (Stop (r :: rest) leads) as [added [E [C [F [N [D L]]]]]].
        exists added. repeat split; try assumption; intros; discriminate. }
    destruct (valid_email (Py.strip e)) eqn:V; simpl in H.
    2:{ apply IH in H; [|assumption].
        destruct H as [added [E [C [F [N [D L]]]]]].
        exists added. repeat split; try assumption.
        - eapply Forall_impl; [|exact F].
          intros l [r0 [I0 M]]. exists r0. split; [now right | assumption].
        - intros k Ek r0 e0 [<- | I0] F0 V0.
          + rewrite FE in F0. injection F0 as <-. congruence.
          + now apply (L k Ek r0 e0). }
    destruct (str_in (Py.lower (Py.strip e)) existing) eqn:D0.
    { apply IH in H; [|assumption].
      destruct H as [added [E [C [F [N [D L]]]]]].
      exists added. repeat split; try assumption.
      - eapply Forall_impl; [|exact F].
        intros l [r0 [I0 M]]. exists r0. split; [now right | assumption].
      - intros k Ek r0 e0 [<- | I0] F0 V0.
        + rewrite FE in F0. injection F0 as <-.
          apply str_in_In, Inv in D0. rewrite E, lowers_app, in_app_iff.
          now left.
        + now apply (L k Ek r0 e0). }
    apply str_in_not_In in D0.
    destruct (field r (py "Company")) as [c|] eqn:FC; simpl in H.
    2:{ injection H as <- <-.
        destruct (Stop (r :: rest) leads) as [added [E [C [F [N [D L]]]]]].
        exists added. repeat split; try assumption; intros; discriminate. }
    destruct (field r (py "Website")) as [w|] eqn:FW; simpl in H.
    2:{ injection H as <- <-.
        destruct (Stop (r :: rest) leads) as [added [E [C [F [N [D L]]]]]].
        exists added. repeat split; try assumption; intros; discriminate. }
    destruct (field r (py "Phone")) as [ph|] eqn:FP; simpl in H.
    2:{ injection H as <- <-.
        destruct (Stop (r :: rest) leads) as [added [E [C [F [N [D L]]]]]].
        exists added. repeat split; try assumption; intros; discriminate. }
    set (l := {| Company := Py.slice_to 120 c; Email := Py.strip e;
                 Website := w; Phone := ph; Source := py "import" |}) in *.
    apply IH in H.
    2:{ intros x. rewrite lowers_app, in_app_iff. simpl.
        rewrite (Inv x).
        split; [intros [J | J]; [right; now left | now left]|].
        intros [J | [J | []]]; [now right | now left]. }
    destruct H as [added [E [C [F [N [D L]]]]]].
    exists (l :: added). repeat split.
    + rewrite E, <- app_assoc. reflexivity.
    + intros k Ek. rewrite (C k Ek). simpl length. lia.
    + constructor.
      * exists r. split; [now left|]. exists e, c, w, ph.
        repeat split; assumption || reflexivity.
      * eapply Forall_impl; [|exact F].
        intros l0 [r0 [I0 M]]. exists r0. split; [now right | assumption].
    + simpl. constructor; [|assumption].
      intros I. apply in_map_iff in I as [l0 [E0 I0]].
      apply (D l0 I0). rewrite E0, lowers_app, in_app_iff. right. now left.
    + intros l0 [<- | I0].
      * simpl. intros I. apply D0. now apply Inv.
      * intros I. apply (D l0 I0). rewrite lowers_app, in_app_iff. now left.
    + intros k Ek r0 e0 [<- | I0] F0 V0.
      * rewrite FE in F0. injection F0 as <-.
        rewrite E, !lowers_app, !in_app_iff. left. right. now left.
      * now apply (L k Ek r0 e0).
Qed.

Lemma import_leads_extends new leads :
  unique_emails leads ->
  exists added,
    fst (import_leads new leads) = leads ++ added /\
    unique_emails (leads ++ added).
Proof.
  intros U. unfold import_leads. destruct new as [rows|].
  2:{ exists []. rewrite app_nil_r. auto. }
  destruct (import_rows rows (lowers leads) leads 0) as [leads' res] eqn:H.
  apply import_rows_spec in H; [|intros x; reflexivity].
  destruct H as [added [E [_ [_ [N [D _]]]]]].
  exists added. split.
  - now destruct res.
  - unfold unique_emails. rewrite lowers_app.
    apply NoDup_append; try assumption.
    intros x I. apply in_map_iff in I as [l [<- I]]. now apply D.
Qed.

Lemma run_op_extends o leads :
  trimmed_op o -> unique_emails leads ->
  exists added,
    run_op leads o = leads ++ added /\ unique_emails (leads ++ added).
Proof.
  intros T U. destruct o as [name email website phone source | new]; simpl.
  - pose proof (upsert_lead_unique name email website phone source T U) as U'.
    destruct (upsert_lead_cases name email website phone source leads)
      as [E | [_ [_ E]]]; rewrite E in *.
    + exists []. rewrite app_nil_r. auto.
    + eexists. split; [reflexivity | assumption].
  - now apply import_leads_extends.
Qed.

(** A history of trimmed operations only appends rows and keeps the
    emails unique. *)
Lemma run_extends ops :
  forall leads,
    Forall trimmed_op ops -> unique_emails leads ->
    exists added,
      run ops leads = leads ++ added /\ unique_emails (leads ++ added).
Proof.
  induction ops as [|o ops IH]; intros leads T U; simpl.
  - exists []. rewrite app_nil_r. auto.
  - inversion T as [|? ? To Tops]; subst.
    destruct (@run_op_extends o leads To U) as [a1 [E1 U1]]. rewrite E1.
    destruct (IH _ Tops U1) as [a2 [E2 U2]]. rewrite E2.
    exists (a1 ++ a2). rewrite app_assoc. auto.
Qed.

Lemma rows_for_none (email : str) (leads : store) :
  rows_for email leads = [] <-> ~ In (Py.lower email) (lowers leads).
Proof.
  unfold rows_for. induction leads as [|x leads IH]; simpl.
  - split; [intros _ [] | reflexivity].
  - destruct (Py.eqb (Py.lower (Email x)) (Py.lower email)) eqn:Ex.
    + apply eqb_eq in Ex. split; [discriminate | intros H; exfalso; auto].
    + apply eqb_neq in Ex. rewrite IH. split.
      * intros H [E | I]; [now apply Ex | now apply H].
      * intros H I. apply H. now right.
Qed.

Lemma rows_for_unique (email : str) (l : Lead) (leads : store) :
  unique_emails leads -> In l leads ->
  Py.lower (Email l) = Py.lower email ->
  rows_for email leads = [l].
Proof.
  unfold unique_emails, rows_for. intros U I E.
  induction leads as [|x leads IH]; simpl in *; [contradiction|].
  inversion U as [|? ? Nx Ul]; subst.
  assert (Others : forall y, In y leads ->
            Py.lower (Email y) = Py.lower email -> In (Py.lower email) (lowers leads)).
  { intros y Iy Ey. rewrite <- Ey. now apply In_lowers. }
  destruct I as [-> | I].
  - rewrite E, eqb_refl. f_equal.
    apply rows_for_none. now rewrite <- E.
  - destruct (Py.eqb (Py.lower (Email x)) (Py.lower email)) eqn:Ex.
    + exfalso. apply Nx. apply eqb_eq in Ex. rewrite Ex.
      now apply (Others l).
    + now apply IH.
Qed.

(** X21.  Along every history of upserts of trimmed emails and of
    imports, the emails of the store stay pairwise different up to
    letter case.  Once a non-empty trimmed email [e1] was upserted, a later
    upsert of the same email in any letter case changes nothing: the store
    keeps exactly one row for it, the row it had after the first upsert,
    which carries the attributes of that upsert when the email was new.
    An upsert of no email or of the empty email changes nothing. *)
Theorem upsert_first_writer_wins
    (ops ops' : list op) (n1 n2 : option str) (e1 e2 w1 w2 : str)
    (p1 p2 : option str) (s1 s2 : str) :
  Forall trimmed_op ops -> Forall trimmed_op ops' ->
  Py.truthy e1 = true -> trimmed e1 -> Py.lower e2 = Py.lower e1 ->
  let before := run ops [] in
  let first := upsert_lead n1 (Some e1) w1 p1 s1 before in
  let later := run ops' first in
  let second := upsert_lead n2 (Some e2) w2 p2 s2 later in
  unique_emails before /\ unique_emails second /\ second = later /\
  (exists l,
     rows_for e1 second = [l] /\ rows_for e1 first = [l] /\
     (rows_for e1 before = [] ->
      l = {| Company := or_empty n1; Email := e1; Website := w1;
             Phone := or_empty p1; Source := s1 |})) /\
  upsert_lead n2 None w2 p2 s2 later = later /\
  upsert_lead n2 (Some []) w2 p2 s2 later = later.
Proof.
  intros T T' Ne Tr Eq before first later second.
  assert (U0 : unique_emails before).
  { destruct (@run_extends ops [] T) as [a [E U]]; [constructor|].
    subst before. rewrite E. exact U. }
  assert (U1 : unique_emails first) by now apply upsert_lead_unique.
  assert (P1 : In (Py.lower e1) (lowers first)).
  { apply (@upsert_lead_present n1 (Some e1) w1 p1 s1 before); assumption. }
  destruct (@run_extends ops' first T' U1) as [added [E U2]].
  fold later in E. rewrite <- E in U2.
  assert (P2 : In (Py.lower e1) (lowers later)).
  { rewrite E, lowers_app, in_app_iff. now left. }
  assert (S2 : second = later).
  { apply upsert_lead_noop. simpl. now rewrite Eq. }
  apply in_map_iff in P1 as [l [El Il]].
  split; [exact U0|]. split; [now rewrite S2|]. split; [exact S2|].
  split; [|split; reflexivity].
  exists l. repeat split.
  - rewrite S2. apply rows_for_unique; try assumption.
    rewrite E. apply in_app_iff. now left.
  - now apply rows_for_unique.
  - intros B. apply rows_for_none in B.
    destruct (upsert_lead_cases n1 (Some e1) w1 p1 s1 before)
      as [E1 | [_ [_ E1]]]; fold first in E1.
    + exfalso. apply B. rewrite <- El. apply In_lowers. now rewrite <- E1.
    + simpl in E1. rewrite Tr in E1.
      assert (R : rows_for e1 first = [l]) by now apply rows_for_unique.
      assert (R' : rows_for e1 first =
                   [ {| Company := or_empty n1; Email := e1; Website := w1;
                        Phone := or_empty p1; Source := s1 |} ]).
      { apply rows_for_unique; [assumption | | reflexivity].
        rewrite E1. apply in_app_iff. right. now left. }
      congruence.
Qed.

(** The email pattern validates an email that is not empty and at whose
    start the pattern matches. *)
Lemma valid_email_iff (email : str) :
  valid_email email = true <->
  email <> [] /\ exists m r, Re.matches EMAIL_RE None email m r.
Proof.
  unfold valid_email. rewrite andb_true_iff, match_iff.
  destruct email; simpl; split; intros [H1 H2]; split;
    congruence || assumption || reflexivity.
Qed.

(** A header that the file does not have reads as the empty string. *)
Lemma field_missing (r : row) (k : str) :
  row_get r k = Missing -> field r k = Ok [].
Proof. unfold field. now intros ->. Qed.

(** An empty field of a column the file has is NaN, which is true;
    its [str()] is kept. *)
Lemma field_nan (k : str) : field [(k, CNaN)] k = Ok (py "nan").
Proof. unfold field. simpl. now rewrite eqb_refl. Qed.

(** X22.  When the import reports [n] rows, the store is the old store
    followed by exactly [n] new rows.  Each new row comes from a row of
    the file whose trimmed email the pattern validates, has the source
    tag ["import"], and has the empty string for each of company,
    website and phone that the file has no column for.  No new row has
    the email, up to letter case, of an old row or of another new row;
    and every valid email of the file is in the store afterwards. *)
Theorem import_skips_and_counts (rows : list row) (leads leads' : store)
    (n : Z) :
  import_leads (Ok rows) leads = (leads', Imported n) ->
  exists added,
    leads' = leads ++ added /\
    n = Z.of_nat (length added) /\
    Forall
      (fun l =>
         Source l = py "import" /\
         exists r,
           In r rows /\ imported_from r l /\
           (row_get r (py "Company") = Missing -> Company l = []) /\
           (row_get r (py "Website") = Missing -> Website l = []) /\
           (row_get r (py "Phone") = Missing -> Phone l = []))
      added /\
    NoDup (lowers added) /\
    (forall l, In l added -> ~ In (Py.lower (Email l)) (lowers leads)) /\
    (forall r e,
       In r rows -> field r (py "Email") = Ok e ->
       valid_email (Py.strip e) = true ->
       In (Py.lower (Py.strip e)) (lowers leads')).
Proof.
  unfold import_leads.
  destruct (import_rows rows (lowers leads) leads 0) as [leads0 res] eqn:H.
  destruct res as [k|]; [|discriminate].
  intros E. injection E as -> ->.
  apply import_rows_spec in H; [|intros x; reflexivity].
  destruct H as [added [E [C [F [N [D L]]]]]].
  exists added. repeat split; try assumption.
  - rewrite (C n eq_refl). lia.
  - eapply Forall_impl; [|exact F].
    intros l [r [I M]]. split.
    + destruct M as [e [c [w [p [_ [_ [_ [_ [_ ->]]]]]]]]]. reflexivity.
    + exists r. repeat split; try assumption.
      * intros Mi. apply field_missing in Mi.
        destruct M as [e [c [w [p [_ [Fc [_ [_ [_ ->]]]]]]]]].
        rewrite Fc in Mi. injection Mi as ->. reflexivity.
      * intros Mi. apply field_missing in Mi.
        destruct M as [e [c [w [p [_ [_ [Fw [_ [_ ->]]]]]]]]].
        rewrite Fw in Mi. injection Mi as ->. reflexivity.
      * intros Mi. apply field_missing in Mi.
        destruct M as [e [c [w [p [_ [_ [_ [Fp [_ ->]]]]]]]]].
        rewrite Fp in Mi. injection Mi as ->. reflexivity.
  - now apply (L n).
Qed.

(** ** Export and import again *)




(** ** The site filter *)

Lemma occurs_in_contains (s location : str) :
  occurs_in s location <-> Py.contains location s = true.
Proof. symmetry. apply contains_substring. Qed.

Lemma ends_in_endswith (suffix location : str) :
  ends_in suffix location <-> Py.endswith location suffix = true.
Proof. symmetry. apply endswith_suffix. Qed.

Lemma filter_eligible (u : str) :
  looks_like_business_site u = true <-> eligible (domain_of u).
Proof.
  unfold looks_like_business_site, eligible.
  destruct (domain_of u) as [|c d] eqn:D; simpl Py.truthy; cbv iota.
  - simpl. split; [discriminate | intros [H _]; congruence].
  - simpl negb. cbv iota.
    destruct (existsb (fun s => Py.contains (c :: d) s) SOCIAL_DOMAINS) eqn:X.
    + split; [discriminate|]. intros [_ [N _]]. exfalso.
      apply existsb_exists in X as [s [I C]].
      apply (N s I). now apply occurs_in_contains.
    + rewrite !orb_true_iff, <- !ends_in_endswith. split.
      * intros E. repeat split;
          [discriminate | | destruct E as [[E | E] | E]; auto].
        intros s I O. apply occurs_in_contains in O.
        assert (T : existsb (fun s => Py.contains (c :: d) s) SOCIAL_DOMAINS = true)
          by (apply existsb_exists; now exists s).
        congruence.
      * intros [_ [_ E]]. destruct E as [E | [E | E]]; auto.
Qed.

(** C2.  The site filter is a function of the URL.  For a URL that
    [urlparse] reads, it answers [true] exactly when the network
    location of the URL, in lower case, is not empty, contains none of
    the listed social or directory domains, and ends in [.com], [.net]
    or [.org], and [false] otherwise; for a URL that [urlparse] refuses
    the location counts as empty and the answer is [false]. *)
Theorem site_filter_exact (u : str) :
  (looks_like_business_site u = true <-> eligible (domain_of u)) /\
  (looks_like_business_site u = false <-> ~ eligible (domain_of u)) /\
  (forall netloc,
     urlparse_netloc u = Ok netloc ->
     domain_of u = Py.lower netloc /\
     (looks_like_business_site u = true <-> eligible (Py.lower netloc)) /\
     (looks_like_business_site u = false <-> ~ eligible (Py.lower netloc))) /\
  (urlparse_netloc u = Raise ->
   domain_of u = [] /\ looks_like_business_site u = false).
Proof.
  assert (F : looks_like_business_site u = false <-> ~ eligible (domain_of u)).
  { rewrite <- filter_eligible. destruct (looks_like_business_site u);
      split; congruence. }
  split; [apply filter_eligible|]. split; [exact F|]. split.
  - intros netloc E.
    assert (D : domain_of u = Py.lower netloc).
    { unfold domain_of. now rewrite E. }
    split; [exact D|]. rewrite <- D. split; [apply filter_eligible | exact F].
  - intros R.
    assert (D : domain_of u = []).
    { unfold domain_of. now rewrite R. }
    split; [exact D|]. apply F. rewrite D. intros [N _]. now apply N.
Qed.

(** ** The key of the generic SERP call *)

(** C5 (as amended).  The key argument of the call of [search_serp_api]
    is the configured key, whatever it is: the test of the conditional
    expression binds [SERRP_KEY] before the branch reads it, and for the
    empty key the other branch gives the empty string. *)
Theorem serp_key_passes_through (key : str) : serp_key_arg key = Ok key.
Proof. destruct key; reflexivity. Qed.

Lemma search_query_serp (q : str) (per_q : Z) (st : state W) :
  Py.startswith (provider side) (py "Bing API") = false ->
  search_query q per_q st =
  search_serp_api q (SERP_BASE_URL side) (SERP_KEY side) (SERP_METHOD side)
    (none_if_empty (SERP_AUTH_HEADER side))
    (none_if_empty (SERP_KEY_PARAM side)) per_q st.
Proof.
  intros B. unfold search_query. rewrite B.
  destruct (SERP_KEY side); reflexivity.
Qed.

(** ** The extractor *)













Lemma truthy_true (s : str) : Py.truthy s = true <-> s <> [].
Proof. destruct s; simpl; split; congruence. Qed.




(** A page that cannot be fetched gives nothing. *)
Lemma extract_company_info_failed (url : str) (st : state W) (w : W) :
  network (world st) (page_request url) = (w, Failed) ->
  snd (extract_company_info url st) = Ok (None, None, None).
Proof.
  intros N. unfold extract_company_info, http_send. now rewrite N.
Qed.



(** ** The probes of a site *)

Lemma trace_extract (url : str) (st : state W) :
  trace (fst (extract_company_info url st)) =
  trace st ++ [Requested (page_request url)].
Proof.
  unfold extract_company_info, http_send.
  now destruct (network (world st) (page_request url)).
Qed.


Lemma probe_pages_spec (base : str) (targets : list str) :
  forall st leads,
    let '(found, st', leads') := probe_pages targets base st leads in
    match found with
    | Ok true =>
        exists earlier target rest name email phone,
          targets = earlier ++ target :: rest /\
          no_email earlier st /\
          extract_company_info target (probe_all earlier st) =
            (st', Ok (name, email, phone)) /\
          truthy_opt email = true /\
          leads' = upsert_lead name email base phone source_tag leads
    | Ok false =>
        no_email targets st /\ st' = probe_all targets st /\ leads' = leads
    | Raise =>
        exists earlier target rest,
          targets = earlier ++ target :: rest /\
          no_email earlier st /\
          extract_company_info target (probe_all earlier st) = (st', Raise) /\
          leads' = leads
    end.
Proof.
  induction targets as [|t targets IH]; intros st leads; simpl.
  - auto.
  - destruct (extract_company_info t st) as [st1 [[[name email] phone]|]] eqn:E.
    + destruct (truthy_opt email) eqn:T.
      * exists [], t, targets, name, email, phone. simpl. auto.
      * assert (Nt : no_email [t] st).
        { cbn [no_email]. split; [|exact I]. exists name, email, phone.
          rewrite E. split; [reflexivity | exact T]. }
        destruct Nt as [Nt _].
        specialize (IH (sleep (delay_of rate_delay) st1) leads).
        destruct (probe_pages targets base (sleep (delay_of rate_delay) st1)
                    leads) as [[found st'] leads'].
        destruct found as [[|]|].
        -- destruct IH as [earlier [target [rest [n [e [p [Eq [Ne [Ex [Te El]]]]]]]]]].
           exists (t :: earlier), target, rest, n, e, p.
           cbn [no_email probe_all app]. rewrite ?E. cbn [fst snd].
           subst targets. rewrite ?E in Nt. cbn [snd] in Nt. auto 10.
        -- destruct IH as [Ne [-> ->]].
           cbn [no_email probe_all]. rewrite ?E. cbn [fst snd].
           rewrite ?E in Nt. cbn [snd] in Nt. auto.
        -- destruct IH as [earlier [target [rest [Eq [Ne [Ex El]]]]]].
           exists (t :: earlier), target, rest.
           cbn [no_email probe_all app]. rewrite ?E. cbn [fst snd].
           subst targets. rewrite ?E in Nt. cbn [snd] in Nt. auto 10.
    + exists [], t, targets. simpl. auto.
Qed.


(** The delay is positive whatever the slider says. *)
Lemma delay_positive : (0 <= rate_delay)%Q -> (0 < delay_of rate_delay)%Q.
Proof.
  unfold delay_of. intros H. destruct (Qeq_bool rate_delay 0) eqn:E.
  - reflexivity.
  - apply Qeq_bool_neq in E. apply Qle_lteq in H as [H | H]; [assumption|].
    exfalso. apply E. now symmetry.
Qed.


(** ** The campaign *)

Lemma delivered_sent (m : message) (ok : bool) (evs : list event) :
  delivered (Sent m ok :: evs) =
  ((if ok then 1 else 0) + delivered evs)%Z.
Proof.
  unfold delivered. destruct ok; [|reflexivity].
  cbn [filter length]. rewrite Nat2Z.inj_succ. lia.
Qed.

Lemma delivered_slept (q : Q) (evs : list event) :
  delivered (Slept q :: evs) = delivered evs.
Proof. reflexivity. Qed.

Lemma campaign_loop_spec (cfg : smtp_config) (subject html : str) (cap : Z) :
  forall emails sent st,
    let '(st', sent') := campaign_loop cfg subject html cap emails sent st in
    exists evs k,
      trace st' = trace st ++ evs /\
      recipients evs = firstn k emails /\
      sent' = (sent + delivered evs)%Z /\
      ((sent <= cap)%Z -> (sent' <= cap)%Z) /\
      (k = length emails \/ (cap <= sent')%Z) /\
      ((forall w m, snd (smtp w cfg m) = Ok tt) -> (sent <= cap)%Z ->
       sent' = Z.min cap (sent + Z.of_nat (length emails)) /\
       k = Z.to_nat (sent' - sent)).
Proof.
  induction emails as [|e emails IH]; intros sent st;
    cbn [campaign_loop length].
  - exists [], 0. rewrite app_nil_r. change (delivered []) with 0%Z.
    split; [reflexivity|]. split; [reflexivity|]. split; [lia|].
    split; [lia|]. split; [now left|]. intros _ L. simpl. lia.
  - rewrite Nat2Z.inj_succ. destruct (sent >=? cap)%Z eqn:G.
    + exists [], 0. rewrite app_nil_r. change (delivered []) with 0%Z.
      split; [reflexivity|]. split; [reflexivity|]. split; [lia|].
      split; [lia|]. split; [right; lia|]. intros _ L. lia.
    + unfold send_email_smtp.
      set (m := {| msg_from := FROM_NAME ++ py " <" ++ FROM_EMAIL ++ py ">";
                   msg_to := e; msg_subject := subject;
                   msg_plain := _; msg_html := html |}).
      pose proof (fun A : forall w m, snd (smtp w cfg m) = Ok tt =>
                    A (world st) m) as All.
      destruct (smtp (world st) cfg m) as [w [[]|]]; cbn [snd] in All.
      * match goal with
        | |- context [campaign_loop _ _ _ _ _ _ ?s] =>
            specialize (IH (sent + 1)%Z s);
            destruct (campaign_loop cfg subject html cap emails (sent + 1) s)
              as [st' sent']
        end.
        destruct IH as [evs [k [Tr [Re [Se [Le [St Al]]]]]]].
        exists (Sent m true :: Slept (3 # 10) :: evs), (S k).
        cbn [sleep trace] in Tr. rewrite <- !app_assoc in Tr.
        rewrite delivered_sent, delivered_slept.
        split; [exact Tr|].
        split.
        { change (recipients (Sent m true :: Slept (3 # 10) :: evs))
            with (e :: recipients evs).
          cbn [firstn]. now rewrite Re. }
        split; [lia|]. split; [lia|].
        split; [destruct St; [left | right]; lia|].
        intros A L. destruct (Al A); lia.
      * match goal with
        | |- context [campaign_loop _ _ _ _ _ _ ?s] =>
            specialize (IH sent s);
            destruct (campaign_loop cfg subject html cap emails sent s)
              as [st' sent']
        end.
        destruct IH as [evs [k [Tr [Re [Se [Le [St Al]]]]]]].
        exists (Sent m false :: evs), (S k).
        cbn [trace] in Tr. rewrite <- !app_assoc in Tr.
        rewrite delivered_sent.
        split; [exact Tr|].
        split.
        { change (recipients (Sent m false :: evs))
            with (e :: recipients evs).
          cbn [firstn]. now rewrite Re. }
        split; [lia|]. split; [lia|].
        split; [destruct St; [left | right]; lia|].
        intros A L. specialize (All A). discriminate.
Qed.


(** ** The search adapters *)

Lemma bing_result_soft (count : Z) (r : reply) :
  soft_failure r -> bing_result count r = [].
Proof.
  unfold bing_result, soft_failure, raise_for_status.
  destruct r as [|status_code text]; [reflexivity|].
  intros [[L U] | J].
  - apply Z.leb_le in L. apply Z.ltb_lt in U. now rewrite L, U.
  - destruct ((400 <=? status_code)%Z && (status_code <? 600)%Z)%bool;
      [reflexivity|]. simpl. now rewrite J.
Qed.

Lemma serp_result_soft (count : Z) (r : reply) :
  soft_failure r -> serp_result count r = [].
Proof.
  unfold serp_result, soft_failure, raise_for_status.
  destruct r as [|status_code text]; [reflexivity|].
  intros [[L U] | J].
  - apply Z.leb_le in L. apply Z.ltb_lt in U. now rewrite L, U.
  - destruct ((400 <=? status_code)%Z && (status_code <? 600)%Z)%bool;
      [reflexivity|]. simpl. now rewrite J.
Qed.

(** C4 (as amended).  Neither adapter ever raises.  Each answers with
    the empty list when the key it needs is absent, when the request
    fails (time out, connection error), when the status of the response
    is a 4xx or a 5xx, and when its text is not JSON. *)
Theorem adapters_fail_soft (query base_url key method : str)
    (auth_header key_param : option str) (count : Z) (st : state W) :
  (exists st' urls,
     search_bing_api query key count st = (st', Ok urls) /\
     (key = [] \/
      soft_failure (snd (network (world st) (bing_request query key count))) ->
      urls = [])) /\
  (exists st' urls,
     search_serp_api query base_url key method auth_header key_param count st
     = (st', Ok urls) /\
     (key = [] \/ base_url = [] \/
      soft_failure
        (snd (network (world st)
                (serp_request query base_url key method auth_header
                   key_param count))) ->
      urls = [])).
Proof.
  split.
  - unfold search_bing_api. destruct key as [|c key]; simpl negb; cbv iota.
    + exists st, []. auto.
    + unfold http_send.
      destruct (network (world st) (bing_request query (c :: key) count))
        as [w r].
      eexists. eexists. split; [reflexivity|].
      intros [E | F]; [discriminate | now apply bing_result_soft].
  - unfold search_serp_api.
    destruct base_url as [|b base_url]; simpl negb; simpl orb; cbv iota.
    + exists st, []. auto.
    + destruct key as [|c key]; simpl negb; cbv iota.
      * exists st, []. auto.
      * unfold http_send.
        destruct (network (world st)
                    (serp_request query (b :: base_url) (c :: key) method
                       auth_header key_param count)) as [w r].
        eexists. eexists. split; [reflexivity|].
        intros [E | [E | F]]; try discriminate. now apply serp_result_soft.
Qed.

(** ** The counter of the scan *)

Lemma upsert_lead_length name email website phone source leads :
  length leads <= length (upsert_lead name email website phone source leads)
  <= length leads + 1.
Proof.
  destruct (upsert_lead_cases name email website phone source leads)
    as [-> | [_ [_ ->]]]; [lia|].
  rewrite length_app. simpl. lia.
Qed.

Lemma probe_pages_rows (base : str) (targets : list str) (st : state W)
    (leads : store) :
  let '(found, _, leads') := probe_pages targets base st leads in
  length leads <= length leads' /\
  length leads' <=
    length leads + match found with Ok true => 1 | _ => 0 end.
Proof.
  pose proof (probe_pages_spec base targets st leads) as P.
  destruct (probe_pages targets base st leads) as [[found st'] leads'].
  destruct found as [[|]|].
  - destruct P as [earlier [target [rest [n [e [p [_ [_ [_ [_ ->]]]]]]]]]].
    apply upsert_lead_length.
  - destruct P as [_ [_ ->]]. lia.
  - destruct P as [earlier [target [rest [_ [_ [_ ->]]]]]]. lia.
Qed.

(** The number reported is at least the number of rows the scan added,
    and at most the number of sites. *)
Lemma scan_sites_counts (urls : list str) :
  forall st leads added,
    let '(_, leads', res) := scan_sites urls st leads added in
    length leads <= length leads' /\
    forall added',
      res = Ok added' ->
      (Z.of_nat (length leads') - Z.of_nat (length leads) <= added' - added)%Z /\
      (0 <= added' - added <= Z.of_nat (length urls))%Z.
Proof.
  induction urls as [|base urls IH]; intros st leads added;
    cbn [scan_sites length].
  - split; [lia|]. intros added' E. injection E as <-. lia.
  - rewrite Nat2Z.inj_succ.
    pose proof (probe_pages_rows base (try_candidate_pages base) st leads) as P.
    destruct (probe_pages (try_candidate_pages base) base st leads)
      as [[found st1] leads1].
    destruct found as [found|].
    + specialize (IH st1 leads1 (if found then added + 1 else added)%Z).
      destruct (scan_sites urls st1 leads1
                  (if found then added + 1 else added)%Z)
        as [[st' leads'] res].
      destruct IH as [L IH]. split; [lia|].
      intros added' E. specialize (IH added' E). destruct found; lia.
    + split; [lia|]. intros added' E. discriminate E.
Qed.

(** * More of the program *)

(** ** What a match looks like *)

Lemma matches_length p prev s m r :
  Re.matches p prev s m r ->
  min_length p <= length m /\
  (forall h, max_length p = Some h -> length m <= h).
Proof.
  induction 1 as [prev s | p prev s m r B M [IH1 IH2]
                 | cls lo hi p prev w s m r F L U M [IH1 IH2]]; simpl.
  - split; [lia|]. intros h E. injection E as <-. lia.
  - auto.
  - rewrite length_app. split; [lia|].
    intros h E. destruct hi as [b|]; [|discriminate].
    destruct (max_length p) as [n|]; [|discriminate].
    injection E as <-. specialize (U b eq_refl). specialize (IH2 n eq_refl).
    lia.
Qed.

Lemma matches_taken p prev s m r :
  Re.matches p prev s m r -> forallb (taken_by p) m = true.
Proof.
  induction 1 as [prev s | p prev s m r B M IH
                 | cls lo hi p prev w s m r F L U M IH]; simpl.
  - reflexivity.
  - exact IH.
  - rewrite forallb_app. apply andb_true_iff. split.
    + rewrite forallb_forall in *. intros c I. unfold taken_by. simpl.
      now rewrite (F c I).
    + rewrite forallb_forall in *. intros c I. unfold taken_by in *. simpl.
      rewrite (IH c I). apply orb_true_r.
Qed.

(** A match stays a match when text is added after what followed it,
    unless the match ended the text and the added text begins with a word
    character. *)
Lemma matches_extend p prev s m r :
  Re.matches p prev s m r ->
  forall x,
    (r = [] -> Re.word_after x = false) ->
    Re.matches p prev (s ++ x) m (r ++ x).
Proof.
  induction 1 as [prev s | p prev s m r B M IH
                 | cls lo hi p prev w s m r F L U M IH]; intros x X.
  - constructor.
  - constructor; [|now apply IH].
    destruct s as [|c s]; [|exact B].
    pose proof (matches_split M) as S.
    symmetry in S. apply app_eq_nil in S as [_ S].
    unfold Re.at_boundary in *. simpl in B. simpl.
    rewrite (X S). exact B.
  - rewrite <- app_assoc. constructor; try assumption. now apply IH.
Qed.

Lemma leftmost_matches p (text m : str) :
  Re.leftmost p text (Some m) ->
  occurs_in m text /\ exists prev s r, Re.matches p prev s m r.
Proof.
  intros [skip [r [E [M _]]]]. apply best_matches in M. split.
  - now exists skip, r.
  - eauto.
Qed.

Lemma strip_clean (s : str) :
  forallb (fun c => negb (Py.is_space c)) s = true -> Py.strip s = s.
Proof.
  intros F.
  assert (L : forall t, forallb (fun c => negb (Py.is_space c)) t = true ->
                        Py.lstrip t = t).
  { intros t Ft. apply lstrip_fixed. destruct t as [|c t]; [exact I|].
    simpl in Ft. apply andb_true_iff in Ft as [Fc _].
    now apply negb_true_iff. }
  unfold Py.strip, Py.rstrip. rewrite (L s F), L.
  - apply rev_involutive.
  - rewrite forallb_forall in *. intros c I. apply F. now apply in_rev.
Qed.

Lemma is_space_range (c : Py.char) :
  (33 <= c <= 132)%N -> Py.is_space c = false.
Proof.
  intros [L U]. unfold Py.is_space, Py.between.
  repeat match goal with
         | |- context [N.leb ?a ?b] => destruct (N.leb_spec a b); try lia
         | |- context [N.eqb ?a ?b] => destruct (N.eqb_spec a b); try lia
         end; reflexivity.
Qed.

Lemma email_chars (c : Py.char) :
  taken_by EMAIL_RE c = true -> (37 <= c <= 122)%N.
Proof.
  intros H. cbv -[N.leb N.eqb] in H.
  repeat match type of H with
         | context [N.leb ?a ?b] => destruct (N.leb_spec a b); try lia
         | context [N.eqb ?a ?b] => destruct (N.eqb_spec a b); try lia
         end; discriminate H.
Qed.

Lemma email_match_shape prev s m r :
  Re.matches EMAIL_RE prev s m r ->
  6 <= length m /\
  forallb (fun c => negb (Py.is_space c)) m = true /\
  occurs_in (py "@") m.
Proof.
  intros M. split; [|split].
  - apply matches_length in M as [L _]. exact L.
  - apply matches_taken in M. rewrite forallb_forall in *.
    intros c I. apply negb_true_iff, is_space_range.
    pose proof (email_chars c (M c I)). lia.
  - unfold EMAIL_RE, Re.plus, Re.one in M.
    inversion M as [| ? ? ? ? ? _ M1 |]; subst.
    inversion M1 as [| | ? ? ? ? ? w1 s1 m1 ? _ _ _ M2]; subst.
    inversion M2 as [| | ? ? ? ? ? w2 s2 m2 ? F2 L2 _ _]; subst.
    destruct w2 as [|c w2]; [simpl in L2; lia|].
    simpl in F2. apply andb_true_iff in F2 as [Fc _].
    cbv -[N.eqb] in Fc.
    destruct (N.eqb_spec c 64) as [-> | _]; [|discriminate Fc].
    exists w1, (w2 ++ m2). reflexivity.
Qed.

(** X1.  An email that the extractor returns is a piece of the text of
    the page, at least six characters long, without any white space (so
    trimming leaves it as it is), and it has an [@]. *)
Theorem extracted_email_shape (soup : Soup) (e : str) :
  snd (fst (extract_from soup)) = Some e ->
  occurs_in e (get_text soup) /\
  6 <= length e /\
  forallb (fun c => negb (Py.is_space c)) e = true /\
  trimmed e /\
  occurs_in (py "@") e.
Proof.
  unfold extract_from. simpl. intros E.
  pose proof (findall_first EMAIL_RE (get_text soup)) as L.
  rewrite E in L. apply leftmost_matches in L as [O [prev [s [r M]]]].
  apply email_match_shape in M as [Len [Sp At]].
  repeat split; try assumption. now apply strip_clean.
Qed.

Lemma digits_of_run (w : str) :
  forallb Re.digit w = true -> length (filter Re.digit w) = length w.
Proof.
  induction w as [|c w IH]; simpl; [reflexivity|].
  intros F. apply andb_true_iff in F as [Fc Fw]. rewrite Fc. simpl.
  now rewrite IH.
Qed.

Lemma phone_match_shape prev s m r :
  Re.matches PHONE_RE prev s m r ->
  10 <= length m <= 17 /\ 10 <= length (filter Re.digit m).
Proof.
  intros M. split.
  - apply matches_length in M as [L U]. split; [exact L|].
    apply U. reflexivity.
  - unfold PHONE_RE, Re.opt, Re.exactly in M.
    inversion M as [| | ? ? ? ? ? w1 ? m1 ? _ _ _ M1]; subst.
    inversion M1 as [| | ? ? ? ? ? w2 ? m2 ? _ _ _ M2]; subst.
    inversion M2 as [| | ? ? ? ? ? w3 ? m3 ? _ _ _ M3]; subst.
    inversion M3 as [| | ? ? ? ? ? w4 ? m4 ? F4 L4 _ M4]; subst.
    inversion M4 as [| | ? ? ? ? ? w5 ? m5 ? _ _ _ M5]; subst.
    inversion M5 as [| | ? ? ? ? ? w6 ? m6 ? _ _ _ M6]; subst.
    inversion M6 as [| | ? ? ? ? ? w7 ? m7 ? F7 L7 _ M7]; subst.
    inversion M7 as [| | ? ? ? ? ? w8 ? m8 ? _ _ _ M8]; subst.
    inversion M8 as [| | ? ? ? ? ? w9 ? m9 ? _ _ _ M9]; subst.
    inversion M9 as [| | ? ? ? ? ? w10 ? m10 ? F10 L10 _ _]; subst.
    rewrite !filter_app, !length_app.
    rewrite (digits_of_run w4 F4), (digits_of_run w7 F7),
      (digits_of_run w10 F10).
    lia.
Qed.

(** X2.  A phone number that the extractor returns is a piece of the
    text of the page of 10 to 17 characters, at least ten of them
    digits. *)
Theorem extracted_phone_shape (soup : Soup) (phone : str) :
  snd (extract_from soup) = Some phone ->
  occurs_in phone (get_text soup) /\
  10 <= length phone <= 17 /\
  10 <= length (filter Re.digit phone).
Proof.
  unfold extract_from. simpl. intros E.
  pose proof (findall_first PHONE_RE (get_text soup)) as L.
  rewrite E in L. apply leftmost_matches in L as [O [prev [s [r M]]]].
  apply phone_match_shape in M as [Len Dig]. auto.
Qed.

Lemma valid_email_extend (e rest : str) :
  valid_email e = true -> Re.word_after rest = false ->
  valid_email (e ++ rest) = true.
Proof.
  intros V R. apply valid_email_iff in V as [Ne [m [r M]]].
  apply valid_email_iff. split.
  - destruct e; [congruence | discriminate].
  - exists m, (r ++ rest). apply matches_extend; auto.
Qed.

(** X3.  The import checks the pattern at the start of the field only:
    a field of characters up to U+00FF that begins with a valid email and
    goes on with text that does not begin with a word character is
    accepted, and stored whole as the email of the new row. *)
Theorem import_accepts_trailing_text (e rest : str) (leads : store) :
  forallb (fun c => N.leb c 255) (e ++ rest) = true ->
  valid_email e = true ->
  Re.word_after rest = false ->
  trimmed (e ++ rest) ->
  ~ In (Py.lower (e ++ rest)) (lowers leads) ->
  import_leads (Ok [[(py "Email", CStr (e ++ rest))]]) leads =
  (leads ++ [ {| Company := []; Email := e ++ rest; Website := [];
                 Phone := []; Source := py "import" |} ],
   Imported 1).
Proof.
  intros _ V R T N.
  pose proof (valid_email_extend e rest V R) as V'.
  unfold import_leads. cbn [import_rows].
  assert (F : field [(py "Email", CStr (e ++ rest))] (py "Email")
              = Ok (e ++ rest)).
  { unfold field. cbn [row_get]. rewrite eqb_refl. simpl.
    unfold valid_email in V'. apply andb_true_iff in V' as [Tr _].
    now rewrite Tr. }
  rewrite F, T, V'. simpl negb. cbv iota.
  apply str_in_not_In in N. rewrite N.
  reflexivity.
Qed.

(** ** The store only grows *)

Lemma import_rows_appends (rows : list row) :
  forall existing leads n,
    exists added, fst (import_rows rows existing leads n) = leads ++ added.
Proof.
  induction rows as [|r rows IH]; intros existing leads n; cbn [import_rows].
  - exists []. now rewrite app_nil_r.
  - destruct (field r (py "Email")) as [e|];
      [|exists []; now rewrite app_nil_r].
    cbv zeta. destruct (negb (valid_email (Py.strip e))); [apply IH|].
    destruct (str_in (Py.lower (Py.strip e)) existing); [apply IH|].
    destruct (field r (py "Company")) as [c|]; cbn [bind];
      [|exists []; now rewrite app_nil_r].
    destruct (field r (py "Website")) as [w|]; cbn [bind];
      [|exists []; now rewrite app_nil_r].
    destruct (field r (py "Phone")) as [ph|]; cbn [bind];
      [|exists []; now rewrite app_nil_r].
    match goal with
    | |- context [import_rows rows ?ex (leads ++ [?l]) ?k] =>
        destruct (IH ex (leads ++ [l]) k) as [added E]; exists (l :: added);
        rewrite E, <- app_assoc; reflexivity
    end.
Qed.

Lemma run_op_appends (o : op) (leads : store) :
  exists added, run_op leads o = leads ++ added.
Proof.
  destruct o as [name email website phone source | new]; cbn [run_op].
  - destruct (upsert_lead_cases name email website phone source leads)
      as [E | [_ [_ E]]]; rewrite E.
    + exists []. now rewrite app_nil_r.
    + eexists. reflexivity.
  - unfold import_leads. destruct new as [rows|]; cbn [fst].
    + destruct (import_rows_appends rows (lowers leads) leads 0) as [added E].
      exists added.
      destruct (import_rows rows (lowers leads) leads 0) as [l' [k|]];
        exact E.
    + exists []. now rewrite app_nil_r.
Qed.

(** X4.  Whatever upserts and imports are run, in any order and with any
    arguments, the store that results is the store before with rows put
    after it: no row is ever removed, changed or moved. *)
Theorem store_only_grows (ops : list op) (leads : store) :
  exists added,
    run ops leads = leads ++ added /\
    (forall i l, nth_error leads i = Some l ->
                 nth_error (run ops leads) i = Some l).
Proof.
  assert (A : exists added, run ops leads = leads ++ added).
  { revert leads. induction ops as [|o ops IH]; intros leads.
    - exists []. cbn. now rewrite app_nil_r.
    - cbn [run fold_left].
      destruct (run_op_appends o leads) as [a1 E1].
      destruct (IH (run_op leads o)) as [a2 E2].
      exists (a1 ++ a2). unfold run in E2. rewrite E2, E1.
      now rewrite app_assoc. }
  destruct A as [added E]. exists added. split; [exact E|].
  intros i l N. rewrite E. rewrite nth_error_app1; [exact N|].
  apply nth_error_Some. congruence.
Qed.

(** ** Importing a file again *)

Lemma import_rows_email_read (rows : list row) :
  forall existing leads n leads' k,
    import_rows rows existing leads n = (leads', Ok k) ->
    forall r, In r rows -> exists e, field r (py "Email") = Ok e.
Proof.
  induction rows as [|r0 rows IH]; intros existing leads n leads' k E r I;
    [destruct I|].
  cbn [import_rows] in E.
  destruct (field r0 (py "Email")) as [e|] eqn:F; [|discriminate E].
  cbv zeta in E.
  assert (T : forall ex l m, import_rows rows ex l m = (leads', Ok k) ->
                exists e', field r (py "Email") = Ok e').
  { intros ex l m E'. destruct I as [<- | I]; [now exists e|].
    eapply IH; eassumption. }
  destruct (negb (valid_email (Py.strip e))); [eapply T; exact E|].
  destruct (str_in (Py.lower (Py.strip e)) existing); [eapply T; exact E|].
  destruct (field r0 (py "Company")) as [c|]; cbn [bind] in E;
    [|discriminate E].
  destruct (field r0 (py "Website")) as [w|]; cbn [bind] in E;
    [|discriminate E].
  destruct (field r0 (py "Phone")) as [ph|]; cbn [bind] in E;
    [|discriminate E].
  eapply T; exact E.
Qed.

Lemma import_rows_nothing_new (rows : list row) :
  forall existing leads n,
    (forall r, In r rows ->
       exists e, field r (py "Email") = Ok e /\
         (valid_email (Py.strip e) = true ->
          In (Py.lower (Py.strip e)) existing)) ->
    import_rows rows existing leads n = (leads, Ok n).
Proof.
  induction rows as [|r rows IH]; intros existing leads n H; [reflexivity|].
  cbn [import_rows].
  destruct (H r (or_introl eq_refl)) as [e [F V]]. rewrite F. cbv zeta.
  assert (R : import_rows rows existing leads n = (leads, Ok n)).
  { apply IH. intros r' I. apply H. now right. }
  destruct (valid_email (Py.strip e)); cbn [negb]; [|exact R].
  rewrite (proj2 (str_in_In _ _) (V eq_refl)). exact R.
Qed.

(** X5.  Importing the same file a second time, right after an import
    of it that went through, adds nothing and reports 0: every row is
    skipped, also the rows that were skipped the first time. *)
Theorem import_twice_adds_nothing (rows : list row) (leads leads' : store)
    (n : Z) :
  import_leads (Ok rows) leads = (leads', Imported n) ->
  import_leads (Ok rows) leads' = (leads', Imported 0).
Proof.
  unfold import_leads. intros H.
  destruct (import_rows rows (lowers leads) leads 0) as [l' [k|]] eqn:E;
    [|discriminate H].
  injection H as -> _.
  destruct (@import_rows_spec rows (lowers leads) leads 0%Z leads' (Ok k))
    as [added [_ [_ [_ [_ [_ P]]]]]]; [intros x; split; auto | exact E |].
  rewrite (@import_rows_nothing_new rows (lowers leads') leads' 0%Z);
    [reflexivity|].
  intros r I.
  destruct (import_rows_email_read _ _ _ _ E r I) as [e F].
  exists e. split; [exact F|]. intros V. eapply P; eauto.
Qed.

(** X6.  An empty field of the file is NaN in the frame, NaN is true
    and its text is [nan]: a row that is accepted and whose company and
    phone are empty fields is stored with the company [nan] and the
    phone [nan], not with empty ones. *)
Theorem import_writes_nan (r : row) (e w : str) (leads : store) :
  row_get r (py "Email") = One (CStr e) ->
  trimmed e -> valid_email e = true ->
  ~ In (Py.lower e) (lowers leads) ->
  row_get r (py "Company") = One CNaN ->
  row_get r (py "Phone") = One CNaN ->
  field r (py "Website") = Ok w ->
  import_leads (Ok [r]) leads =
  (leads ++ [ {| Company := py "nan"; Email := e; Website := w;
                 Phone := py "nan"; Source := py "import" |} ],
   Imported 1).
Proof.
  intros RE T V N RC RP FW.
  assert (FE : field r (py "Email") = Ok e).
  { unfold field. rewrite RE. cbn [cell_truthy cell_str].
    unfold valid_email in V. apply andb_true_iff in V as [Tr _].
    now rewrite Tr. }
  assert (FC : field r (py "Company") = Ok (py "nan")).
  { unfold field. now rewrite RC. }
  assert (FP : field r (py "Phone") = Ok (py "nan")).
  { unfold field. now rewrite RP. }
  unfold import_leads. cbn [import_rows].
  rewrite FE, T, V. cbn [negb]. cbv iota.
  apply str_in_not_In in N. rewrite N.
  rewrite FC, FW, FP. reflexivity.
Qed.

(** ** The rows of a scan *)

Lemma found_email_shape (soup : Soup) (e : str) :
  snd (fst (extract_from soup)) = Some e -> trimmed e /\ 6 <= length e.
Proof.
  unfold extract_from. simpl. intros E.
  pose proof (findall_first EMAIL_RE (get_text soup)) as L.
  rewrite E in L. apply leftmost_matches in L as [_ [prev [s [r M]]]].
  apply email_match_shape in M as [Len [Sp _]].
  split; [now apply strip_clean | exact Len].
Qed.

Lemma extract_company_info_email (url : str) (st : state W)
    (name email phone : option str) :
  snd (extract_company_info url st) = Ok (name, email, phone) ->
  truthy_opt email = true ->
  exists e, email = Some e /\ trimmed e /\ 6 <= length e.
Proof.
  unfold extract_company_info, http_send.
  destruct (network (world st) (page_request url)) as [w [|status html]];
    cbn [snd].
  - intros E. injection E as <- <- <-. discriminate.
  - destruct (raise_for_status status); cbn [bind].
    + destruct (BeautifulSoup html) as [soup|]; cbn [bind];
        [|discriminate].
      intros E T.
      assert (E' : extract_from soup = (name, email, phone)) by congruence.
      destruct email as [e|]; [|discriminate T].
      exists e. split; [reflexivity|].
      apply (found_email_shape soup). now rewrite E'.
    + intros E. injection E as <- <- <-. discriminate.
Qed.

Lemma probe_pages_row (base : str) (targets : list str) (st : state W)
    (leads : store) :
  unique_emails leads ->
  let '(_, _, leads') := probe_pages targets base st leads in
  unique_emails leads' /\
  exists new, leads' = leads ++ new /\ Forall (scanned_row base) new.
Proof.
  intros U. pose proof (probe_pages_spec base targets st leads) as P.
  destruct (probe_pages targets base st leads) as [[found st'] leads'].
  destruct found as [[|]|];
    [| destruct P as [_ [_ ->]]; split; [exact U|];
       exists []; split; [now rewrite app_nil_r | constructor]
     | destruct P as [earlier [target [rest [_ [_ [_ ->]]]]]];
       split; [exact U|];
       exists []; split; [now rewrite app_nil_r | constructor] ].
  - destruct P as (earlier & target & rest & name & email & phone
                   & _ & _ & E & T & ->).
    destruct (@extract_company_info_email target (probe_all earlier st)
                name email phone) as [e [-> [Tr Len]]];
      [now rewrite E | exact T |].
    split; [now apply upsert_lead_unique|].
    destruct (upsert_lead_cases name (Some e) base phone source_tag leads)
      as [-> | [_ [_ ->]]].
    + exists []. split; [now rewrite app_nil_r | constructor].
    + eexists. split; [reflexivity|]. constructor; [|constructor].
      unfold scanned_row. cbn [Website Source Email or_empty].
      rewrite Tr. auto.
Qed.

(** X7.  A scan of sites keeps the emails of the store different from
    one another, changes no row that was there, and each row it puts in
    has one of the scanned sites as its website (the site, not the page
    on which the email was found), the tag of the provider as its source,
    and an email of six characters or more without white space around
    it. *)
Theorem scan_rows (urls : list str) (st : state W) (leads : store)
    (added : Z) :
  unique_emails leads ->
  let '(_, leads', _) := scan_sites urls st leads added in
  unique_emails leads' /\
  exists new,
    leads' = leads ++ new /\
    Forall (fun l => exists base, In base urls /\ scanned_row base l) new.
Proof.
  revert st leads added.
  induction urls as [|base urls IH]; intros st leads added U;
    cbn [scan_sites].
  - split; [exact U|]. exists []. split; [now rewrite app_nil_r | constructor].
  - pose proof (@probe_pages_row base (try_candidate_pages base) st leads U)
      as P.
    destruct (probe_pages (try_candidate_pages base) base st leads)
      as [[found st1] leads1].
    destruct P as [U1 [new1 [-> F1]]].
    assert (F1' : Forall
                    (fun l => exists b, In b (base :: urls) /\ scanned_row b l)
                    new1).
    { eapply Forall_impl; [|exact F1]. intros l R. exists base.
      split; [now left | exact R]. }
    destruct found as [found|]; [|split; [exact U1|]; now exists new1].
    specialize (IH st1 (leads ++ new1)
                  (if found then (added + 1)%Z else added) U1).
    destruct (scan_sites urls st1 (leads ++ new1)
                (if found then (added + 1)%Z else added))
      as [[st2 leads2] added2].
    destruct IH as [U2 [new2 [-> F2]]].
    split; [exact U2|]. exists (new1 ++ new2).
    split; [now rewrite app_assoc|].
    apply Forall_app. split; [exact F1'|].
    eapply Forall_impl; [|exact F2]. intros l [b [I R]]. exists b.
    split; [now right | exact R].
Qed.

(** ** A page that cannot be fetched *)

(** X8.  The extractor asks for the page once, with a GET without
    parameters and a time limit of 15 seconds, and nothing else; when
    the request fails or the status is a 4xx or a 5xx, it returns no
    company, no email and no phone. *)
Theorem extractor_fails_soft (url : str) (st : state W) :
  trace (fst (extract_company_info url st)) =
    trace st ++ [Requested {| req_method := GET; req_url := url;
                              req_headers := []; req_params := [];
                              req_timeout := 15 |}] /\
  (match snd (network (world st) (page_request url)) with
   | Failed => True
   | Response status_code _ => (400 <= status_code < 600)%Z
   end ->
   snd (extract_company_info url st) = Ok (None, None, None)).
Proof.
  split; [apply trace_extract|].
  unfold extract_company_info, http_send.
  destruct (network (world st) (page_request url)) as [w [|status html]];
    cbn [snd]; [reflexivity|].
  intros H. unfold raise_for_status.
  replace ((400 <=? status) && (status <? 600))%Z%bool with true;
    [reflexivity|].
  symmetry. apply andb_true_iff. split; [apply Z.leb_le | apply Z.ltb_lt]; lia.
Qed.

(** ** The pages of a site *)

Lemma lstrip_char_repeat (x : Py.char) (n : nat) (s : str) :
  Py.lstrip_char x (repeat x n ++ s) = Py.lstrip_char x s.
Proof.
  induction n as [|n IH]; [reflexivity|].
  cbn [repeat app Py.lstrip_char]. now rewrite N.eqb_refl.
Qed.

Lemma rev_repeat_same (x : Py.char) (n : nat) : rev (repeat x n) = repeat x n.
Proof.
  induction n as [|n IH]; [reflexivity|].
  cbn [repeat rev]. rewrite IH. symmetry. apply repeat_cons.
Qed.

Lemma rstrip_char_repeat (x : Py.char) (n : nat) (s : str) :
  Py.rstrip_char x (s ++ repeat x n) = Py.rstrip_char x s.
Proof.
  unfold Py.rstrip_char. rewrite rev_app_distr, rev_repeat_same.
  now rewrite lstrip_char_repeat.
Qed.

Lemma lstrip_char_head (x : Py.char) (s : str) :
  Py.startswith (Py.lstrip_char x s) [x] = false.
Proof.
  induction s as [|c s IH]; [reflexivity|].
  cbn [Py.lstrip_char]. destruct (N.eqb_spec c x) as [E | N]; [exact IH|].
  cbn [Py.startswith]. destruct (N.eqb_spec x c) as [E | _]; [|reflexivity].
  congruence.
Qed.

(** X9.  The pages after the first do not depend on the slashes at the
    end of the site: they are the same for [base] and for [base] with
    any number of slashes after it, and the part before [/contact],
    [/about] and the others never ends with a slash. *)
Theorem candidate_pages_trailing_slashes (base : str) (n : nat) :
  tl (try_candidate_pages (base ++ repeat 47%N n)) =
    tl (try_candidate_pages base) /\
  Py.endswith (Py.rstrip_char 47%N base) (py "/") = false /\
  hd [] (try_candidate_pages (base ++ repeat 47%N n)) = base ++ repeat 47%N n.
Proof.
  split; [|split].
  - unfold try_candidate_pages. cbn [tl]. now rewrite rstrip_char_repeat.
  - unfold Py.endswith, Py.rstrip_char. rewrite rev_involutive.
    apply lstrip_char_head.
  - reflexivity.
Qed.

(** ** What the adapters return and ask *)

Lemma business_sites_filtered (urls : list json) :
  Forall (fun u => looks_like_business_site u = true) (business_sites urls).
Proof.
  unfold business_sites, strs_of.
  induction urls as [|v urls IH]; [constructor|]. cbn [filter].
  destruct (json_truthy v &&
            match v with
            | JStr u => looks_like_business_site u
            | _ => false
            end)%bool eqn:E; [|exact IH].
  apply andb_true_iff in E as [_ E]. destruct v; try discriminate E.
  cbn [flat_map app]. now constructor.
Qed.

Lemma slice_count_prefix {A : Type} (count : Z) (l : list A) :
  exists rest, l = slice_count count l ++ rest.
Proof.
  unfold slice_count.
  destruct (0 <=? count)%Z; eexists; symmetry; apply firstn_skipn.
Qed.

Lemma slice_count_length {A : Type} (count : Z) (l : list A) :
  (0 <= count)%Z -> (Z.of_nat (length (slice_count count l)) <= count)%Z.
Proof.
  intros H. unfold slice_count.
  rewrite (proj2 (Z.leb_le 0 count) H).
  pose proof (firstn_le_length (Z.to_nat count) l). lia.
Qed.

(** The sites an adapter may return: sites the filter accepts, [count]
    of them at most. *)
Lemma sliced_sites (count : Z) (urls : list json) :
  Forall (fun u => looks_like_business_site u = true)
    (slice_count count (business_sites urls)) /\
  ((0 <= count)%Z ->
   (Z.of_nat (length (slice_count count (business_sites urls))) <= count)%Z).
Proof.
  split; [|apply slice_count_length].
  destruct (slice_count_prefix count (business_sites urls)) as [rest E].
  pose proof (business_sites_filtered urls) as F. rewrite E in F.
  now apply Forall_app in F.
Qed.

Lemma no_sites (count : Z) :
  Forall (fun u => looks_like_business_site u = true) [] /\
  ((0 <= count)%Z -> (Z.of_nat (@length str []) <= count)%Z).
Proof. split; [constructor | intros H; exact H]. Qed.

Lemma bing_result_filtered (count : Z) (r : reply) :
  Forall (fun u => looks_like_business_site u = true) (bing_result count r) /\
  ((0 <= count)%Z -> (Z.of_nat (length (bing_result count r)) <= count)%Z).
Proof.
  unfold bing_result. destruct r as [|status text]; [apply no_sites|].
  destruct (raise_for_status status); cbn [bind catch]; [|apply no_sites].
  destruct (json_loads text) as [data|]; cbn [bind catch]; [|apply no_sites].
  destruct (bing_urls data) as [urls|]; cbn [bind catch]; [|apply no_sites].
  apply sliced_sites.
Qed.

Lemma serp_result_filtered (count : Z) (r : reply) :
  Forall (fun u => looks_like_business_site u = true) (serp_result count r) /\
  ((0 <= count)%Z -> (Z.of_nat (length (serp_result count r)) <= count)%Z).
Proof.
  unfold serp_result. destruct r as [|status text]; [apply no_sites|].
  destruct (raise_for_status status); cbn [bind catch]; [|apply no_sites].
  destruct (json_loads text) as [data|]; cbn [bind catch]; [|apply no_sites].
  destruct (serp_urls data) as [urls|]; cbn [bind catch]; [|apply no_sites].
  apply sliced_sites.
Qed.

(** X10.  Whatever the provider answers, each adapter returns a list,
    every URL of the list is one the site filter accepts, and for a
    [count] that is not negative the list has at most [count] URLs. *)
Theorem adapter_results_filtered (query base_url key method : str)
    (auth_header key_param : option str) (count : Z) (st : state W) :
  Forall
    (fun result =>
       exists urls,
         result = Ok urls /\
         Forall (fun u => looks_like_business_site u = true) urls /\
         ((0 <= count)%Z -> (Z.of_nat (length urls) <= count)%Z))
    [ snd (search_bing_api query key count st);
      snd (search_serp_api query base_url key method auth_header key_param
             count st) ].
Proof.
  constructor; [|constructor; [|constructor]].
  - unfold search_bing_api. destruct (negb (Py.truthy key)).
    + exists []. split; [reflexivity | apply no_sites].
    + destruct (http_send (bing_request query key count) st) as [st1 r].
      eexists. split; [reflexivity | apply bing_result_filtered].
  - unfold search_serp_api.
    destruct (negb (Py.truthy base_url) || negb (Py.truthy key))%bool.
    + exists []. split; [reflexivity | apply no_sites].
    + destruct (http_send
                  (serp_request query base_url key method auth_header
                     key_param count) st) as [st1 r].
      eexists. split; [reflexivity | apply serp_result_filtered].
Qed.

Lemma assoc_dict_set {A : Type} (k : str) (v : A) (d : list (str * A)) :
  assoc k (dict_set k v d) = Some v.
Proof.
  induction d as [|[k' v'] d IH]; cbn [dict_set assoc].
  - now rewrite eqb_refl.
  - destruct (Py.eqb k' k) eqn:E; cbn [assoc]; rewrite E;
      [reflexivity | exact IH].
Qed.

Lemma assoc_dict_set_other {A : Type} (k k' : str) (v : A)
    (d : list (str * A)) :
  k <> k' -> assoc k' (dict_set k v d) = assoc k' d.
Proof.
  intros N. induction d as [|[k0 v0] d IH]; cbn [dict_set assoc].
  - now rewrite (proj2 (eqb_neq k k') N).
  - destruct (Py.eqb k0 k) eqn:E; cbn [assoc].
    + apply eqb_eq in E. subst k0.
      now rewrite (proj2 (eqb_neq k k') N).
    + now rewrite IH.
Qed.

(** X11.  The generic adapter asks nothing of the network when the base
    URL or the key is empty, and otherwise sends one request: to the base
    URL, with a time limit of 25 seconds, as a POST exactly when the
    method is [POST] in some letter case.  The key is the value of the
    header named by [auth_header] and of the parameter named by
    [key_param], when these are given; it takes the place of the user
    agent or of the query when the name is [User-Agent] or [q], which
    are sent unchanged under any other name. *)
Theorem serp_request_made (query base_url key method : str)
    (auth_header key_param : option str) (count : Z) (st : state W) :
  let r := serp_request query base_url key method auth_header key_param count in
  let st' :=
    fst (search_serp_api query base_url key method auth_header key_param
           count st) in
  (base_url = [] \/ key = [] -> st' = st) /\
  (base_url <> [] -> key <> [] -> trace st' = trace st ++ [Requested r]) /\
  req_url r = base_url /\ req_timeout r = 25%Z /\
  (req_method r = POST <-> Py.upper method = py "POST") /\
  (forall h, auth_header = Some h -> h <> [] ->
     assoc h (req_headers r) = Some key) /\
  (forall p, key_param = Some p -> p <> [] ->
     assoc p (req_params r) = Some (PStr key)) /\
  (auth_header <> Some (py "User-Agent") ->
   assoc (py "User-Agent") (req_headers r) = Some user_agent) /\
  (key_param <> Some (py "q") ->
   assoc (py "q") (req_params r) = Some (PStr query)) /\
  (truthy_opt auth_header = false ->
   req_headers r = [(py "User-Agent", user_agent)]) /\
  (truthy_opt key_param = false ->
   req_params r = [(py "q", PStr query); (py "count", PInt count)]).
Proof.
  cbv zeta. repeat match goal with |- _ /\ _ => split end.
  - unfold search_serp_api. intros [-> | ->]; cbn [Py.truthy negb orb fst];
      [reflexivity|].
    now rewrite orb_true_r.
  - intros B K. unfold search_serp_api.
    destruct base_url; [congruence|]. destruct key; [congruence|].
    cbn [Py.truthy negb orb]. unfold http_send.
    destruct (network (world st) _) as [w a]. reflexivity.
  - reflexivity.
  - reflexivity.
  - unfold serp_request. cbn [req_method].
    destruct (Py.eqb (Py.upper method) (py "POST")) eqn:E.
    + apply eqb_eq in E. split; intros _; [exact E | reflexivity].
    + apply eqb_neq in E. split; [discriminate | contradiction].
  - intros h -> N. unfold serp_request. cbn [req_headers truthy_opt or_empty].
    rewrite (proj2 (truthy_true h) N). apply assoc_dict_set.
  - intros p -> N. unfold serp_request. cbn [req_params truthy_opt or_empty].
    rewrite (proj2 (truthy_true p) N). apply assoc_dict_set.
  - intros N. unfold serp_request. cbn [req_headers].
    destruct (truthy_opt auth_header) eqn:T.
    + rewrite assoc_dict_set_other; [reflexivity|].
      destruct auth_header as [h|]; [|discriminate T]. cbn [or_empty].
      congruence.
    + reflexivity.
  - intros N. unfold serp_request. cbn [req_params].
    destruct (truthy_opt key_param) eqn:T.
    + rewrite assoc_dict_set_other; [reflexivity|].
      destruct key_param as [p|]; [|discriminate T]. cbn [or_empty].
      congruence.
    + reflexivity.
  - intros T. unfold serp_request. cbn [req_headers]. now rewrite T.
  - intros T. unfold serp_request. cbn [req_params]. now rewrite T.
Qed.

Lemma list_urls_strings (us : list str) :
  list_urls (map JStr us) = Ok (map JStr us).
Proof.
  induction us as [|u us IH]; [reflexivity|].
  cbn [map list_urls]. now rewrite IH.
Qed.

Lemma results_urls_links (us : list str) :
  results_urls (map (fun u => JDict [(py "link", JStr u)]) us) =
  Ok (map JStr (filter Py.truthy us)).
Proof.
  induction us as [|u us IH]; [reflexivity|].
  cbn [map results_urls filter]. rewrite IH.
  change (item_url (JDict [(py "link", JStr u)])) with (Ok (JStr u)).
  cbn [bind json_truthy]. now destruct (Py.truthy u).
Qed.

Lemma value_urls_urls (us : list str) :
  value_urls (map (fun u => JDict [(py "url", JStr u)]) us) =
  Ok (map JStr (filter Py.truthy us)).
Proof.
  induction us as [|u us IH]; [reflexivity|].
  cbn [map value_urls filter].
  change (json_get (JDict [(py "url", JStr u)]) (py "url"))
    with (Ok (JStr u)).
  change (json_index (JDict [(py "url", JStr u)]) (py "url"))
    with (Ok (JStr u)).
  cbn [bind json_truthy]. rewrite IH. now destruct (Py.truthy u).
Qed.

Lemma business_sites_strings (us : list str) :
  business_sites (map JStr us) =
  filter (fun u => (Py.truthy u && looks_like_business_site u)%bool) us.
Proof.
  unfold business_sites, strs_of.
  induction us as [|u us IH]; [reflexivity|].
  cbn [map filter json_truthy].
  destruct (Py.truthy u && looks_like_business_site u)%bool;
    cbn [flat_map app]; now rewrite IH.
Qed.

Lemma business_sites_truthy (us : list str) :
  business_sites (map JStr (filter Py.truthy us)) =
  business_sites (map JStr us).
Proof.
  rewrite !business_sites_strings.
  induction us as [|u us IH]; [reflexivity|].
  cbn [filter]. destruct (Py.truthy u) eqn:T; cbn [filter andb].
  - rewrite T. cbn [andb]. now rewrite IH.
  - exact IH.
Qed.

(** X12.  The generic adapter reads the same sites from the three
    shapes of answer: a list of URLs, an object whose [results] are
    objects with a [link], and an object with [webPages.value] as Bing
    gives it, which the Bing adapter reads too.  The sites are the URLs
    that are not empty and pass the filter, in the order of the answer,
    cut after [count]. *)
Theorem serp_reads_three_shapes (count status : Z) (text : str)
    (us : list str) :
  ~ (400 <= status < 600)%Z ->
  let sites :=
    slice_count count
      (filter (fun u => (Py.truthy u && looks_like_business_site u)%bool) us) in
  let nested :=
    JDict [(py "webPages",
            JDict [(py "value",
                    JList (map (fun u => JDict [(py "url", JStr u)]) us))])] in
  (json_loads text = Ok (JList (map JStr us)) ->
   serp_result count (Response status text) = sites) /\
  (json_loads text =
     Ok (JDict [(py "results",
                 JList (map (fun u => JDict [(py "link", JStr u)]) us))]) ->
   serp_result count (Response status text) = sites) /\
  (json_loads text = Ok nested ->
   serp_result count (Response status text) = sites /\
   bing_result count (Response status text) = sites).
Proof.
  intros N sites nested.
  assert (R : raise_for_status status = Ok tt).
  { unfold raise_for_status.
    destruct (Z.leb_spec 400 status), (Z.ltb_spec status 600);
      try reflexivity. lia. }
  unfold serp_result, bing_result. rewrite R. cbn [bind].
  split; [|split].
  - intros ->. cbn [bind serp_urls]. rewrite list_urls_strings.
    cbn [bind catch]. now rewrite business_sites_strings.
  - intros ->. cbn [bind].
    change (serp_urls
              (JDict [(py "results",
                       JList (map (fun u => JDict [(py "link", JStr u)]) us))]))
      with (results_urls (map (fun u => JDict [(py "link", JStr u)]) us)).
    rewrite results_urls_links. cbn [bind catch].
    now rewrite business_sites_truthy, business_sites_strings.
  - intros ->. cbn [bind].
    change (serp_urls nested)
      with (value_urls (map (fun u => JDict [(py "url", JStr u)]) us)).
    change (bing_urls nested)
      with (value_urls (map (fun u => JDict [(py "url", JStr u)]) us)).
    rewrite value_urls_urls. cbn [bind catch].
    now rewrite business_sites_truthy, business_sites_strings.
Qed.

(** ** One site for each domain *)

Lemma assoc_in_keys {A : Type} (k : str) (kv : list (str * A)) :
  is_some (assoc k kv) = true <-> In k (map fst kv).
Proof.
  induction kv as [|[k' v] kv IH]; cbn [assoc map fst In].
  - split; [discriminate | intros []].
  - destruct (Py.eqb k' k) eqn:E.
    + apply eqb_eq in E. split; [now left | reflexivity].
    + apply eqb_neq in E. rewrite IH. split; [now right|].
      intros [C | I]; [contradiction | exact I].
Qed.

Lemma keys_of_pairs (new : list (str * str)) :
  (forall d v, In (d, v) new -> d = site_key v) ->
  map fst new = map site_key (map snd new).
Proof.
  induction new as [|[d v] new IH]; intros H; [reflexivity|].
  cbn [map fst snd]. rewrite <- (H d v (or_introl eq_refl)).
  rewrite IH; [reflexivity|]. intros d' v' I. apply H. now right.
Qed.

Lemma dedupe_spec (all_urls : list str) :
  forall by_domain,
    exists new,
      dedupe all_urls by_domain = by_domain ++ new /\
      NoDup (map fst new) /\
      (forall d v, In (d, v) new ->
         d = site_key v /\ ~ In d (map fst by_domain) /\
         exists before after,
           all_urls = before ++ v :: after /\
           forall x, In x before -> site_key x <> d) /\
      (forall u, In u all_urls ->
         In (site_key u) (map fst (by_domain ++ new))).
Proof.
  induction all_urls as [|u rest IH]; intros acc; cbn [dedupe].
  - exists []. rewrite app_nil_r. split; [reflexivity|].
    split; [constructor|]. split; [intros d v []|intros u []].
  - cbv zeta.
    change (if Py.truthy (domain_of u) then domain_of u else u)
      with (site_key u).
    destruct (is_some (assoc (site_key u) acc)) eqn:A.
    + apply assoc_in_keys in A.
      destruct (IH acc) as [new [E [N [P Q]]]].
      exists new. split; [exact E|]. split; [exact N|]. split.
      * intros d v I. destruct (P d v I) as [K [F [before [after [S B]]]]].
        split; [exact K|]. split; [exact F|].
        exists (u :: before), after. split; [now rewrite S|].
        intros x [<- | I']; [|now apply B].
        intros C. apply F. now rewrite <- C.
      * intros x [<- | I]; [|now apply Q].
        rewrite map_app. apply in_or_app. now left.
    + assert (A' : ~ In (site_key u) (map fst acc)).
      { intros C. apply assoc_in_keys in C. congruence. }
      destruct (IH (acc ++ [(site_key u, u)])) as [new [E [N [P Q]]]].
      exists ((site_key u, u) :: new).
      split; [now rewrite E, <- app_assoc|]. split; [|split].
      * cbn [map fst]. constructor; [|exact N].
        intros C. apply in_map_iff in C as [[d v] [Ed I]].
        cbn [fst] in Ed. subst d.
        destruct (P _ _ I) as [_ [F _]]. apply F.
        rewrite map_app. apply in_or_app. right. now left.
      * intros d v [I | I].
        -- injection I as <- <-. split; [reflexivity|].
           split; [exact A'|]. exists [], rest.
           split; [reflexivity | intros x []].
        -- destruct (P d v I) as [K [F [before [after [S B]]]]].
           split; [exact K|]. split.
           ++ intros C. apply F. rewrite map_app. apply in_or_app.
              now left.
           ++ exists (u :: before), after. split; [now rewrite S|].
              intros x [<- | I']; [|now apply B].
              intros C. apply F. rewrite map_app. apply in_or_app.
              right. left. exact C.
      * intros x [<- | I].
        -- rewrite map_app. apply in_or_app. right. now left.
        -- specialize (Q x I). now rewrite <- app_assoc in Q.
Qed.

(** X13.  After the URLs of the searches are put together, one is kept
    for each key, where the key of a URL is its domain, or the URL when
    it has none: no two of the sites kept have the same key, every URL
    found has its key among them, and the site kept for a key is the
    first URL found with that key. *)
Theorem dedupe_keeps_first (all_urls : list str) :
  let sites := map snd (dedupe all_urls []) in
  NoDup (map site_key sites) /\
  (forall u, In u all_urls ->
     exists v, In v sites /\ site_key v = site_key u) /\
  (forall v, In v sites ->
     exists before after,
       all_urls = before ++ v :: after /\
       forall x, In x before -> site_key x <> site_key v).
Proof.
  cbv zeta. destruct (dedupe_spec all_urls []) as [new [E [N [P Q]]]].
  cbn [app] in E, Q. rewrite E.
  assert (K : map fst new = map site_key (map snd new)).
  { apply keys_of_pairs. intros d v I. now destruct (P d v I). }
  split; [now rewrite <- K|]. split.
  - intros u I. specialize (Q u I). rewrite K in Q.
    apply in_map_iff in Q as [v [Ev Iv]]. now exists v.
  - intros v I. apply in_map_iff in I as [[d v'] [Ev I]].
    cbn [snd] in Ev. subst v'.
    destruct (P d v I) as [-> [_ B]]. exact B.
Qed.

(** ** The searches *)

Lemma search_query_spec (q : str) (per_q : Z) (st : state W) :
  exists st1 urls,
    search_query q per_q st = (st1, Ok urls) /\
    trace (sleep (delay_of rate_delay) st1) =
      trace st ++ query_events per_q q /\
    Forall (fun u => looks_like_business_site u = true) urls /\
    ((0 <= per_q)%Z -> (Z.of_nat (length urls) <= per_q)%Z).
Proof.
  unfold search_query, query_events.
  destruct (Py.startswith (provider side) (py "Bing API")).
  - unfold search_bing_api. destruct (Py.truthy (BING_API_KEY side));
      cbn [negb].
    + unfold http_send.
      destruct (network (world st) _) as [w r].
      eexists. eexists. split; [reflexivity|].
      split; [cbn [sleep trace]; now rewrite <- app_assoc|].
      apply bing_result_filtered.
    + exists st, []. split; [reflexivity|].
      split; [reflexivity | apply no_sites].
  - replace (serp_key_arg (SERP_KEY side)) with (Ok (SERP_KEY side))
      by (destruct (SERP_KEY side); reflexivity).
    unfold search_serp_api.
    destruct (Py.truthy (SERP_BASE_URL side)), (Py.truthy (SERP_KEY side));
      cbn [negb orb andb];
      try (exists st, []; split; [reflexivity|];
           split; [reflexivity | apply no_sites]).
    unfold http_send.
    destruct (network (world st) _) as [w r].
    eexists. eexists. split; [reflexivity|].
    split; [cbn [sleep trace]; now rewrite <- app_assoc|].
    apply serp_result_filtered.
Qed.

(** X19.  The searches always return.  For each query in its turn the
    adapter of the provider makes its one request, or none when it lacks
    its key or its base URL, and then the handler waits for the delay,
    after the last query too.  The URLs it collects are put after those
    it had, all of them pass the site filter, and they are no more than
    the number asked of each search times the number of queries. *)
Theorem search_phase (queries : list str) (per_q : Z)
    (all_urls : list str) (st : state W) :
  exists st' found,
    search_all queries per_q all_urls st = (st', Ok (all_urls ++ found)) /\
    trace st' = trace st ++ flat_map (query_events per_q) queries /\
    Forall (fun u => looks_like_business_site u = true) found /\
    ((0 <= per_q)%Z ->
     (Z.of_nat (length found) <= per_q * Z.of_nat (length queries))%Z).
Proof.
  revert all_urls st.
  induction queries as [|q queries IH]; intros all_urls st;
    cbn [search_all flat_map length].
  - exists st, []. rewrite !app_nil_r. split; [reflexivity|].
    split; [reflexivity|]. split; [constructor | cbn; lia].
  - destruct (search_query_spec q per_q st) as [st1 [urls [E [T [F L]]]]].
    rewrite E.
    destruct (IH (all_urls ++ urls) (sleep (delay_of rate_delay) st1))
      as [st' [found [E' [T' [F' L']]]]].
    exists st', (urls ++ found). split; [now rewrite E', app_assoc|].
    split; [now rewrite T', T, app_assoc|].
    split; [apply Forall_app; now split|].
    intros P. rewrite length_app. specialize (L P). specialize (L' P). lia.
Qed.

(** ** The handler of Search & Extract *)








(** ** The trace of a campaign *)



(** X20.  A campaign over a store that upserts of trimmed emails and
    imports have built never writes twice to one address, in whatever
    letter case: the recipients of its sends are different from one
    another also after they are put in lower case. *)
Theorem campaign_writes_once (ops : list op) (cfg : smtp_config)
    (subject greeting body signature : str) (daily_cap : Z) (st : state W) :
  Forall trimmed_op ops ->
  let '(st', _) :=
    send_campaign cfg subject greeting body signature daily_cap
      (run ops []) st in
  exists evs,
    trace st' = trace st ++ evs /\
    NoDup (map Py.lower (recipients evs)).
Proof.
  intros T. unfold send_campaign.
  destruct (@run_extends ops [] T) as [added [E U]]; [constructor|].
  cbn [app] in E, U. rewrite E.
  pose proof (campaign_loop_spec cfg subject
                (render_html greeting body signature) daily_cap
                (map Email added) 0 st) as H.
  destruct (campaign_loop _ _ _ _ _ _ _) as [st' sent].
  destruct H as [evs [k [Tr [R _]]]]. exists evs. split; [exact Tr|].
  rewrite R, <- firstn_map.
  unfold unique_emails, lowers in U. rewrite <- map_map in U.
  rewrite <- (firstn_skipn k (map Py.lower (map Email added))) in U.
  now apply NoDup_prefix in U.
Qed.

End Program.

(** * The SMTP dialogue *)

Ltac run_dialogue server :=
  unfold with_server; cbn [block]; unfold call; cbn [fst snd app];
  repeat match goal with
         | |- context [server ?s ?c] =>
             destruct (server s c) as [? [[]|]];
             cbn [block fst snd app]; unfold call; cbn [fst snd app]
         end.

Ltac shape_at k :=
  right; exists k; cbn [length firstn app map fst snd forallb andb];
  split; [lia|]; split; [reflexivity|]; split; [reflexivity|];
  split; [split; intros E; first [reflexivity | discriminate E]|];
  intros E; first [reflexivity | discriminate E].

(** X16.  The calls of a send.  When the connection cannot be made
    nothing else is called.  Otherwise the calls after it are the calls
    of the block in their order, up to the first that raises, and then
    the call that closes the connection, which is made whether the block
    raised or not.  The send returns exactly when every call returned,
    and then the whole block was run. *)
Theorem dialogue_calls (S : Type) (server : S -> smtp_call -> S * exn unit)
    (cfg : smtp_config) (m : message) (s : S) :
  let log := snd (fst (smtp_dialogue server cfg m s)) in
  let r := snd (smtp_dialogue server cfg m s) in
  let body := dialogue_body cfg m in
  (log = [(dialogue_new cfg, false)] /\ r = Raise) \/
  (exists k,
     1 <= k <= length body /\
     map fst log = dialogue_new cfg :: firstn k body ++ [Exit] /\
     forallb snd (firstn k log) = true /\
     (r = Ok tt <-> forallb snd log = true) /\
     (r = Ok tt -> k = length body)).
Proof.
  cbv zeta. unfold smtp_dialogue, dialogue_new, dialogue_body, login_calls.
  destruct (SMTP_STARTTLS cfg);
    destruct (Py.truthy (SMTP_USER cfg) || Py.truthy (SMTP_PASS cfg))%bool;
    run_dialogue server;
    first [ left; split; reflexivity
          | shape_at 1 | shape_at 2 | shape_at 3 | shape_at 4 | shape_at 5 ].
Qed.

(** X17.  With STARTTLS, the login and the message are sent only after
    [starttls] returned: in the calls of a send, every login and every
    sending of a message has before it a [starttls] that went
    through. *)
Theorem dialogue_tls_first (S : Type)
    (server : S -> smtp_call -> S * exn unit) (cfg : smtp_config)
    (m : message) (s : S) :
  SMTP_STARTTLS cfg = true ->
  let log := snd (fst (smtp_dialogue server cfg m s)) in
  forall i c ok,
    nth_error log i = Some (c, ok) ->
    (is_login c || is_send c)%bool = true ->
    exists j, j < i /\ nth_error log j = Some (Starttls, true).
Proof.
  intros T. cbv zeta. unfold smtp_dialogue, login_calls. rewrite T.
  destruct (Py.truthy (SMTP_USER cfg) || Py.truthy (SMTP_PASS cfg))%bool;
    run_dialogue server; intros i c ok H K;
    repeat
      (first
         [ solve [destruct i; cbn in H; discriminate H]
         | destruct i as [|i]; cbn [nth_error] in H;
           [ injection H as <- <-;
             first [ discriminate K
                   | exists 2; split; [lia | reflexivity] ]
           | ] ]).
Qed.

Lemma credentials_given (cfg : smtp_config) :
  (Py.truthy (SMTP_USER cfg) || Py.truthy (SMTP_PASS cfg))%bool = true <->
  SMTP_USER cfg <> [] \/ SMTP_PASS cfg <> [].
Proof.
  destruct (SMTP_USER cfg) as [|c u], (SMTP_PASS cfg) as [|c' p]; cbn; split;
    try discriminate; try reflexivity; intros H;
    try (left; discriminate); try (right; discriminate).
  destruct H as [H | H]; now contradiction H.
Qed.

Ltac dialogue_cases server cfg C :=
  unfold smtp_dialogue, login_calls;
  destruct (SMTP_STARTTLS cfg);
  destruct (Py.truthy (SMTP_USER cfg) || Py.truthy (SMTP_PASS cfg))%bool
    eqn:C;
  run_dialogue server.

Ltac find_call := cbn [In]; repeat first [left; reflexivity | right].

(** X18.  A send logs in only with the user and the password of the
    settings, only when one of them is not empty, and at most once; the
    only message it passes on is the one it was given, at most once;
    and when the send returns the message was passed on, after a login
    that went through if a user or a password is set. *)
Theorem dialogue_login_and_message (S : Type)
    (server : S -> smtp_call -> S * exn unit) (cfg : smtp_config)
    (m : message) (s : S) :
  let log := snd (fst (smtp_dialogue server cfg m s)) in
  let r := snd (smtp_dialogue server cfg m s) in
  (forall u p ok,
     In (Login u p, ok) log ->
     u = SMTP_USER cfg /\ p = SMTP_PASS cfg /\ (u <> [] \/ p <> [])) /\
  (forall m' ok, In (Send_message m', ok) log -> m' = m) /\
  length (filter (fun cb => is_login (fst cb)) log) <= 1 /\
  length (filter (fun cb => is_send (fst cb)) log) <= 1 /\
  (r = Ok tt ->
   In (Send_message m, true) log /\
   (SMTP_USER cfg <> [] \/ SMTP_PASS cfg <> [] ->
    In (Login (SMTP_USER cfg) (SMTP_PASS cfg), true) log)).
Proof.
  cbv zeta. split; [|split; [|split; [|split]]].
  - intros u p ok. dialogue_cases server cfg C; intros H; cbn [In] in H;
      repeat match type of H with
             | _ \/ _ =>
                 destruct H as [H | H];
                 [ first [ discriminate H
                         | injection H as <- <- _;
                           split; [reflexivity|]; split; [reflexivity|];
                           now apply credentials_given ] | ]
             end;
      contradiction H.
  - intros m' ok. dialogue_cases server cfg C; intros H; cbn [In] in H;
      repeat match type of H with
             | _ \/ _ =>
                 destruct H as [H | H];
                 [ first [ discriminate H | now injection H as <- _ ] | ]
             end;
      contradiction H.
  - dialogue_cases server cfg C; cbn; lia.
  - dialogue_cases server cfg C; cbn; lia.
  - dialogue_cases server cfg C; intros E; try discriminate E;
      (split; [find_call|]); intros H;
      first [ solve [find_call]
            | apply credentials_given in H; congruence ].
Qed.


(** * The properties on a small world *)

(** C10.  In the scan the counter goes up at every site one of whose
    pages gives an email, whatever [upsert_lead] does with the lead; so
    the number reported is at least the number of rows added, and it is
    greater for two sites that show the same address: 2 contacts are
    reported and 1 row is added. *)
Theorem added_counter_overcounts :
  (forall (W : Type) (network : W -> request -> W * reply)
          (clock : W -> Q -> W) (BeautifulSoup : str -> exn Soup)
          (side : sidebar) (rate_delay : Q) (base : str) (rest : list str)
          (st st1 : state W) (leads leads1 : store) (added : Z),
      probe_pages network clock BeautifulSoup side rate_delay
        (try_candidate_pages base) base st leads = (Ok true, st1, leads1) ->
      scan_sites network clock BeautifulSoup side rate_delay (base :: rest)
        st leads added =
      scan_sites network clock BeautifulSoup side rate_delay rest st1 leads1
        (added + 1)) /\
  (forall (W : Type) (network : W -> request -> W * reply)
          (clock : W -> Q -> W) (BeautifulSoup : str -> exn Soup)
          (side : sidebar) (rate_delay : Q) (urls : list str)
          (st : state W) (leads : store),
      let '(_, leads', reported) :=
        scan_sites network clock BeautifulSoup side rate_delay urls st leads 0
      in
      forall added,
        reported = Ok added ->
        (Z.of_nat (length leads') - Z.of_nat (length leads) <= added)%Z) /\
  (let '(_, leads', reported) :=
     scan_sites (demo_network two_sites) demo_clock demo_soup demo_side 1
       [py "https://acme.com"; py "https://acme.net"] demo_start [] 0 in
   reported = Ok 2%Z /\ length leads' = 1 /\
   map Email leads' = [py "info@acme.com"]).
Proof.
  split; [|split].
  - intros W network clock BeautifulSoup side rate_delay base rest st st1
      leads leads1 added P.
    cbn [scan_sites]. now rewrite P.
  - intros W network clock BeautifulSoup side rate_delay urls st leads.
    pose proof (scan_sites_counts network clock BeautifulSoup side rate_delay
                  urls st leads 0) as C.
    destruct (scan_sites network clock BeautifulSoup side rate_delay urls st
                leads 0) as [[st' leads'] reported].
    intros added E. destruct C as [_ C]. specialize (C added E). lia.
  - vm_compute. repeat split.
Qed.

(** ** The patterns and the filter at work *)

Example emails_of_a_line :
  Re.findall EMAIL_RE (py "x@y.org, Bob <bob.smith@mail.example.co.uk>.")
  = [py "x@y.org"; py "bob.smith@mail.example.co.uk"].
Proof. reflexivity. Qed.

Example email_followed_by_a_digit :
  Re.findall EMAIL_RE (py "mail a@b.com1 now") = [].
Proof. reflexivity. Qed.

Example phones_of_a_line :
  Re.findall PHONE_RE (py "Call +1 305-123-4567 or 786.555.0199")
  = [py "+1 305-123-4567"; py " 786.555.0199"].
Proof. reflexivity. Qed.

Example import_accepts_a_prefix :
  valid_email (py "info@example.com, junk") = true /\
  valid_email (py "-info@example.com") = false.
Proof. split; reflexivity. Qed.

Example business_sites_of_the_filter :
  looks_like_business_site demo_netloc (py "https://www.acme.com/about") = true /\
  looks_like_business_site demo_netloc (py "https://Acme.ORG") = true /\
  looks_like_business_site demo_netloc (py "https://www.facebook.com/acme") = false /\
  looks_like_business_site demo_netloc (py "https://netflix.com") = false /\
  looks_like_business_site demo_netloc (py "https://acme.io") = false /\
  looks_like_business_site demo_netloc (py "acme.com") = false.
Proof. repeat split. Qed.

Example pages_of_a_site_with_a_slash :
  try_candidate_pages (py "https://acme.com/")
  = [ py "https://acme.com/"; py "https://acme.com/contact";
      py "https://acme.com/contact-us"; py "https://acme.com/about";
      py "https://acme.com/team" ].
Proof. reflexivity. Qed.

(** Where the [" – "] of a title runs into its first [" | "], the name
    stops at the [" | "]. *)
Example title_with_both_separators :
  company_of {| title := Some (Some (py "A" ++ DASH ++ py "| B"));
                get_text := []; h1 := None |}
  = Some (py "A " ++ [EN_DASH]).
Proof. reflexivity. Qed.

(** ** Instances *)

Lemma upsert_first_writer_wins_witness :
  let before := run [] [] in
  let first :=
    upsert_lead (Some (py "Acme")) (Some (py "Sales@Acme.com"))
      (py "https://acme.com") None (py "bing") before in
  let later := run [Import (Ok three_rows)] first in
  let second :=
    upsert_lead (Some (py "Other")) (Some (py "sales@acme.COM"))
      (py "https://other.com") (Some (py "305 123 4567")) (py "serp") later in
  unique_emails before /\ unique_emails second /\ second = later /\
  (exists l,
     rows_for (py "Sales@Acme.com") second = [l] /\
     rows_for (py "Sales@Acme.com") first = [l] /\
     (rows_for (py "Sales@Acme.com") before = [] ->
      l = {| Company := or_empty (Some (py "Acme"));
             Email := py "Sales@Acme.com";
             Website := py "https://acme.com"; Phone := or_empty None;
             Source := py "bing" |})) /\
  upsert_lead (Some (py "Other")) None (py "https://other.com")
    (Some (py "305 123 4567")) (py "serp") later = later /\
  upsert_lead (Some (py "Other")) (Some []) (py "https://other.com")
    (Some (py "305 123 4567")) (py "serp") later = later.
Proof.
  apply (@upsert_first_writer_wins [] [Import (Ok three_rows)]).
  - constructor.
  - constructor; [exact I | constructor].
  - reflexivity.
  - reflexivity.
  - reflexivity.
Defined.

Lemma import_skips_and_counts_witness :
  exists added,
    fst (import_leads (Ok three_rows) []) = [] ++ added /\
    1%Z = Z.of_nat (length added) /\
    Forall
      (fun l =>
         Source l = py "import" /\
         exists r,
           In r three_rows /\ imported_from r l /\
           (row_get r (py "Company") = Missing -> Company l = []) /\
           (row_get r (py "Website") = Missing -> Website l = []) /\
           (row_get r (py "Phone") = Missing -> Phone l = []))
      added /\
    NoDup (lowers added) /\
    (forall l, In l added -> ~ In (Py.lower (Email l)) (lowers [])) /\
    (forall r e,
       In r three_rows -> field r (py "Email") = Ok e ->
       valid_email (Py.strip e) = true ->
       In (Py.lower (Py.strip e))
          (lowers (fst (import_leads (Ok three_rows) [])))).
Proof.
  apply (@import_skips_and_counts three_rows []).
  vm_compute. reflexivity.
Defined.




Lemma extracted_email_shape_witness :
  occurs_in (py "contact@acme.com") (get_text acme_page) /\
  6 <= length (py "contact@acme.com") /\
  forallb (fun c => negb (Py.is_space c)) (py "contact@acme.com") = true /\
  trimmed (py "contact@acme.com") /\
  occurs_in (py "@") (py "contact@acme.com").
Proof.
  apply (@extracted_email_shape acme_page (py "contact@acme.com")).
  vm_compute. reflexivity.
Defined.

Lemma extracted_phone_shape_witness :
  occurs_in (py "(305) 123-4567") (get_text acme_page) /\
  10 <= length (py "(305) 123-4567") <= 17 /\
  10 <= length (filter Re.digit (py "(305) 123-4567")).
Proof.
  apply (@extracted_phone_shape acme_page (py "(305) 123-4567")).
  vm_compute. reflexivity.
Defined.

Lemma import_accepts_trailing_text_witness :
  import_leads
    (Ok [[(py "Email", CStr (py "info@example.com" ++ py ", or call us"))]])
    [] =
  ([] ++ [ {| Company := [];
              Email := py "info@example.com" ++ py ", or call us";
              Website := []; Phone := []; Source := py "import" |} ],
   Imported 1).
Proof.
  apply (import_accepts_trailing_text (py "info@example.com")
           (py ", or call us") []).
  - vm_compute. reflexivity.
  - vm_compute. reflexivity.
  - vm_compute. reflexivity.
  - vm_compute. reflexivity.
  - intros [].
Defined.

Lemma import_twice_adds_nothing_witness :
  import_leads (Ok three_rows)
    [ {| Company := py "Site"; Email := py "bob@site.org"; Website := [];
         Phone := []; Source := py "import" |} ] =
  ([ {| Company := py "Site"; Email := py "bob@site.org"; Website := [];
        Phone := []; Source := py "import" |} ],
   Imported 0).
Proof.
  apply (@import_twice_adds_nothing three_rows [] _ 1%Z).
  vm_compute. reflexivity.
Defined.

Lemma import_writes_nan_witness :
  import_leads (Ok [exported_row (lead_of (py "a@one.com"))]) [] =
  ([] ++ [ {| Company := py "nan"; Email := py "a@one.com"; Website := [];
              Phone := py "nan"; Source := py "import" |} ],
   Imported 1).
Proof.
  apply (@import_writes_nan (exported_row (lead_of (py "a@one.com")))
           (py "a@one.com") [] []).
  - vm_compute. reflexivity.
  - vm_compute. reflexivity.
  - vm_compute. reflexivity.
  - intros [].
  - vm_compute. reflexivity.
  - vm_compute. reflexivity.
  - vm_compute. reflexivity.
Defined.

Lemma scan_rows_witness :
  let '(_, leads', _) :=
    scan_sites (demo_network two_sites) demo_clock demo_soup demo_side 1
      [py "https://acme.com"; py "https://acme.net"] demo_start [] 0 in
  unique_emails leads' /\
  exists new,
    leads' = [] ++ new /\
    Forall
      (fun l =>
         exists base,
           In base [py "https://acme.com"; py "https://acme.net"] /\
           scanned_row demo_side base l)
      new.
Proof.
  apply (@scan_rows unit (demo_network two_sites) demo_clock demo_soup
           demo_side 1 [py "https://acme.com"; py "https://acme.net"]
           demo_start [] 0%Z).
  constructor.
Defined.

Lemma serp_reads_three_shapes_witness :
  let us := [py "https://acme.com"] in
  let sites :=
    slice_count 10
      (filter
         (fun u => (Py.truthy u && looks_like_business_site demo_netloc u)%bool)
         us) in
  let nested :=
    JDict [(py "webPages",
            JDict [(py "value",
                    JList (map (fun u => JDict [(py "url", JStr u)]) us))])] in
  (demo_json choices_json choices_body = Ok (JList (map JStr us)) ->
   serp_result demo_netloc (demo_json choices_json) 10
     (Response 200 choices_body) = sites) /\
  (demo_json choices_json choices_body =
     Ok (JDict [(py "results",
                 JList (map (fun u => JDict [(py "link", JStr u)]) us))]) ->
   serp_result demo_netloc (demo_json choices_json) 10
     (Response 200 choices_body) = sites) /\
  (demo_json choices_json choices_body = Ok nested ->
   serp_result demo_netloc (demo_json choices_json) 10
     (Response 200 choices_body) = sites /\
   bing_result demo_netloc (demo_json choices_json) 10
     (Response 200 choices_body) = sites).
Proof.
  apply (@serp_reads_three_shapes demo_netloc (demo_json choices_json) 10%Z
           200%Z choices_body
           [py "https://acme.com"]).
  lia.
Defined.

Lemma dialogue_tls_first_witness :
  exists j,
    j < 4 /\
    nth_error
      (snd (fst (smtp_dialogue (fun (s : unit) (_ : smtp_call) => (s, Ok tt))
                   demo_config
                   {| msg_from := py "a"; msg_to := py "b"; msg_subject := [];
                      msg_plain := []; msg_html := [] |} tt)))
      j = Some (Starttls, true).
Proof.
  apply (@dialogue_tls_first unit (fun s _ => (s, Ok tt)) demo_config
           {| msg_from := py "a"; msg_to := py "b"; msg_subject := [];
              msg_plain := []; msg_html := [] |} tt eq_refl 4
           (Login (py "user") (py "secret")) true).
  - reflexivity.
  - reflexivity.
Defined.

Lemma campaign_writes_once_witness :
  let '(st', _) :=
    send_campaign (demo_smtp []) demo_clock (py "Sender") demo_config
      (py "Hello") (py "Dear Team,") (py "<p>Offer</p>") (py "<p>Bye</p>") 3
      (run [Upsert None (Some (py "a@one.com")) (py "https://one.com") None
              (py "bing");
            Import (Ok three_rows);
            Upsert None (Some (py "A@ONE.COM")) (py "https://one.net") None
              (py "bing")] [])
      demo_start in
  exists evs,
    trace st' = trace demo_start ++ evs /\
    NoDup (map Py.lower (recipients evs)).
Proof.
  apply (@campaign_writes_once unit (demo_smtp []) demo_clock (py "Sender")
           [Upsert None (Some (py "a@one.com")) (py "https://one.com") None
              (py "bing");
            Import (Ok three_rows);
            Upsert None (Some (py "A@ONE.COM")) (py "https://one.net") None
              (py "bing")]
           demo_config (py "Hello") (py "Dear Team,") (py "<p>Offer</p>")
           (py "<p>Bye</p>") 3%Z demo_start).
  repeat constructor.
Defined.

(** ** Where the statements of the specification stop *)


(** C9.  A field that is empty in the file is NaN in the frame; NaN is
    true, so [row.get("Company", "") or ""] is NaN and its text is
    [nan]: the row is stored with the company, the website and the
    phone [nan], not with the empty string. *)
Lemma empty_cell_imported_as_nan :
  import_leads
    (Ok [[ (py "Email", CStr (py "bob@site.org")); (py "Company", CNaN);
           (py "Website", CNaN); (py "Phone", CNaN) ]]) []
  = ([ {| Company := py "nan"; Email := py "bob@site.org";
          Website := py "nan"; Phone := py "nan";
          Source := py "import" |} ],
     Imported 1).
Proof. vm_compute. reflexivity. Qed.

(** A response with the status 300 is neither a 2xx nor rejected by
    [raise_for_status]: the adapters read its JSON. *)
Lemma status_300_yields_urls :
  ~ (200 <= 300 < 300)%Z /\
  raise_for_status 300 = Ok tt /\
  snd (search_serp_api (demo_network choices_endpoint) demo_netloc
         (demo_json choices_json) (py "Mozilla/5.0") (py "builders")
         (py "https://serp.example.com/search") (py "secret") (py "GET")
         (Some (py "X-API-KEY")) None 20 demo_start)
  = Ok [py "https://acme.com"].
Proof.
  split; [lia|]. split; reflexivity.
Qed.

(** No configured key is replaced on its way to [search_serp_api]. *)
Lemma no_key_is_short_circuited :
  ~ exists key, key <> [] /\ serp_key_arg key <> Ok key.
Proof.
  intros [key [_ H]]. apply H. destruct key; reflexivity.
Qed.

